(** * WhisperX job service: the job store and the job lifecycle

    A shallow embedding of [app/models/database.py] (the SQLite job store),
    of [app/api/v1/endpoints/jobs.py] (the job endpoints and the background
    task) and of the mock engine of [app/services/whisperx_service.py],
    with the properties of the job lifecycle proved about them.

    - Python values are the inductive [pyval]; a Python exception is a
      [pyexc] and code that can raise lives in the monad [py].
    - The SQLite database is a record of three tables, each a list of rows
      in insertion order.  A [with sqlite3.connect(...) as conn:] block is a
      computation in the monad [Tx] over a connection that separates the
      committed database from the connection's working copy and logs what
      another connection could read after every database call.
    - [datetime.utcnow()] and [time.time() - start_time] are inputs
      ([now], [elapsed]); the transcription engine is an outcome handed to
      the second half of the background task.
    - The storage engine itself is taken not to fail (no I/O errors, no
      lock time-outs): a statement fails only for the reasons the data give
      it (a constraint, a value SQLite cannot bind).  So the [False] the
      database manager returns from its exception handlers is returned
      only for such a statement.
    - The foreign keys of the segment tables are declared, but SQLite
      enforces them only under [PRAGMA foreign_keys = ON], which the
      code does not issue: they constrain nothing.
    - A float is a rational number: [nan] and the infinities are outside
      the values modelled ([sqlite3] would store a [nan] as NULL), and a
      value is stored as it was bound, without SQLite's column
      affinity. *)

From Stdlib Require Import ZArith QArith List String Ascii Bool Lia.
From Stdlib Require Import DecimalString Sorted.
Import ListNotations.
Local Open Scope string_scope.
Local Open Scope Z_scope.
Local Open Scope list_scope.

Set Implicit Arguments.
Set Warnings "-register-all".

(** ** Python values and exceptions *)

(** The values the service handles: what [json] can carry.  A dict is the
    list of its items; keys are strings. *)
Inductive pyval : Type :=
| PNone
| PBool (b : bool)
| PInt (z : Z)
| PFloat (q : Q)
| PStr (s : string)
| PList (l : list pyval)
| PDict (d : list (string * pyval)).

(** An exception: its class and [str(e)]. *)
Record pyexc : Type := mkExc { exc_class : string; exc_str : string }.

Inductive py (A : Type) : Type :=
| Ret (a : A)
| Exc (e : pyexc).
Arguments Ret {A} a.
Arguments Exc {A} e.

Definition py_bind {A B} (m : py A) (k : A -> py B) : py B :=
  match m with
  | Ret a => k a
  | Exc e => Exc e
  end.

Declare Scope py_scope.
Delimit Scope py_scope with py.
Notation "x <- m ;; k" := (py_bind m (fun x => k))
  (at level 61, m at next level, right associativity) : py_scope.
Notation "m ;;; k" := (py_bind m (fun _ => k))
  (at level 61, right associativity) : py_scope.

(** [for x in xs: body(x)] where the body returns a value we collect. *)
Fixpoint py_mapM {A B} (f : A -> py B) (xs : list A) : py (list B) :=
  match xs with
  | [] => Ret []
  | x :: xs' =>
      (y <- f x ;; ys <- py_mapM f xs' ;; Ret (y :: ys))%py
  end.

Definition type_name (v : pyval) : string :=
  match v with
  | PNone => "NoneType"
  | PBool _ => "bool"
  | PInt _ => "int"
  | PFloat _ => "float"
  | PStr _ => "str"
  | PList _ => "list"
  | PDict _ => "dict"
  end.

Definition AttributeError (v : pyval) (attr : string) : pyexc :=
  mkExc "AttributeError"
    ("'" ++ type_name v ++ "' object has no attribute '" ++ attr ++ "'").

Definition TypeError (msg : string) : pyexc := mkExc "TypeError" msg.

(** Whether the class of the exception derives from [Exception], which is
    what [except Exception] catches.  The classes that derive from
    [BaseException] only are the exits of the interpreter and, for a
    coroutine, the cancellation of its task. *)
Definition is_Exception (e : pyexc) : bool :=
  negb (existsb (String.eqb (exc_class e))
          [ "BaseException"; "SystemExit"; "KeyboardInterrupt";
            "GeneratorExit"; "CancelledError" ]).

(** [str(KeyError(k))] is [repr(k)]. *)
Definition KeyError (k : string) : pyexc :=
  mkExc "KeyError" ("'" ++ k ++ "'").

Fixpoint dict_lookup (k : string) (d : list (string * pyval)) : option pyval :=
  match d with
  | [] => None
  | (k', v) :: d' => if String.eqb k k' then Some v else dict_lookup k d'
  end.

Definition get_or (d : list (string * pyval)) (k : string) (default : pyval)
  : pyval :=
  match dict_lookup k d with
  | Some v => v
  | None => default
  end.

(** [o.get(k, default)] *)
Definition py_get (o : pyval) (k : string) (default : pyval) : py pyval :=
  match o with
  | PDict d => Ret (get_or d k default)
  | _ => Exc (AttributeError o "get")
  end.

(** [o[k]] for a string key. *)
Definition py_getitem (o : pyval) (k : string) : py pyval :=
  match o with
  | PDict d =>
      match dict_lookup k d with
      | Some v => Ret v
      | None => Exc (KeyError k)
      end
  | _ => Exc (TypeError ("'" ++ type_name o ++ "' object is not subscriptable"))
  end.

(** [k in o] for a string key (only ever asked of a dict here). *)
Definition py_contains (k : string) (o : pyval) : py bool :=
  match o with
  | PDict d =>
      Ret (match dict_lookup k d with Some _ => true | None => false end)
  | _ => Exc (TypeError
                ("argument of type '" ++ type_name o ++ "' is not iterable"))
  end.

Fixpoint chars (s : string) : list pyval :=
  match s with
  | EmptyString => []
  | String c s' => PStr (String c EmptyString) :: chars s'
  end.

(** What [for x in o] ranges over: the items of a list, the keys of a dict,
    the characters of a string. *)
Definition py_iter (o : pyval) : py (list pyval) :=
  match o with
  | PList l => Ret l
  | PDict d => Ret (map (fun kv => PStr (fst kv)) d)
  | PStr s => Ret (chars s)
  | _ => Exc (TypeError ("'" ++ type_name o ++ "' object is not iterable"))
  end.

Definition Qnonzero (q : Q) : bool := negb (Qeq_bool q 0).

(** Truth value of [if o:]. *)
Definition py_truthy (o : pyval) : bool :=
  match o with
  | PNone => false
  | PBool b => b
  | PInt z => negb (z =? 0)
  | PFloat q => Qnonzero q
  | PStr s => negb (String.eqb s "")
  | PList l => match l with [] => false | _ => true end
  | PDict d => match d with [] => false | _ => true end
  end.

Definition string_of_nat (n : nat) : string :=
  NilEmpty.string_of_uint (Nat.to_uint n).

(** [sep.join(items)]: every item has to be a str. *)
Fixpoint py_join_from (i : nat) (sep : string) (items : list pyval)
  : py string :=
  match items with
  | [] => Ret ""
  | PStr s :: rest =>
      match rest with
      | [] => Ret s
      | _ => (t <- py_join_from (S i) sep rest ;; Ret (s ++ sep ++ t)%string)%py
      end
  | v :: _ =>
      Exc (TypeError ("sequence item " ++ string_of_nat i
                        ++ ": expected str instance, " ++ type_name v
                        ++ " found"))
  end.

Definition py_join (sep : string) (items : list pyval) : py string :=
  py_join_from 0 sep items.

(** A number as a rational: [bool] is a subtype of [int]. *)
Definition as_number (v : pyval) : option Q :=
  match v with
  | PBool b => Some (if b then 1%Q else 0%Q)
  | PInt z => Some (inject_Z z)
  | PFloat q => Some q
  | _ => None
  end.

Definition Qlt_bool (a b : Q) : bool := negb (Qle_bool b a).

(** [a == b]: numbers are equal by value whatever their type, lists item
    by item, dicts when they have the same keys with equal values. *)
Fixpoint py_eq (a b : pyval) {struct a} : bool :=
  match a, b with
  | PNone, PNone => true
  | PStr s, PStr t => String.eqb s t
  | PList la, PList lb =>
      (fix list_eq (la lb : list pyval) {struct la} : bool :=
         match la, lb with
         | [], [] => true
         | x :: la', y :: lb' => py_eq x y && list_eq la' lb'
         | _, _ => false
         end) la lb
  | PDict da, PDict db =>
      Nat.eqb (List.length da) (List.length db)
      && (fix items_eq (da : list (string * pyval)) : bool :=
            match da with
            | [] => true
            | (k, v) :: da' =>
                match dict_lookup k db with
                | Some v' => py_eq v v'
                | None => false
                end && items_eq da'
            end) da
  | _, _ =>
      match as_number a, as_number b with
      | Some x, Some y => Qeq_bool x y
      | _, _ => false
      end
  end.

(** The nesting depth of a value. *)
Fixpoint pyval_depth (v : pyval) : nat :=
  match v with
  | PList l => S (fold_right (fun x n => Nat.max (pyval_depth x) n) 0%nat l)
  | PDict d =>
      S (fold_right (fun kv n => Nat.max (pyval_depth (snd kv)) n) 0%nat d)
  | _ => 1%nat
  end.

(** [a > b].  Numbers are ordered by value and strings by their characters;
    a list is greater than another when it is at the first item in which
    they differ, or when they do not differ and it is the longer one; for
    any other pair of types Python raises [TypeError]. *)
Fixpoint py_gt (a b : pyval) {struct a} : py bool :=
  match as_number a, as_number b with
  | Some x, Some y => Ret (Qlt_bool y x)
  | _, _ =>
      match a, b with
      | PStr s, PStr t => Ret (String.ltb t s)
      | PList la, PList lb =>
          (fix list_gt (la lb : list pyval) {struct la} : py bool :=
             match la, lb with
             | [], _ => Ret false
             | _ :: _, [] => Ret true
             | x :: la', y :: lb' =>
                 if py_eq x y then list_gt la' lb' else py_gt x y
             end) la lb
      | _, _ =>
          Exc (TypeError ("'>' not supported between instances of '"
                            ++ type_name a ++ "' and '" ++ type_name b ++ "'"))
      end
  end.

Fixpoint py_max_from (best : pyval) (rest : list pyval) : py pyval :=
  match rest with
  | [] => Ret best
  | v :: rest' =>
      (g <- py_gt v best ;;
       py_max_from (if g then v else best) rest')%py
  end.

(** [max(items)] *)
Definition py_max (items : list pyval) : py pyval :=
  match items with
  | [] => Exc (mkExc "ValueError" "max() arg is an empty sequence")
  | v :: rest => py_max_from v rest
  end.

(** [x or default] *)
Definition py_or (x default : pyval) : pyval :=
  if py_truthy x then x else default.

(** ** SQLite values, rows and tables *)

(** What a column holds.  Column affinity conversions are not modelled: a
    value is stored as it was bound. *)
Inductive sqlval : Type :=
| SNull
| SInt (z : Z)
| SReal (q : Q)
| SText (s : string).

Definition is_null (v : sqlval) : bool :=
  match v with SNull => true | _ => false end.

(** How the [sqlite3] module binds a Python value to a [?]; a list or a
    dict cannot be bound and the call raises (what matters below is that
    it raises, the database manager logs and drops the message).  Of the
    values modelled, [None] is the only one bound to NULL. *)
Definition bind_param (v : pyval) : py sqlval :=
  match v with
  | PNone => Ret SNull
  | PBool b => Ret (SInt (if b then 1 else 0))
  | PInt z =>
      if (- 2 ^ 63 <=? z) && (z <? 2 ^ 63) then Ret (SInt z)
      else Exc (mkExc "OverflowError"
                  "Python int too large to convert to SQLite INTEGER")
  | PFloat q => Ret (SReal q)
  | PStr s => Ret (SText s)
  | PList _ | PDict _ =>
      Exc (mkExc "ProgrammingError"
             ("Error binding parameter: type '" ++ type_name v
                ++ "' is not supported"))
  end.

Definition IntegrityError (msg : string) : pyexc :=
  mkExc "IntegrityError" msg.

(** A row of table [jobs].  [created_at] and [updated_at] are instants;
    [result_data] is the text [json.dumps(result)], represented by the
    document it encodes ([None] is SQL NULL). *)
Record JobRow : Type := mkJobRow {
  job_id : sqlval;
  status : string;
  created_at : Z;
  updated_at : Z;
  filename : sqlval;
  model_size : sqlval;
  enable_diarization : sqlval;
  enable_alignment : sqlval;
  language : sqlval;
  processing_time : sqlval;
  audio_duration : sqlval;
  confidence : sqlval;
  error_message : option string;
  result_data : option pyval
}.

(** A row of table [speaker_segments]. *)
Record SpeakerSegmentRow : Type := mkSpeakerSegmentRow {
  ss_id : Z;
  ss_job_id : string;
  ss_speaker : sqlval;
  ss_start_time : sqlval;
  ss_end_time : sqlval;
  ss_text : sqlval
}.

(** A row of table [word_segments]. *)
Record WordSegmentRow : Type := mkWordSegmentRow {
  ws_id : Z;
  ws_job_id : string;
  ws_word : sqlval;
  ws_start_time : sqlval;
  ws_end_time : sqlval;
  ws_speaker : sqlval;
  ws_confidence : sqlval
}.

Record Database : Type := mkDatabase {
  jobs : list JobRow;
  speaker_segments : list SpeakerSegmentRow;
  word_segments : list WordSegmentRow
}.

(** The database after [_create_tables] on a new file. *)
Definition empty_db : Database := mkDatabase [] [] [].

(** [WHERE job_id = ?] with a text parameter. *)
Definition job_id_is (jid : string) (r : JobRow) : bool :=
  match job_id r with
  | SText s => String.eqb s jid
  | _ => false
  end.

Definition sqlval_eqb (a b : sqlval) : bool :=
  match a, b with
  | SNull, SNull => true
  | SInt x, SInt y => x =? y
  | SReal x, SReal y => Qeq_bool x y
  | SText x, SText y => String.eqb x y
  | _, _ => false
  end.

(** ** SQL statements

    Each statement is a function on the database that either yields the
    new database or raises and changes nothing. *)

(** [INSERT INTO jobs (job_id, filename, model_size, enable_diarization,
    enable_alignment, language) VALUES (?, ?, ?, ?, ?, ?)]: the other
    columns take their defaults; a second row with the same key violates
    the primary key. *)
Definition sql_insert_job (jid fname msize diar align lang : sqlval)
    (now : Z) (db : Database) : py Database :=
  if negb (is_null jid)
     && existsb (fun r => sqlval_eqb (job_id r) jid) (jobs db)
  then Exc (IntegrityError "UNIQUE constraint failed: jobs.job_id")
  else
    Ret (mkDatabase
           (jobs db ++
              [ mkJobRow jid "pending" now now fname msize diar align lang
                  SNull SNull SNull None None ])
           (speaker_segments db) (word_segments db)).

Definition update_where (jid : string) (f : JobRow -> JobRow)
    (rows : list JobRow) : list JobRow :=
  map (fun r => if job_id_is jid r then f r else r) rows.

Definition set_status (st : string) (now : Z) (r : JobRow) : JobRow :=
  mkJobRow (job_id r) st (created_at r) now (filename r) (model_size r)
    (enable_diarization r) (enable_alignment r) (language r)
    (processing_time r) (audio_duration r) (confidence r)
    (error_message r) (result_data r).

Definition set_status_error (st : string) (msg : string) (now : Z)
    (r : JobRow) : JobRow :=
  mkJobRow (job_id r) st (created_at r) now (filename r) (model_size r)
    (enable_diarization r) (enable_alignment r) (language r)
    (processing_time r) (audio_duration r) (confidence r)
    (Some msg) (result_data r).

Definition set_result (ptime dur lang conf : sqlval) (payload : pyval)
    (now : Z) (r : JobRow) : JobRow :=
  mkJobRow (job_id r) "completed" (created_at r) now (filename r)
    (model_size r) (enable_diarization r) (enable_alignment r) lang
    ptime dur conf (error_message r) (Some payload).

(** [UPDATE jobs SET status = ?, updated_at = ? WHERE job_id = ?] *)
Definition sql_update_status (jid st : string) (now : Z) (db : Database)
  : py Database :=
  Ret (mkDatabase (update_where jid (set_status st now) (jobs db))
         (speaker_segments db) (word_segments db)).

(** [UPDATE jobs SET status = ?, error_message = ?, updated_at = ?
    WHERE job_id = ?] *)
Definition sql_update_status_error (jid st msg : string) (now : Z)
    (db : Database) : py Database :=
  Ret (mkDatabase (update_where jid (set_status_error st msg now) (jobs db))
         (speaker_segments db) (word_segments db)).

(** [UPDATE jobs SET status = ?, processing_time = ?, audio_duration = ?,
    language = ?, confidence = ?, result_data = ?, updated_at = ?
    WHERE job_id = ?] *)
Definition sql_update_result (jid : string) (ptime dur lang conf : sqlval)
    (payload : pyval) (now : Z) (db : Database) : py Database :=
  Ret (mkDatabase
         (update_where jid (set_result ptime dur lang conf payload now)
            (jobs db))
         (speaker_segments db) (word_segments db)).

Definition next_id {A} (rows : list A) : Z := Z.of_nat (List.length rows) + 1.

(** [INSERT INTO speaker_segments (job_id, speaker, start_time, end_time,
    text) VALUES (?, ?, ?, ?, ?)]; all four value columns are NOT NULL. *)
Definition sql_insert_speaker_segment (jid : string)
    (speaker start_time end_time text : sqlval) (db : Database)
  : py Database :=
  if is_null speaker then
    Exc (IntegrityError "NOT NULL constraint failed: speaker_segments.speaker")
  else if is_null start_time then
    Exc (IntegrityError
           "NOT NULL constraint failed: speaker_segments.start_time")
  else if is_null end_time then
    Exc (IntegrityError "NOT NULL constraint failed: speaker_segments.end_time")
  else if is_null text then
    Exc (IntegrityError "NOT NULL constraint failed: speaker_segments.text")
  else
    Ret (mkDatabase (jobs db)
           (speaker_segments db ++
              [ mkSpeakerSegmentRow (next_id (speaker_segments db)) jid
                  speaker start_time end_time text ])
           (word_segments db)).

(** [INSERT INTO word_segments (job_id, word, start_time, end_time, speaker,
    confidence) VALUES (?, ?, ?, ?, ?, ?)]; [speaker] and [confidence] may
    be NULL. *)
Definition sql_insert_word_segment (jid : string)
    (word start_time end_time speaker conf : sqlval) (db : Database)
  : py Database :=
  if is_null word then
    Exc (IntegrityError "NOT NULL constraint failed: word_segments.word")
  else if is_null start_time then
    Exc (IntegrityError "NOT NULL constraint failed: word_segments.start_time")
  else if is_null end_time then
    Exc (IntegrityError "NOT NULL constraint failed: word_segments.end_time")
  else
    Ret (mkDatabase (jobs db) (speaker_segments db)
           (word_segments db ++
              [ mkWordSegmentRow (next_id (word_segments db)) jid
                  word start_time end_time speaker conf ])).

(** ** Connections and transactions *)

(** A connection inside a [with sqlite3.connect(...) as conn:] block:
    [committed] is what every other connection reads, [working] is what
    this connection sees, [observed] logs [committed] after every database
    call of the block. *)
Record Conn : Type := mkConn {
  committed : Database;
  working : Database;
  observed : list Database
}.

Definition Tx (A : Type) : Type := Conn -> py A * Conn.

Definition tx_ret {A} (a : A) : Tx A := fun c => (Ret a, c).

Definition tx_bind {A B} (m : Tx A) (k : A -> Tx B) : Tx B :=
  fun c =>
    match m c with
    | (Ret a, c') => k a c'
    | (Exc e, c') => (Exc e, c')
    end.

(** Python evaluation between database calls. *)
Definition tx_lift {A} (m : py A) : Tx A := fun c => (m, c).

Declare Scope tx_scope.
Delimit Scope tx_scope with tx.
Notation "x <- m ;; k" := (tx_bind m (fun x => k))
  (at level 61, m at next level, right associativity) : tx_scope.
Notation "m ;;; k" := (tx_bind m (fun _ => k))
  (at level 61, right associativity) : tx_scope.

Definition observe (c : Conn) : Conn :=
  mkConn (committed c) (working c) (observed c ++ [committed c]).

(** [cursor.execute(stmt)]: the first write opens the transaction, later
    ones join it; a statement that raises leaves the working copy as it
    was. *)
Definition execute (stmt : Database -> py Database) : Tx unit :=
  fun c =>
    match stmt (working c) with
    | Ret db' => (Ret tt, observe (mkConn (committed c) db' (observed c)))
    | Exc e => (Exc e, observe c)
    end.

(** [conn.commit()] *)
Definition commit : Tx unit :=
  fun c => (Ret tt, observe (mkConn (working c) (working c) (observed c))).

(** A [SELECT]: reads the working copy. *)
Definition query {A} (q : Database -> A) : Tx A :=
  fun c => (Ret (q (working c)), observe c).

(** [for x in xs: body(x)] inside the block. *)
Fixpoint tx_for {A} (xs : list A) (body : A -> Tx unit) : Tx unit :=
  match xs with
  | [] => tx_ret tt
  | x :: xs' => (body x ;;; tx_for xs' body)%tx
  end.

(** [with sqlite3.connect(path) as conn: body]: leaving the block normally
    commits, leaving it by an exception rolls back and lets the exception
    through.  The result is the outcome of the body, the database every
    connection reads afterwards, and the log of what was readable during the
    block, ending with the final state. *)
Definition with_connection {A} (body : Tx A) (db : Database)
  : py A * Database * list Database :=
  match body (mkConn db db []) with
  | (Ret a, c) => (Ret a, working c, observed c ++ [working c])
  | (Exc e, c) => (Exc e, committed c, observed c ++ [committed c])
  end.

(** [try: ... return v  except Exception as e: logger.error(...); return d] *)
Definition except_return {A} (d : A) (r : py A * Database * list Database)
  : A * Database :=
  match r with
  | (Ret a, db, _) => (a, db)
  | (Exc _, db, _) => (d, db)
  end.

(** ** The database manager ([app/models/database.py]) *)

Module DatabaseManager.

Definition bind (v : pyval) : Tx sqlval := tx_lift (bind_param v).

(** [json.dumps(result)]: the text is represented by the document, and
    every [pyval] can be serialized. *)
Definition json_dumps (v : pyval) : py pyval := Ret v.

Definition create_job_tx (job_data : pyval) (now : Z) : Tx bool :=
  (jid <- tx_lift (py_getitem job_data "job_id") ;;
   fname <- tx_lift (py_getitem job_data "filename") ;;
   msize <- tx_lift (py_get job_data "model_size" (PStr "large-v2")) ;;
   diar <- tx_lift (py_get job_data "enable_diarization" (PBool true)) ;;
   align <- tx_lift (py_get job_data "enable_alignment" (PBool true)) ;;
   lang <- tx_lift (py_get job_data "language" PNone) ;;
   jid' <- bind jid ;;
   fname' <- bind fname ;;
   msize' <- bind msize ;;
   diar' <- bind diar ;;
   align' <- bind align ;;
   lang' <- bind lang ;;
   execute (sql_insert_job jid' fname' msize' diar' align' lang' now) ;;;
   commit ;;;
   tx_ret true)%tx.

(** [create_job(job_data)]; [now] is CURRENT_TIMESTAMP. *)
Definition create_job (db : Database) (job_data : pyval) (now : Z)
  : bool * Database :=
  except_return false (with_connection (create_job_tx job_data now) db).

Definition get_job_tx (jid : string) : Tx (option JobRow) :=
  query (fun db => find (job_id_is jid) (jobs db)).

(** [get_job(job_id)]: the row, or [None]. *)
Definition get_job (db : Database) (jid : string) : option JobRow :=
  fst (except_return None (with_connection (get_job_tx jid) db)).

(** [ORDER BY created_at DESC]: SQL leaves the order of rows with equal
    keys open; this sort keeps them in table order. *)
Fixpoint insert_desc (r : JobRow) (rows : list JobRow) : list JobRow :=
  match rows with
  | [] => [r]
  | r' :: rest =>
      if created_at r' <=? created_at r then r :: rows
      else r' :: insert_desc r rest
  end.

Fixpoint order_by_created_at_desc (rows : list JobRow) : list JobRow :=
  match rows with
  | [] => []
  | r :: rest => insert_desc r (order_by_created_at_desc rest)
  end.

(** [LIMIT ? OFFSET ?]: a negative limit is no limit, a negative offset
    is 0. *)
Definition limit_offset {A} (limit offset : Z) (rows : list A) : list A :=
  let rest := skipn (Z.to_nat offset) rows in
  if limit <? 0 then rest else firstn (Z.to_nat limit) rest.

(** The rows the optional [WHERE status = ?] keeps; [if status:] adds the
    clause only for a non-empty string. *)
Definition matching (status_filter : option string) (rows : list JobRow)
  : list JobRow :=
  match status_filter with
  | Some s =>
      if String.eqb s "" then rows
      else filter (fun r => String.eqb (status r) s) rows
  | None => rows
  end.

Definition get_jobs_tx (limit offset : Z) (status_filter : option string)
  : Tx (list JobRow) :=
  query (fun db =>
           limit_offset limit offset
             (order_by_created_at_desc (matching status_filter (jobs db)))).

(** [get_jobs(limit, offset, status)] *)
Definition get_jobs (db : Database) (limit offset : Z)
    (status_filter : option string) : list JobRow :=
  fst (except_return []
         (with_connection (get_jobs_tx limit offset status_filter) db)).

(** [if error_message:] *)
Definition given (error_message : option string) : option string :=
  match error_message with
  | Some s => if String.eqb s "" then None else Some s
  | None => None
  end.

Definition update_job_status_tx (jid st : string)
    (error_message : option string) (now : Z) : Tx bool :=
  (match given error_message with
   | Some msg => execute (sql_update_status_error jid st msg now)
   | None => execute (sql_update_status jid st now)
   end ;;;
   commit ;;;
   tx_ret true)%tx.

(** [update_job_status(job_id, status, error_message=None)] *)
Definition update_job_status (db : Database) (jid st : string)
    (error_message : option string) (now : Z) : bool * Database :=
  except_return false
    (with_connection (update_job_status_tx jid st error_message now) db).

Definition save_speaker_segment (jid : string) (segment : pyval) : Tx unit :=
  (speaker <- tx_lift (py_get segment "speaker" (PStr "UNKNOWN")) ;;
   start_time <- tx_lift (py_get segment "start" (PInt 0)) ;;
   end_time <- tx_lift (py_get segment "end" (PInt 0)) ;;
   text <- tx_lift (py_get segment "text" (PStr "")) ;;
   speaker' <- bind speaker ;;
   start_time' <- bind start_time ;;
   end_time' <- bind end_time ;;
   text' <- bind text ;;
   execute (sql_insert_speaker_segment jid speaker' start_time' end_time'
              text'))%tx.

Definition save_word_segment (jid : string) (word : pyval) : Tx unit :=
  (w <- tx_lift (py_get word "word" (PStr "")) ;;
   start_time <- tx_lift (py_get word "start" (PInt 0)) ;;
   end_time <- tx_lift (py_get word "end" (PInt 0)) ;;
   speaker <- tx_lift (py_get word "speaker" (PStr "UNKNOWN")) ;;
   conf <- tx_lift (py_get word "confidence" (PFloat (4 # 5))) ;;
   w' <- bind w ;;
   start_time' <- bind start_time ;;
   end_time' <- bind end_time ;;
   speaker' <- bind speaker ;;
   conf' <- bind conf ;;
   execute (sql_insert_word_segment jid w' start_time' end_time' speaker'
              conf'))%tx.

(** [if key in result: for item in result[key]: save(item)] *)
Definition save_each (key : string) (result : pyval)
    (save : pyval -> Tx unit) : Tx unit :=
  (present <- tx_lift (py_contains key result) ;;
   if present : bool then
     (v <- tx_lift (py_getitem result key) ;;
      items <- tx_lift (py_iter v) ;;
      tx_for items save)
   else tx_ret tt)%tx.

Definition save_job_result_tx (jid : string) (result : pyval) (now : Z)
  : Tx bool :=
  (ptime <- tx_lift (py_get result "processing_time" PNone) ;;
   dur <- tx_lift (py_get result "duration" PNone) ;;
   lang <- tx_lift (py_get result "language" PNone) ;;
   conf <- tx_lift (py_get result "confidence" PNone) ;;
   payload <- tx_lift (json_dumps result) ;;
   ptime' <- bind ptime ;;
   dur' <- bind dur ;;
   lang' <- bind lang ;;
   conf' <- bind conf ;;
   execute (sql_update_result jid ptime' dur' lang' conf' payload now) ;;;
   save_each "speaker_segments" result (save_speaker_segment jid) ;;;
   save_each "word_segments" result (save_word_segment jid) ;;;
   commit ;;;
   tx_ret true)%tx.

(** [save_job_result(job_id, result)] *)
Definition save_job_result (db : Database) (jid : string) (result : pyval)
    (now : Z) : bool * Database :=
  except_return false
    (with_connection (save_job_result_tx jid result now) db).

(** What any other connection could read while [save_job_result] runs,
    in order, ending with the state it leaves. *)
Definition save_job_result_observed (db : Database) (jid : string)
    (result : pyval) (now : Z) : list Database :=
  snd (with_connection (save_job_result_tx jid result now) db).

End DatabaseManager.

(** ** The response models ([app/models/schemas.py]) *)

Module JobStatus.
Inductive t : Type := PENDING | PROCESSING | COMPLETED | FAILED | CANCELLED.

Definition value (s : t) : string :=
  match s with
  | PENDING => "pending"
  | PROCESSING => "processing"
  | COMPLETED => "completed"
  | FAILED => "failed"
  | CANCELLED => "cancelled"
  end.

(** [JobStatus(s)] raises [ValueError] for anything but the five values. *)
Definition of_string (s : string) : py t :=
  if String.eqb s "pending" then Ret PENDING
  else if String.eqb s "processing" then Ret PROCESSING
  else if String.eqb s "completed" then Ret COMPLETED
  else if String.eqb s "failed" then Ret FAILED
  else if String.eqb s "cancelled" then Ret CANCELLED
  else Exc (mkExc "ValueError" ("'" ++ s ++ "' is not a valid JobStatus")).
End JobStatus.

Module ProcessingStage.
Inductive t : Type :=
  UPLOAD | TRANSCRIPTION | DIARIZATION | ALIGNMENT | COMPLETED.
End ProcessingStage.

Module ModelSize.
Inductive t : Type := TINY | BASE | SMALL | MEDIUM | LARGE | LARGE_V2.

Definition of_string (s : string) : option t :=
  if String.eqb s "tiny" then Some TINY
  else if String.eqb s "base" then Some BASE
  else if String.eqb s "small" then Some SMALL
  else if String.eqb s "medium" then Some MEDIUM
  else if String.eqb s "large" then Some LARGE
  else if String.eqb s "large-v2" then Some LARGE_V2
  else None.
End ModelSize.

Module JobResponse.
Record t : Type := mk {
  job_id : string;
  status : JobStatus.t;
  created_at : Z;
  updated_at : Z;
  audio_file : string;
  model_size : ModelSize.t;
  enable_diarization : bool;
  enable_alignment : bool;
  progress : Q;
  current_stage : option ProcessingStage.t;
  error_message : option string;
  result : option pyval
}.
End JobResponse.

Module JobListResponse.
Record t : Type := mk {
  jobs : list JobResponse.t;
  total : Z;
  page : Z;
  per_page : Z;
  has_next : bool;
  has_prev : bool
}.
End JobListResponse.

(** The field validators of pydantic, a library outside the repository,
    are parameters: what a [str] field, a [bool] field and a
    [TranscriptionResult] field accept, and the value they keep. *)
Class Pydantic : Type := {
  validate_str : pyval -> option string;
  validate_bool : pyval -> option bool;
  validate_TranscriptionResult : pyval -> option pyval
}.

(** A field of type [ModelSize]: one of the six values of the enum. *)
Definition validate_ModelSize (v : pyval) : option ModelSize.t :=
  match v with
  | PStr s => ModelSize.of_string s
  | _ => None
  end.

Definition ValidationError (field : string) : pyexc :=
  mkExc "ValidationError" ("1 validation error for JobResponse: " ++ field).

Definition validated {A} (field : string) (o : option A) : py A :=
  match o with
  | Some a => Ret a
  | None => Exc (ValidationError field)
  end.

(** The Python value [sqlite3] hands back for a column. *)
Definition to_python (v : sqlval) : pyval :=
  match v with
  | SNull => PNone
  | SInt z => PInt z
  | SReal q => PFloat q
  | SText s => PStr s
  end.

(** ** The job endpoints ([app/api/v1/endpoints/jobs.py]) *)

(** What an endpoint gives back: a response, or [HTTPException]. *)
Inductive http (A : Type) : Type :=
| Response (a : A)
| HTTPException (status_code : Z) (detail : string).
Arguments Response {A} a.
Arguments HTTPException {A} status_code detail.

(** The arguments of one [background_tasks.add_task(process_audio_job, ...)]. *)
Module Task.
Record t : Type := mk {
  job_id : string;
  audio_path : string;
  model_size : pyval;
  enable_diarization : pyval;
  enable_alignment : pyval;
  language : pyval
}.
End Task.

(** What the awaited [whisperx_service.transcribe_audio(...)] does. *)
Inductive engine_outcome : Type :=
| Returned (result : pyval)
| Raised (e : pyexc).

(** The service: the database, the background tasks added and not yet
    started, and the ones suspended in the engine call. *)
Record Service : Type := mkService {
  db : Database;
  scheduled : list Task.t;
  running : list Task.t
}.

Module Jobs.

Section WithPydantic.
Context {V : Pydantic}.

(** The conversion of a database job to the response model; [get_job] and
    [list_jobs] carry the same code. *)
Definition job_response (job : JobRow) : py JobResponse.t :=
  (let result_data := result_data job in
   st <- JobStatus.of_string (status job) ;;
   jid <- validated "job_id" (validate_str (to_python (job_id job))) ;;
   audio <- validated "audio_file" (validate_str (to_python (filename job))) ;;
   msize <- validated "model_size"
              (validate_ModelSize (to_python (model_size job))) ;;
   diar <- validated "enable_diarization"
             (validate_bool (to_python (enable_diarization job))) ;;
   align <- validated "enable_alignment"
              (validate_bool (to_python (enable_alignment job))) ;;
   res <- match result_data with
          | Some doc =>
              (r <- validated "result" (validate_TranscriptionResult doc) ;;
               Ret (Some r))
          | None => Ret None
          end ;;
   Ret (JobResponse.mk jid st (created_at job) (updated_at job) audio msize
          diar align
          (if String.eqb (status job) "completed" then 1%Q else 0%Q)
          (Some (if String.eqb (status job) "completed"
                 then ProcessingStage.COMPLETED else ProcessingStage.UPLOAD))
          (error_message job) res))%py.

(** [GET /{job_id}] *)
Definition get_job (d : Database) (job_id : string) : http JobResponse.t :=
  match DatabaseManager.get_job d job_id with
  | None => HTTPException 404 "Job not found"
  | Some job =>
      match job_response job with
      | Ret r => Response r
      | Exc _ => HTTPException 500 "Internal server error"
      end
  end.

(** [GET /] *)
Definition list_jobs (d : Database) (page per_page : Z)
    (status : option JobStatus.t) : http JobListResponse.t :=
  let offset := (page - 1) * per_page in
  let status_filter := option_map JobStatus.value status in
  let jobs := DatabaseManager.get_jobs d per_page offset status_filter in
  let all_jobs := DatabaseManager.get_jobs d 1000 0 status_filter in
  let total := Z.of_nat (List.length all_jobs) in
  match py_mapM job_response jobs with
  | Ret job_responses =>
      Response (JobListResponse.mk job_responses total page per_page
                  (page * per_page <? total) (1 <? page))
  | Exc _ => HTTPException 500 "Internal server error"
  end.

Definition opt_str (o : option string) : pyval :=
  match o with
  | Some s => PStr s
  | None => PNone
  end.

(** [POST /upload], from the point where the file has been stored:
    [job_id] is the fresh uuid and [file_path] where the file went.  The
    background task is handed over with the response, so none is added when
    the endpoint ends in an exception. *)
Definition upload_and_process (s : Service) (job_id file_path : string)
    (filename : string) (model_size : option string)
    (enable_diarization enable_alignment : bool) (language : option string)
    (now : Z) : http JobResponse.t * Service :=
  let job_data :=
    PDict [ ("job_id", PStr job_id);
            ("filename", PStr filename);
            ("model_size", opt_str model_size);
            ("enable_diarization", PBool enable_diarization);
            ("enable_alignment", PBool enable_alignment) ] in
  match DatabaseManager.create_job (db s) job_data now with
  | (false, d) =>
      (HTTPException 500 "Failed to create job in database",
       mkService d (scheduled s) (running s))
  | (true, d) =>
      match validate_ModelSize (opt_str model_size) with
      | None =>
          (HTTPException 500 "Internal server error",
           mkService d (scheduled s) (running s))
      | Some msize =>
          (Response
             (JobResponse.mk job_id JobStatus.PENDING now now filename msize
                enable_diarization enable_alignment 0%Q
                (Some ProcessingStage.UPLOAD) None None),
           mkService d
             (scheduled s ++
                [ Task.mk job_id file_path (opt_str model_size)
                    (PBool enable_diarization) (PBool enable_alignment)
                    (opt_str language) ])
             (running s))
      end
  end.

(** [POST /{job_id}/retry]; as in [upload_and_process], the background
    task goes with the response. *)
Definition retry_job (s : Service) (job_id : string) (now : Z)
  : http JobResponse.t * Service :=
  match DatabaseManager.get_job (db s) job_id with
  | None => (HTTPException 404 "Job not found", s)
  | Some job =>
      if negb (String.eqb (status job) "failed") then
        (HTTPException 400 "Only failed jobs can be retried", s)
      else
        let d := snd (DatabaseManager.update_job_status (db s) job_id
                        "pending" None now) in
        let file_path := ("/tmp/whisperx-uploads/" ++ job_id ++ ".mp3")%string in
        match
          (audio <- validated "audio_file"
                      (validate_str (to_python (filename job))) ;;
           msize <- validated "model_size"
                      (validate_ModelSize (to_python (model_size job))) ;;
           diar <- validated "enable_diarization"
                     (validate_bool (to_python (enable_diarization job))) ;;
           align <- validated "enable_alignment"
                      (validate_bool (to_python (enable_alignment job))) ;;
           Ret (JobResponse.mk job_id JobStatus.PENDING (created_at job) now
                  audio msize diar align 0%Q (Some ProcessingStage.UPLOAD)
                  None None))%py
        with
        | Ret r =>
            (Response r,
             mkService d
               (scheduled s ++
                  [ Task.mk job_id file_path (to_python (model_size job))
                      (to_python (enable_diarization job))
                      (to_python (enable_alignment job))
                      (to_python (language job)) ])
               (running s))
        | Exc _ =>
            (HTTPException 500 "Internal server error",
             mkService d (scheduled s) (running s))
        end
  end.

(** [DELETE /{job_id}]; the response is the message. *)
Definition cancel_job (s : Service) (job_id : string) (now : Z)
  : http string * Service :=
  match DatabaseManager.get_job (db s) job_id with
  | None => (HTTPException 404 "Job not found", s)
  | Some job =>
      if String.eqb (status job) "completed"
         || String.eqb (status job) "failed"
      then (HTTPException 400 "Cannot cancel completed or failed job", s)
      else
        match DatabaseManager.update_job_status (db s) job_id "cancelled"
                None now with
        | (true, d) =>
            (Response "Job cancelled successfully",
             mkService d (scheduled s) (running s))
        | (false, d) =>
            (HTTPException 500 "Failed to cancel job",
             mkService d (scheduled s) (running s))
        end
  end.

End WithPydantic.

(** *** The background task *)

(** One pass of [for segment in segments]: the speaker segment and the
    word segments it adds to [result_dict]. *)
Definition convert_word (word : pyval) : py pyval :=
  (start_time <- py_get word "start" (PInt 0) ;;
   end_time <- py_get word "end" (PInt 0) ;;
   w <- py_get word "word" (PStr "") ;;
   speaker <- py_get word "speaker" (PStr "UNKNOWN") ;;
   Ret (PDict [ ("start", start_time); ("end", end_time); ("word", w);
                ("speaker", speaker); ("confidence", PFloat (4 # 5)) ]))%py.

Definition convert_segment (segment : pyval) : py (pyval * list pyval) :=
  (start_time <- py_get segment "start" (PInt 0) ;;
   end_time <- py_get segment "end" (PInt 0) ;;
   text <- py_get segment "text" (PStr "") ;;
   speaker <- py_get segment "speaker" (PStr "UNKNOWN") ;;
   words <- py_get segment "words" (PList []) ;;
   items <- py_iter words ;;
   word_segments <- py_mapM convert_word items ;;
   Ret (PDict [ ("start", start_time); ("end", end_time); ("text", text);
                ("speaker", speaker) ],
        word_segments))%py.

(** The conversion of the engine's result to [result_dict];
    [processing_time] is [time.time() - start_time].  The generator under
    [max] reads the same segments the loops before it have read. *)
Definition convert_result (result : pyval) (processing_time : Q) : py pyval :=
  (segments <- py_get result "segments" (PList []) ;;
   items <- py_iter segments ;;
   texts <- py_mapM (fun seg => py_get seg "text" (PStr "")) items ;;
   full_text <- py_join " " texts ;;
   language <- py_get result "language" (PStr "en") ;;
   converted <- py_mapM convert_segment items ;;
   duration <- (if py_truthy segments then
                  (ends <- py_mapM (fun seg => py_get seg "end" (PInt 0))
                             items ;;
                   py_max ends)
                else Ret (PFloat 0)) ;;
   Ret (PDict [ ("text", PStr full_text);
                ("language", language);
                ("duration", duration);
                ("word_segments", PList (List.concat (map snd converted)));
                ("speaker_segments", PList (map fst converted));
                ("confidence", PFloat (4 # 5));
                ("processing_time", PFloat processing_time) ]))%py.

(** [process_audio_job] up to the [await]: the job is marked as
    processing. *)
Definition process_audio_job_start (d : Database) (job_id : string) (now : Z)
  : Database :=
  snd (DatabaseManager.update_job_status d job_id "processing" None now).

(** The result saved when the engine raised. *)
Definition partial_result (language : pyval) (elapsed : Q) (e : pyexc)
  : pyval :=
  PDict [ ("text", PStr "Transcription failed");
          ("language", py_or language (PStr "en"));
          ("duration", PFloat 0);
          ("word_segments", PList []);
          ("speaker_segments", PList []);
          ("confidence", PFloat 0);
          ("processing_time", PFloat elapsed);
          ("error", PStr (exc_str e)) ].

(** [process_audio_job] from the [await] on, given what the engine did.
    When it raised, the partial result is saved and the exception goes on to
    the outer handler; when it returned, the result is converted and saved
    (a refused save is only logged), and an exception of the conversion goes
    to the outer handler, which marks the job as failed with [str(e)].
    Both handlers are [except Exception]: an exception that does not derive
    from [Exception] passes them, nothing is written and the job stays as
    the first half of the task left it. *)
Definition process_audio_job_finish (d : Database) (job_id : string)
    (language : pyval) (outcome : engine_outcome) (elapsed : Q) (now : Z)
  : Database :=
  match outcome with
  | Raised transcription_error =>
      if is_Exception transcription_error then
        let d1 := snd (DatabaseManager.save_job_result d job_id
                         (partial_result language elapsed transcription_error)
                         now) in
        snd (DatabaseManager.update_job_status d1 job_id "failed"
               (Some (exc_str transcription_error)) now)
      else d
  | Returned result =>
      match convert_result result elapsed with
      | Ret result_dict =>
          snd (DatabaseManager.save_job_result d job_id result_dict now)
      | Exc e =>
          snd (DatabaseManager.update_job_status d job_id "failed"
                 (Some (exc_str e)) now)
      end
  end.

(** [process_audio_job] when nothing else runs during the [await]. *)
Definition process_audio_job (transcribe_audio : string -> pyval -> engine_outcome)
    (d : Database) (task : Task.t) (elapsed : Q) (now : Z) : Database :=
  let d1 := process_audio_job_start d (Task.job_id task) now in
  process_audio_job_finish d1 (Task.job_id task) (Task.language task)
    (transcribe_audio (Task.audio_path task)
       (py_or (Task.language task) (PStr "en")))
    elapsed now.

End Jobs.

(** ** The service as a transition system

    The endpoints are coroutines without an [await] between their database
    calls, and the background task suspends only in the engine call, so the
    service moves in the steps below: an endpoint call, the first half of a
    background task that was added, the second half of one that is
    suspended in the engine. *)

Inductive event : Type :=
| Upload (job_id file_path filename : string) (model_size : option string)
    (enable_diarization enable_alignment : bool) (language : option string)
    (now : Z)
| Start (job_id : string) (now : Z)
| Finish (job_id : string) (outcome : engine_outcome) (elapsed : Q) (now : Z)
| Retry (job_id : string) (now : Z)
| Cancel (job_id : string) (now : Z).

(** The first task of a job in a list of tasks, and the list without it. *)
Fixpoint take_task (jid : string) (ts : list Task.t)
  : option (Task.t * list Task.t) :=
  match ts with
  | [] => None
  | t :: ts' =>
      if String.eqb (Task.job_id t) jid then Some (t, ts')
      else
        match take_task jid ts' with
        | Some (t', rest) => Some (t', t :: rest)
        | None => None
        end
  end.

Definition step {V : Pydantic} (s : Service) (ev : event) : Service :=
  match ev with
  | Upload jid path fname msize diar align lang now =>
      snd (Jobs.upload_and_process s jid path fname msize diar align lang now)
  | Start jid now =>
      match take_task jid (scheduled s) with
      | Some (t, rest) =>
          mkService (Jobs.process_audio_job_start (db s) jid now) rest
            (running s ++ [t])
      | None => s
      end
  | Finish jid outcome elapsed now =>
      match take_task jid (running s) with
      | Some (t, rest) =>
          mkService
            (Jobs.process_audio_job_finish (db s) jid (Task.language t)
               outcome elapsed now)
            (scheduled s) rest
      | None => s
      end
  | Retry jid now => snd (Jobs.retry_job s jid now)
  | Cancel jid now => snd (Jobs.cancel_job s jid now)
  end.

Definition run {V : Pydantic} (evs : list event) (s : Service) : Service :=
  fold_left step evs s.

(** The service at start-up. *)
Definition initial : Service := mkService empty_db [] [].

(** Whether a background execution of the job ends in the trace. *)
Definition finishes (jid : string) (ev : event) : bool :=
  match ev with
  | Finish jid' _ _ _ => String.eqb jid' jid
  | _ => false
  end.

(** Whether the event is anything but an engine failure without a
    description (an exception whose [str(e)] is empty). *)
Definition described (ev : event) : bool :=
  match ev with
  | Finish _ (Raised e) _ _ => negb (String.eqb (exc_str e) "")
  | _ => true
  end.

(** The validators at their plainest, for concrete runs: a [str] field
    takes a str, a [bool] field a bool or the 0 and 1 SQLite stores for one,
    a result field a dict. *)
Definition plain_pydantic : Pydantic :=
  {| validate_str := fun v => match v with PStr s => Some s | _ => None end;
     validate_bool := fun v =>
       match v with
       | PBool b => Some b
       | PInt 0 => Some false
       | PInt 1 => Some true
       | _ => None
       end;
     validate_TranscriptionResult := fun v =>
       match v with PDict _ => Some v | _ => None end |}.

Definition decode_error : pyexc := mkExc "RuntimeError" "decode error".

Definition trace_abc : list event :=
  [ Upload "abc" "/tmp/whisperx-uploads/abc.wav" "a.wav" (Some "base") true
      true None 10;
    Start "abc" 11;
    Finish "abc" (Raised decode_error) (3 # 2) 12 ].


(** ** Specification predicates *)

(** The items [for x in result[key]] ranges over when [key in result],
    none when it is not. *)
Definition items_under (key : string) (result : pyval) (items : list pyval)
  : Prop :=
  exists d, result = PDict d /\
    match dict_lookup key d with
    | None => items = []
    | Some v => py_iter v = Ret items
    end.

(** [row] is the row of [speaker_segments] stored for [segment]. *)
Definition speaker_row_for (jid : string) (segment : pyval)
    (row : SpeakerSegmentRow) : Prop :=
  exists d, segment = PDict d /\
    ss_job_id row = jid /\
    bind_param (get_or d "speaker" (PStr "UNKNOWN")) = Ret (ss_speaker row) /\
    bind_param (get_or d "start" (PInt 0)) = Ret (ss_start_time row) /\
    bind_param (get_or d "end" (PInt 0)) = Ret (ss_end_time row) /\
    bind_param (get_or d "text" (PStr "")) = Ret (ss_text row) /\
    is_null (ss_speaker row) = false /\
    is_null (ss_start_time row) = false /\
    is_null (ss_end_time row) = false /\
    is_null (ss_text row) = false.

(** [row] is the row of [word_segments] stored for [word]. *)
Definition word_row_for (jid : string) (word : pyval) (row : WordSegmentRow)
  : Prop :=
  exists d, word = PDict d /\
    ws_job_id row = jid /\
    bind_param (get_or d "word" (PStr "")) = Ret (ws_word row) /\
    bind_param (get_or d "start" (PInt 0)) = Ret (ws_start_time row) /\
    bind_param (get_or d "end" (PInt 0)) = Ret (ws_end_time row) /\
    bind_param (get_or d "speaker" (PStr "UNKNOWN")) = Ret (ws_speaker row) /\
    bind_param (get_or d "confidence" (PFloat (4 # 5)))
      = Ret (ws_confidence row) /\
    is_null (ws_word row) = false /\
    is_null (ws_start_time row) = false /\
    is_null (ws_end_time row) = false.

(** The three effects of [save_job_result] together: [after] is [before]
    with the job row completed and carrying the payload, and with one row
    added for every speaker segment and every word segment of [result]. *)
Definition saved (before : Database) (jid : string) (result : pyval)
    (now : Z) (after : Database) : Prop :=
  exists d ptime dur lang conf segs ss words ws,
    result = PDict d /\
    bind_param (get_or d "processing_time" PNone) = Ret ptime /\
    bind_param (get_or d "duration" PNone) = Ret dur /\
    bind_param (get_or d "language" PNone) = Ret lang /\
    bind_param (get_or d "confidence" PNone) = Ret conf /\
    jobs after
      = update_where jid (set_result ptime dur lang conf result now)
          (jobs before) /\
    items_under "speaker_segments" result segs /\
    speaker_segments after = speaker_segments before ++ ss /\
    Forall2 (speaker_row_for jid) segs ss /\
    items_under "word_segments" result words /\
    word_segments after = word_segments before ++ ws /\
    Forall2 (word_row_for jid) words ws.

(** A transaction body that does not commit: the committed database stays,
    and the log grows by copies of it. *)
Definition holds_back {A} (m : Tx A) : Prop :=
  forall c,
    committed (snd (m c)) = committed c /\
    exists n, observed (snd (m c)) = observed c ++ repeat (committed c) n.

(** A transaction body whose last database call is the commit: until then
    it holds back, and when it raises it has not committed. *)
Definition commits_last {A} (m : Tx A) : Prop :=
  forall c,
    match m c with
    | (Ret _, c') =>
        committed c' = working c' /\
        exists n,
          observed c' = observed c ++ repeat (committed c) n ++ [working c']
    | (Exc _, c') =>
        committed c' = committed c /\
        exists n, observed c' = observed c ++ repeat (committed c) n
    end.

(** The row function [update_job_status] applies: the error message is
    written only when one is given. *)
Definition status_update (st : string) (error_message : option string)
    (now : Z) : JobRow -> JobRow :=
  match DatabaseManager.given error_message with
  | Some msg => set_status_error st msg now
  | None => set_status st now
  end.

(** [r'] is [r] but for the columns [status] and [updated_at]. *)
Definition only_status_touched (r r' : JobRow) : Prop :=
  job_id r' = job_id r /\
  created_at r' = created_at r /\
  filename r' = filename r /\
  model_size r' = model_size r /\
  enable_diarization r' = enable_diarization r /\
  enable_alignment r' = enable_alignment r /\
  language r' = language r /\
  processing_time r' = processing_time r /\
  audio_duration r' = audio_duration r /\
  confidence r' = confidence r /\
  error_message r' = error_message r /\
  result_data r' = result_data r.

(** What a response may show of a job row: full progress and the final
    stage for a completed job, no progress and the first stage for any
    other. *)
Definition progress_rule (job : JobRow) (r : JobResponse.t) : Prop :=
  ((JobResponse.progress r = 1%Q /\
    JobResponse.current_stage r = Some ProcessingStage.COMPLETED) \/
   (JobResponse.progress r = 0%Q /\
    JobResponse.current_stage r = Some ProcessingStage.UPLOAD)) /\
  (status job = "completed" ->
   JobResponse.progress r = 1%Q /\
   JobResponse.current_stage r = Some ProcessingStage.COMPLETED /\
   JobResponse.status r = JobStatus.COMPLETED) /\
  (status job <> "completed" ->
   JobResponse.progress r = 0%Q /\
   JobResponse.current_stage r = Some ProcessingStage.UPLOAD /\
   JobResponse.status r <> JobStatus.COMPLETED).

(** A pending job, the [n]-th to be created. *)
Definition job_number (n : nat) : JobRow :=
  mkJobRow (SText ("job-" ++ string_of_nat n)) "pending" (Z.of_nat n)
    (Z.of_nat n) (SText "a.wav") (SText "base") (SInt 1) (SInt 1) SNull
    SNull SNull SNull None None.

(** A database of [n] pending jobs. *)
Definition many_jobs (n : nat) : Database :=
  mkDatabase (map job_number (seq 0 n)) [] [].

(** The segments of an engine result and the words of a segment, as the
    background task iterates over them. *)
Definition iterated (o : pyval) (key : string) : list pyval :=
  match py_get o key (PList []) with
  | Ret v =>
      match py_iter v with
      | Ret items => items
      | Exc _ => []
      end
  | Exc _ => []
  end.

Definition engine_segments (result : pyval) : list pyval :=
  iterated result "segments".

Definition engine_words (segment : pyval) : list pyval :=
  iterated segment "words".

(** The speaker label an entry of the engine's output carries, if it has
    the key at all. *)
Definition speaker_of (entry : pyval) : option pyval :=
  match entry with
  | PDict d => dict_lookup "speaker" d
  | _ => None
  end.

(** How the speaker of an entry is stored: the sentinel when the entry has
    no speaker key, a value when it has one that is not [None], and NULL
    when the key is there with [None]. *)
Definition speaker_stored (entry : pyval) (stored : sqlval) : Prop :=
  (speaker_of entry = None -> stored = SText "UNKNOWN") /\
  (forall v, speaker_of entry = Some v -> v <> PNone -> stored <> SNull) /\
  (speaker_of entry = Some PNone -> stored = SNull).

(** An engine result with one labelled segment whose two words are one
    without a speaker key and one with the key set to [None]. *)
Definition result_with_null_speaker : pyval :=
  PDict [ ("segments",
           PList [ PDict [ ("start", PFloat 0); ("end", PFloat 1);
                           ("text", PStr "hi there");
                           ("speaker", PStr "SPEAKER_00");
                           ("words",
                            PList [ PDict [ ("word", PStr "hi");
                                            ("start", PFloat 0);
                                            ("end", PFloat (1 # 2)) ];
                                    PDict [ ("word", PStr "there");
                                            ("start", PFloat (1 # 2));
                                            ("end", PFloat 1);
                                            ("speaker", PNone) ] ]) ] ]);
          ("language", PStr "en") ].

(** A database with the one job "abc", being processed. *)
Definition processing_abc : Database :=
  mkDatabase
    [ mkJobRow (SText "abc") "processing" 10 11 (SText "a.wav")
        (SText "base") (SInt 1) (SInt 1) SNull SNull SNull SNull None None ]
    [] [].

(** The invariant of the job model as the specification words it: a
    completed job has a result and no error message, a failed job has an
    error message, a pending or processing job has neither. *)
Definition steady_state (r : JobRow) : Prop :=
  (status r = "completed" ->
   result_data r <> None /\ error_message r = None) /\
  (status r = "failed" -> error_message r <> None) /\
  (status r = "pending" \/ status r = "processing" ->
   result_data r = None /\ error_message r = None).

(** The row [upload_and_process] creates. *)
Definition created_row (jid fname msize diar align lang : sqlval) (now : Z)
  : JobRow :=
  mkJobRow jid "pending" now now fname msize diar align lang SNull SNull
    SNull None None.

(** What one step of the service can do to a job row. *)
Inductive row_step : event -> JobRow -> JobRow -> Prop :=
| row_kept ev r :
    row_step ev r r
| row_started jid now r :
    job_id_is jid r = true ->
    row_step (Start jid now) r (set_status "processing" now r)
| row_retried jid now r :
    job_id_is jid r = true ->
    row_step (Retry jid now) r (set_status "pending" now r)
| row_cancelled jid now r :
    job_id_is jid r = true ->
    row_step (Cancel jid now) r (set_status "cancelled" now r)
| row_saved jid result elapsed now r result_dict ptime dur lang conf :
    job_id_is jid r = true ->
    Jobs.convert_result result elapsed = Ret result_dict ->
    row_step (Finish jid (Returned result) elapsed now) r
      (set_result ptime dur lang conf result_dict now r)
| row_conversion_failed jid result elapsed now r e :
    job_id_is jid r = true ->
    Jobs.convert_result result elapsed = Exc e ->
    row_step (Finish jid (Returned result) elapsed now) r
      (status_update "failed" (Some (exc_str e)) now r)
| row_engine_failed jid e elapsed now r ptime dur lang conf language :
    job_id_is jid r = true ->
    row_step (Finish jid (Raised e) elapsed now) r
      (status_update "failed" (Some (exc_str e)) now
         (set_result ptime dur lang conf
            (Jobs.partial_result language elapsed e) now r))
| row_engine_failed_unsaved jid e elapsed now r :
    job_id_is jid r = true ->
    row_step (Finish jid (Raised e) elapsed now) r
      (status_update "failed" (Some (exc_str e)) now r).

(** Code whose exceptions all have a description. *)
Definition raises_described {A} (m : py A) : Prop :=
  forall e, m = Exc e -> exc_str e <> "".

(** Job "abc" after its upload and a background execution in which the
    engine raised "decode error". *)
Definition failed_abc : JobRow :=
  mkJobRow (SText "abc") "failed" 10 12 (SText "a.wav") (SText "base")
    (SInt 1) (SInt 1) (SText "en") (SReal (3 # 2)) (SReal 0) (SReal 0)
    (Some "decode error")
    (Some (Jobs.partial_result PNone (3 # 2) decode_error)).

(** An exception without a description, such as a bare [assert] raises:
    [str(AssertionError())] is the empty string. *)
Definition silent_error : pyexc := mkExc "AssertionError" "".

(** Job "abc" fails with "decode error", is retried, and fails again, this
    time with an exception that has no description. *)
Definition trace_second_failure : list event :=
  trace_abc ++
  [ Retry "abc" 13;
    Start "abc" 14;
    Finish "abc" (Raised silent_error) (1 # 2) 15 ].

(** A result whose second speaker segment has [None] as its text, which
    the NOT NULL column refuses. *)
Definition result_with_null_text : pyval :=
  PDict [ ("text", PStr "hi"); ("language", PStr "en");
          ("duration", PFloat 2);
          ("word_segments", PList []);
          ("speaker_segments",
           PList [ PDict [ ("start", PFloat 0); ("end", PFloat 1);
                           ("text", PStr "hi"); ("speaker", PStr "A") ];
                   PDict [ ("start", PFloat 1); ("end", PFloat 2);
                           ("text", PNone); ("speaker", PStr "B") ] ]);
          ("confidence", PFloat (4 # 5));
          ("processing_time", PFloat (3 # 2)) ].

(** Job "abc", cancelled. *)
Definition cancelled_job : JobRow :=
  mkJobRow (SText "abc") "cancelled" 10 14 (SText "a.wav") (SText "base")
    (SInt 1) (SInt 1) SNull SNull SNull SNull None None.

(** Job "abc" fails with "decode error", is retried, and the second
    execution succeeds. *)
Definition trace_second_success : list event :=
  trace_abc ++
  [ Retry "abc" 13;
    Start "abc" 14;
    Finish "abc" (Returned result_with_null_speaker) (1 # 2) 15 ].

(** An engine result whose only segment has [None] as its speaker. *)
Definition result_with_null_segment_speaker : pyval :=
  PDict [ ("segments",
           PList [ PDict [ ("start", PFloat 0); ("end", PFloat 1);
                           ("text", PStr "hi"); ("speaker", PNone) ] ]);
          ("language", PStr "en") ].

(** [a] comes before [b] under [ORDER BY created_at DESC]. *)
Definition newer_or_same (a b : JobRow) : Prop := created_at b <= created_at a.

(** [r'] is [r] but for the columns [status], [updated_at] and
    [error_message]. *)
Definition kept_by_status_update (r r' : JobRow) : Prop :=
  job_id r' = job_id r /\
  created_at r' = created_at r /\
  filename r' = filename r /\
  model_size r' = model_size r /\
  enable_diarization r' = enable_diarization r /\
  enable_alignment r' = enable_alignment r /\
  language r' = language r /\
  processing_time r' = processing_time r /\
  audio_duration r' = audio_duration r /\
  confidence r' = confidence r /\
  result_data r' = result_data r.

(** The columns [save_job_result] does not write. *)
Definition kept_by_save (r r' : JobRow) : Prop :=
  job_id r' = job_id r /\
  created_at r' = created_at r /\
  filename r' = filename r /\
  model_size r' = model_size r /\
  enable_diarization r' = enable_diarization r /\
  enable_alignment r' = enable_alignment r /\
  error_message r' = error_message r.

(** Whether an item is no dict, or a dict that has [None] under one of the
    keys. *)
Definition holds_none (keys : list string) (item : pyval) : bool :=
  match item with
  | PDict d =>
      existsb (fun k => match dict_lookup k d with
                        | Some PNone => true
                        | _ => false
                        end) keys
  | _ => true
  end.

(** *** [get_job_stats]

    SQLite's [AVG] aggregate works in floating point and is a parameter,
    as is the length of a day in the unit of the instants. *)

(** One more row for a status in the counts of [GROUP BY status]. *)
Fixpoint bump (s : string) (counts : list (string * Z)) : list (string * Z) :=
  match counts with
  | [] => [(s, 1)]
  | (s', n) :: rest =>
      if String.eqb s s' then (s', n + 1) :: rest
      else (s', n) :: bump s rest
  end.

(** [SELECT status, COUNT( * ) FROM jobs GROUP BY status]; SQL leaves the
    order of the groups open. *)
Fixpoint group_by_status (rows : list JobRow) : list (string * Z) :=
  match rows with
  | [] => []
  | r :: rest => bump (status r) (group_by_status rest)
  end.

Definition get_job_stats_tx (sqlite_avg : list sqlval -> sqlval)
    (one_day : Z) (now : Z) : Tx pyval :=
  (total_jobs <- query (fun db => Z.of_nat (List.length (jobs db))) ;;
   jobs_by_status <- query (fun db => group_by_status (jobs db)) ;;
   avg <- query (fun db =>
                   sqlite_avg
                     (map processing_time
                        (filter (fun r => String.eqb (status r) "completed"
                                          && negb (is_null (processing_time r)))
                           (jobs db)))) ;;
   recent_jobs <- query (fun db =>
                           Z.of_nat
                             (List.length
                                (filter (fun r => now - one_day <=? created_at r)
                                   (jobs db)))) ;;
   tx_ret (PDict [ ("total_jobs", PInt total_jobs);
                   ("jobs_by_status",
                    PDict (map (fun sn => (fst sn, PInt (snd sn)))
                             jobs_by_status));
                   ("avg_processing_time", py_or (to_python avg) (PFloat 0));
                   ("recent_jobs_24h", PInt recent_jobs) ]))%tx.

(** [get_job_stats()]; the handler of the exception gives the statistics of
    an empty table. *)
Definition get_job_stats (sqlite_avg : list sqlval -> sqlval) (one_day : Z)
    (d : Database) (now : Z) : pyval :=
  fst (except_return
         (PDict [ ("total_jobs", PInt 0);
                  ("jobs_by_status", PDict []);
                  ("avg_processing_time", PFloat 0);
                  ("recent_jobs_24h", PInt 0) ])
         (with_connection (get_job_stats_tx sqlite_avg one_day now) d)).

(** The number of jobs with a status. *)
Definition count_status (s : string) (rows : list JobRow) : Z :=
  Z.of_nat (List.length (filter (fun r => String.eqb (status r) s) rows)).

Definition sum_counts (counts : list (string * pyval)) : Z :=
  fold_right (fun sn acc => match snd sn with PInt n => n + acc | _ => acc end)
    0 counts.

(** The count of a status in the counts of [GROUP BY status]. *)
Fixpoint count_in (s : string) (counts : list (string * Z)) : option Z :=
  match counts with
  | [] => None
  | (s', n) :: rest => if String.eqb s s' then Some n else count_in s rest
  end.

(** The column a text option is stored in. *)
Definition opt_text (o : option string) : sqlval :=
  match o with
  | Some s => SText s
  | None => SNull
  end.

(** The row [upload_and_process] inserts. *)
Definition uploaded_row (jid fname : string) (msize : option string)
    (diar align : bool) (now : Z) : JobRow :=
  created_row (SText jid) (SText fname) (opt_text msize)
    (SInt (if diar then 1 else 0)) (SInt (if align then 1 else 0)) SNull now.

(** A result with one speaker segment and one word segment, all of whose
    values can be stored. *)
Definition result_hi : pyval :=
  PDict [ ("text", PStr "hi"); ("language", PStr "en");
          ("duration", PFloat 1);
          ("word_segments",
           PList [ PDict [ ("start", PFloat 0); ("end", PFloat 1);
                           ("word", PStr "hi"); ("speaker", PStr "A");
                           ("confidence", PFloat (4 # 5)) ] ]);
          ("speaker_segments",
           PList [ PDict [ ("start", PFloat 0); ("end", PFloat 1);
                           ("text", PStr "hi"); ("speaker", PStr "A") ] ]);
          ("confidence", PFloat (4 # 5));
          ("processing_time", PFloat (3 # 2)) ].

(** What no operation does to a job row: change its id or its creation
    time, or take away an error message or a result it has. *)
Definition never_cleared (r r' : JobRow) : Prop :=
  job_id r' = job_id r /\
  created_at r' = created_at r /\
  (error_message r <> None -> error_message r' <> None) /\
  (result_data r <> None -> result_data r' <> None).

(** A table with two jobs: "done", completed with a result, and the newer
    "new", pending. *)
Definition pending_and_completed : Database :=
  mkDatabase
    [ mkJobRow (SText "done") "completed" 1 5 (SText "a.wav") (SText "base")
        (SInt 1) (SInt 1) (SText "en") (SReal (3 # 2)) (SReal 1)
        (SReal (4 # 5)) None (Some result_hi);
      mkJobRow (SText "new") "pending" 7 7 (SText "b.wav") (SText "base")
        (SInt 1) (SInt 1) SNull SNull SNull SNull None None ]
    [] [].

(** The upload of job "abc". *)
Definition upload_abc : event :=
  Upload "abc" "/tmp/whisperx-uploads/abc.wav" "a.wav" (Some "base") true
    true None 10.

(** *** What [save_job_result] can store *)

(** Whether [sqlite3] can bind a value, and whether it binds it to
    something other than NULL. *)
Definition binds (v : pyval) : bool :=
  match bind_param v with
  | Ret _ => true
  | Exc _ => false
  end.

Definition binds_value (v : pyval) : bool :=
  match bind_param v with
  | Ret col => negb (is_null col)
  | Exc _ => false
  end.

(** An item of [result["speaker_segments"]] whose four columns can be
    stored. *)
Definition storable_segment (segment : pyval) : bool :=
  match segment with
  | PDict d =>
      binds_value (get_or d "speaker" (PStr "UNKNOWN"))
      && binds_value (get_or d "start" (PInt 0))
      && binds_value (get_or d "end" (PInt 0))
      && binds_value (get_or d "text" (PStr ""))
  | _ => false
  end.

(** An item of [result["word_segments"]] whose five columns can be
    stored. *)
Definition storable_word (word : pyval) : bool :=
  match word with
  | PDict d =>
      binds_value (get_or d "word" (PStr ""))
      && binds_value (get_or d "start" (PInt 0))
      && binds_value (get_or d "end" (PInt 0))
      && binds (get_or d "speaker" (PStr "UNKNOWN"))
      && binds (get_or d "confidence" (PFloat (4 # 5)))
  | _ => false
  end.

(** The items under a key, when the key is there, can be iterated over and
    are all as [check] wants them. *)
Definition storable_items (key : string) (check : pyval -> bool)
    (d : list (string * pyval)) : bool :=
  match dict_lookup key d with
  | None => true
  | Some v =>
      match py_iter v with
      | Ret items => forallb check items
      | Exc _ => false
      end
  end.

Definition storable_result (result : pyval) : bool :=
  match result with
  | PDict d =>
      binds (get_or d "processing_time" PNone)
      && binds (get_or d "duration" PNone)
      && binds (get_or d "language" PNone)
      && binds (get_or d "confidence" PNone)
      && storable_items "speaker_segments" storable_segment d
      && storable_items "word_segments" storable_word d
  | _ => false
  end.

(** *** Engine results the background task can convert and store *)

Definition is_str (v : pyval) : bool :=
  match v with
  | PStr _ => true
  | _ => false
  end.

Definition is_number (v : pyval) : bool :=
  match as_number v with
  | Some _ => true
  | None => false
  end.

(** An entry of [segment["words"]]: a dict whose word, start and end can be
    stored in their NOT NULL columns, and whose speaker can be bound. *)
Definition well_formed_word (word : pyval) : bool :=
  match word with
  | PDict d =>
      binds_value (get_or d "word" (PStr ""))
      && binds_value (get_or d "start" (PInt 0))
      && binds_value (get_or d "end" (PInt 0))
      && binds (get_or d "speaker" (PStr "UNKNOWN"))
  | _ => false
  end.

(** An entry of [result["segments"]]: a dict whose text is a str, whose end
    is a number, whose start and speaker can be stored, and whose words are
    a list of well-formed entries. *)
Definition well_formed_segment (segment : pyval) : bool :=
  match segment with
  | PDict d =>
      is_str (get_or d "text" (PStr ""))
      && is_number (get_or d "end" (PInt 0))
      && binds_value (get_or d "end" (PInt 0))
      && binds_value (get_or d "start" (PInt 0))
      && binds_value (get_or d "speaker" (PStr "UNKNOWN"))
      && match get_or d "words" (PList []) with
         | PList words => forallb well_formed_word words
         | _ => false
         end
  | _ => false
  end.

Definition well_formed_result (result : pyval) : bool :=
  match result with
  | PDict d =>
      binds (get_or d "language" (PStr "en"))
      && match get_or d "segments" (PList []) with
         | PList segments => forallb well_formed_segment segments
         | _ => false
         end
  | _ => false
  end.

(** ** The engine service ([app/services/whisperx_service.py]) *)

Module WhisperXService.

(** [_get_mock_result(audio_path, language)] *)
Definition _get_mock_result (audio_path : string) (language : pyval)
  : pyval :=
  PDict
    [ ("segments",
       PList
         [ PDict
             [ ("start", PFloat 0);
               ("end", PFloat 5);
               ("text", PStr "This is a mock transcription result.");
               ("speaker", PStr "SPEAKER_00");
               ("words",
                PList
                  [ PDict [ ("start", PFloat 0); ("end", PFloat 1);
                            ("word", PStr "This");
                            ("speaker", PStr "SPEAKER_00") ];
                    PDict [ ("start", PFloat 1); ("end", PFloat 2);
                            ("word", PStr "is");
                            ("speaker", PStr "SPEAKER_00") ];
                    PDict [ ("start", PFloat 2); ("end", PFloat 3);
                            ("word", PStr "a");
                            ("speaker", PStr "SPEAKER_00") ];
                    PDict [ ("start", PFloat 3); ("end", PFloat 5);
                            ("word", PStr "mock transcription.");
                            ("speaker", PStr "SPEAKER_00") ] ]) ] ]);
      ("language", language);
      ("audio_path", PStr audio_path) ].

(** [transcribe_audio(audio_path, language)].  [WHISPERX_AVAILABLE] is
    whether the import of whisperx succeeded; [with_whisperx] stands for
    the rest of the method, which runs the models. *)
Definition transcribe_audio (WHISPERX_AVAILABLE : bool)
    (with_whisperx : string -> pyval -> engine_outcome)
    (audio_path : string) (language : pyval) : engine_outcome :=
  if negb WHISPERX_AVAILABLE then
    Returned (_get_mock_result audio_path language)
  else with_whisperx audio_path language.

End WhisperXService.

(** [language or "en"] for the language of an upload. *)
Definition language_or_en (language : option string) : string :=
  match language with
  | Some s => if String.eqb s "" then "en" else s
  | None => "en"
  end.

(** The columns of a segment row other than its id. *)
Definition speaker_columns (r : SpeakerSegmentRow)
  : string * sqlval * sqlval * sqlval * sqlval :=
  (ss_job_id r, ss_speaker r, ss_start_time r, ss_end_time r, ss_text r).

Definition word_columns (r : WordSegmentRow)
  : string * sqlval * sqlval * sqlval * sqlval * sqlval :=
  (ws_job_id r, ws_word r, ws_start_time r, ws_end_time r, ws_speaker r,
   ws_confidence r).

(** What the background task makes of the mock result. *)
Definition converted_mock_result (language : pyval) (elapsed : Q) : pyval :=
  PDict
    [ ("text", PStr "This is a mock transcription result.");
      ("language", language);
      ("duration", PFloat 5);
      ("word_segments",
       PList
         [ PDict [ ("start", PFloat 0); ("end", PFloat 1);
                   ("word", PStr "This"); ("speaker", PStr "SPEAKER_00");
                   ("confidence", PFloat (4 # 5)) ];
           PDict [ ("start", PFloat 1); ("end", PFloat 2);
                   ("word", PStr "is"); ("speaker", PStr "SPEAKER_00");
                   ("confidence", PFloat (4 # 5)) ];
           PDict [ ("start", PFloat 2); ("end", PFloat 3);
                   ("word", PStr "a"); ("speaker", PStr "SPEAKER_00");
                   ("confidence", PFloat (4 # 5)) ];
           PDict [ ("start", PFloat 3); ("end", PFloat 5);
                   ("word", PStr "mock transcription.");
                   ("speaker", PStr "SPEAKER_00");
                   ("confidence", PFloat (4 # 5)) ] ]);
      ("speaker_segments",
       PList
         [ PDict [ ("start", PFloat 0); ("end", PFloat 5);
                   ("text", PStr "This is a mock transcription result.");
                   ("speaker", PStr "SPEAKER_00") ] ]);
      ("confidence", PFloat (4 # 5));
      ("processing_time", PFloat elapsed) ].

(** The job an event is about. *)
Definition event_job (ev : event) : string :=
  match ev with
  | Upload jid _ _ _ _ _ _ _ => jid
  | Start jid _ => jid
  | Finish jid _ _ _ => jid
  | Retry jid _ => jid
  | Cancel jid _ => jid
  end.

(** What [create_job] is given for a job "abc" without options. *)
Definition job_data_abc : pyval :=
  PDict [ ("job_id", PStr "abc"); ("filename", PStr "a.wav") ].

(** The row of job "abc" while it is processed, and its background task. *)
Definition processing_abc_row : JobRow :=
  mkJobRow (SText "abc") "processing" 10 11 (SText "a.wav") (SText "base")
    (SInt 1) (SInt 1) SNull SNull SNull SNull None None.

Definition task_abc : Task.t :=
  Task.mk "abc" "/tmp/whisperx-uploads/abc.wav" (PStr "base") (PBool true)
    (PBool true) PNone.

(** * Properties *)

(** ** Transactions *)

Lemma tx_bind_ret {A B} (m : Tx A) (k : A -> Tx B) c b c' :
  tx_bind m k c = (Ret b, c') ->
  exists a c1, m c = (Ret a, c1) /\ k a c1 = (Ret b, c').
Proof.
  unfold tx_bind. destruct (m c) as [[a|e] c1]; intro H.
  - exists a, c1. split; [reflexivity | exact H].
  - discriminate H.
Qed.

Lemma tx_lift_ret {A} (m : py A) c a c' :
  tx_lift m c = (Ret a, c') -> m = Ret a /\ c' = c.
Proof. unfold tx_lift. intro H. inversion H. split; reflexivity. Qed.

Lemma tx_ret_ret {A} (a b : A) c c' :
  tx_ret a c = (Ret b, c') -> b = a /\ c' = c.
Proof. unfold tx_ret. intro H. inversion H. split; reflexivity. Qed.

Lemma execute_ret stmt c u c' :
  execute stmt c = (Ret u, c') ->
  stmt (working c) = Ret (working c') /\ committed c' = committed c.
Proof.
  unfold execute. destruct (stmt (working c)) as [d|e]; intro H.
  - inversion H. split; reflexivity.
  - discriminate H.
Qed.

Lemma py_get_ret o k dflt v :
  py_get o k dflt = Ret v -> exists d, o = PDict d /\ v = get_or d k dflt.
Proof.
  destruct o; simpl; intro H; try discriminate H.
  inversion H. eexists. split; reflexivity.
Qed.

Lemma py_bind_ret {A B} (m : py A) (k : A -> py B) b :
  py_bind m k = Ret b -> exists a, m = Ret a /\ k a = Ret b.
Proof.
  destruct m as [a|e]; simpl; intro H.
  - exists a. split; [reflexivity | exact H].
  - discriminate H.
Qed.

(** Take a successful run of a transaction body apart, call by call. *)
Ltac tx_inv :=
  repeat match goal with
    | H : tx_bind _ _ _ = (Ret _, _) |- _ =>
        let a := fresh "a" in
        let c := fresh "c" in
        let H1 := fresh "H" in
        let H2 := fresh "H" in
        apply tx_bind_ret in H; destruct H as (a & c & H1 & H2)
    | H : tx_lift _ _ = (Ret _, _) |- _ =>
        let H1 := fresh "H" in
        let H2 := fresh "H" in
        apply tx_lift_ret in H; destruct H as [H1 H2]; subst
    | H : DatabaseManager.bind _ _ = (Ret _, _) |- _ =>
        let H1 := fresh "H" in
        let H2 := fresh "H" in
        apply tx_lift_ret in H; destruct H as [H1 H2]; subst
    | H : tx_ret _ _ = (Ret _, _) |- _ =>
        let H1 := fresh "H" in
        let H2 := fresh "H" in
        apply tx_ret_ret in H; destruct H as [H1 H2]; subst
    | H : execute _ _ = (Ret _, _) |- _ =>
        let H1 := fresh "H" in
        let H2 := fresh "H" in
        apply execute_ret in H; destruct H as [H1 H2]
    | H : py_get _ _ _ = Ret _ |- _ =>
        let d := fresh "d" in
        let H1 := fresh "H" in
        let H2 := fresh "H" in
        apply py_get_ret in H; destruct H as (d & H1 & H2); subst
    | H : PDict _ = PDict _ |- _ => inversion H; clear H; subst
    end.

Create HintDb tx.

Lemma holds_back_ret {A} (a : A) : holds_back (tx_ret a).
Proof.
  intro c. simpl. split; [reflexivity|]. exists 0%nat. simpl.
  symmetry. apply app_nil_r.
Qed.

Lemma holds_back_lift {A} (m : py A) : holds_back (tx_lift m).
Proof.
  intro c. simpl. split; [reflexivity|]. exists 0%nat. simpl.
  symmetry. apply app_nil_r.
Qed.

Lemma holds_back_execute stmt : holds_back (execute stmt).
Proof.
  intro c. unfold execute. destruct (stmt (working c)); simpl;
    (split; [reflexivity | exists 1%nat; reflexivity]).
Qed.

Lemma holds_back_query {A} (q : Database -> A) : holds_back (query q).
Proof.
  intro c. simpl. split; [reflexivity | exists 1%nat; reflexivity].
Qed.

Lemma holds_back_bind {A B} (m : Tx A) (k : A -> Tx B) :
  holds_back m -> (forall a, holds_back (k a)) -> holds_back (tx_bind m k).
Proof.
  intros Hm Hk c. unfold tx_bind.
  destruct (Hm c) as [Hc [n Hn]].
  destruct (m c) as [[a|e] c1]; simpl in *.
  - destruct (Hk a c1) as [Hc' [n' Hn']].
    split; [congruence|]. exists (n + n')%nat.
    rewrite Hn', Hn, Hc, repeat_app, app_assoc. reflexivity.
  - split; [exact Hc | exists n; exact Hn].
Qed.

Lemma holds_back_for {A} (xs : list A) (body : A -> Tx unit) :
  (forall x, holds_back (body x)) -> holds_back (tx_for xs body).
Proof.
  intro Hb. induction xs as [|x xs IH]; simpl.
  - apply holds_back_ret.
  - apply holds_back_bind; [apply Hb | intros _; exact IH].
Qed.

Lemma holds_back_if {A} (b : bool) (m1 m2 : Tx A) :
  holds_back m1 -> holds_back m2 -> holds_back (if b then m1 else m2).
Proof. destruct b; auto. Qed.

#[export] Hint Resolve holds_back_ret holds_back_lift holds_back_execute
  holds_back_query holds_back_bind holds_back_for holds_back_if : tx.

Lemma holds_back_save_speaker_segment jid segment :
  holds_back (DatabaseManager.save_speaker_segment jid segment).
Proof.
  unfold DatabaseManager.save_speaker_segment, DatabaseManager.bind.
  repeat (apply holds_back_bind; [solve [auto with tx] | intro]).
  auto with tx.
Qed.

Lemma holds_back_save_word_segment jid word :
  holds_back (DatabaseManager.save_word_segment jid word).
Proof.
  unfold DatabaseManager.save_word_segment, DatabaseManager.bind.
  repeat (apply holds_back_bind; [solve [auto with tx] | intro]).
  auto with tx.
Qed.

Lemma holds_back_save_each key result save :
  (forall x, holds_back (save x)) ->
  holds_back (DatabaseManager.save_each key result save).
Proof.
  intro Hs. unfold DatabaseManager.save_each.
  apply holds_back_bind; [auto with tx | intros []]; [|auto with tx].
  repeat (apply holds_back_bind; [solve [auto with tx] | intro]).
  auto with tx.
Qed.

#[export] Hint Resolve holds_back_save_speaker_segment
  holds_back_save_word_segment holds_back_save_each : tx.

Lemma commits_last_commit {A} (a : A) :
  commits_last (tx_bind commit (fun _ => tx_ret a)).
Proof.
  intro c. simpl. split; [reflexivity|]. exists 0%nat. reflexivity.
Qed.

Lemma commits_last_bind {A B} (m : Tx A) (k : A -> Tx B) :
  holds_back m -> (forall a, commits_last (k a)) ->
  commits_last (tx_bind m k).
Proof.
  intros Hm Hk c. unfold tx_bind.
  destruct (Hm c) as [Hc [n Hn]].
  destruct (m c) as [[a|e] c1]; simpl in *.
  - specialize (Hk a c1). destruct (k a c1) as [[b|e] c2].
    + destruct Hk as [Hw [n' Hn']]. split; [exact Hw|].
      exists (n + n')%nat.
      rewrite Hn', Hn, Hc, repeat_app, <- !app_assoc. reflexivity.
    + destruct Hk as [Hw [n' Hn']]. split; [congruence|].
      exists (n + n')%nat.
      rewrite Hn', Hn, Hc, repeat_app, app_assoc. reflexivity.
  - split; [exact Hc | exists n; exact Hn].
Qed.

Lemma commits_last_save_job_result_tx jid result now :
  commits_last (DatabaseManager.save_job_result_tx jid result now).
Proof.
  unfold DatabaseManager.save_job_result_tx, DatabaseManager.bind.
  repeat (apply commits_last_bind; [solve [auto with tx] | intro]).
  apply commits_last_commit.
Qed.

Lemma sql_insert_speaker_segment_ret jid sp st en tx d d' :
  sql_insert_speaker_segment jid sp st en tx d = Ret d' ->
  is_null sp = false /\ is_null st = false /\ is_null en = false /\
  is_null tx = false /\
  d' = mkDatabase (jobs d)
         (speaker_segments d ++
            [mkSpeakerSegmentRow (next_id (speaker_segments d)) jid sp st en
               tx])
         (word_segments d).
Proof.
  unfold sql_insert_speaker_segment.
  destruct (is_null sp); [discriminate|].
  destruct (is_null st); [discriminate|].
  destruct (is_null en); [discriminate|].
  destruct (is_null tx); [discriminate|].
  intro H. inversion H. repeat split.
Qed.

Lemma sql_insert_word_segment_ret jid w st en sp cf d d' :
  sql_insert_word_segment jid w st en sp cf d = Ret d' ->
  is_null w = false /\ is_null st = false /\ is_null en = false /\
  d' = mkDatabase (jobs d) (speaker_segments d)
         (word_segments d ++
            [mkWordSegmentRow (next_id (word_segments d)) jid w st en sp cf]).
Proof.
  unfold sql_insert_word_segment.
  destruct (is_null w); [discriminate|].
  destruct (is_null st); [discriminate|].
  destruct (is_null en); [discriminate|].
  intro H. inversion H. repeat split.
Qed.

Lemma save_speaker_segments_ret jid items : forall c u c',
  tx_for items (DatabaseManager.save_speaker_segment jid) c = (Ret u, c') ->
  exists ss,
    jobs (working c') = jobs (working c) /\
    speaker_segments (working c') = speaker_segments (working c) ++ ss /\
    word_segments (working c') = word_segments (working c) /\
    Forall2 (speaker_row_for jid) items ss.
Proof.
  induction items as [|x items IH]; intros c u c' H; simpl in H.
  - apply tx_ret_ret in H. destruct H as [_ ->]. exists [].
    rewrite app_nil_r. repeat split. constructor.
  - apply tx_bind_ret in H. destruct H as (u1 & c1 & Hx & Hrest).
    apply IH in Hrest. destruct Hrest as (ss & Hj & Hs & Hw & Hrows).
    unfold DatabaseManager.save_speaker_segment in Hx. tx_inv.
    match goal with
    | Hi : sql_insert_speaker_segment _ _ _ _ _ _ = Ret _ |- _ =>
        apply sql_insert_speaker_segment_ret in Hi;
        destruct Hi as (N1 & N2 & N3 & N4 & Hc1)
    end.
    rewrite Hc1 in Hj, Hs, Hw. simpl in Hj, Hs, Hw.
    eexists (_ :: ss). repeat split.
    + exact Hj.
    + rewrite Hs, <- app_assoc. reflexivity.
    + exact Hw.
    + constructor; [|exact Hrows].
      eexists. split; [reflexivity|]. simpl. repeat split; assumption.
Qed.

Lemma save_word_segments_ret jid items : forall c u c',
  tx_for items (DatabaseManager.save_word_segment jid) c = (Ret u, c') ->
  exists ws,
    jobs (working c') = jobs (working c) /\
    speaker_segments (working c') = speaker_segments (working c) /\
    word_segments (working c') = word_segments (working c) ++ ws /\
    Forall2 (word_row_for jid) items ws.
Proof.
  induction items as [|x items IH]; intros c u c' H; simpl in H.
  - apply tx_ret_ret in H. destruct H as [_ ->]. exists [].
    rewrite app_nil_r. repeat split. constructor.
  - apply tx_bind_ret in H. destruct H as (u1 & c1 & Hx & Hrest).
    apply IH in Hrest. destruct Hrest as (ws & Hj & Hs & Hw & Hrows).
    unfold DatabaseManager.save_word_segment in Hx. tx_inv.
    match goal with
    | Hi : sql_insert_word_segment _ _ _ _ _ _ _ = Ret _ |- _ =>
        apply sql_insert_word_segment_ret in Hi;
        destruct Hi as (N1 & N2 & N3 & Hc1)
    end.
    rewrite Hc1 in Hj, Hs, Hw. simpl in Hj, Hs, Hw.
    eexists (_ :: ws). repeat split.
    + exact Hj.
    + exact Hs.
    + rewrite Hw, <- app_assoc. reflexivity.
    + constructor; [|exact Hrows].
      eexists. split; [reflexivity|]. simpl. repeat split; assumption.
Qed.

Lemma save_each_ret key result save c u c' :
  DatabaseManager.save_each key result save c = (Ret u, c') ->
  exists items,
    items_under key result items /\ tx_for items save c = (Ret u, c').
Proof.
  unfold DatabaseManager.save_each. intro H. tx_inv.
  destruct result; simpl in *; try discriminate.
  match goal with
  | Hp : Ret _ = Ret ?a |- _ => inversion Hp; clear Hp; subst a
  end.
  unfold items_under.
  destruct (dict_lookup key d) as [v|] eqn:L.
  - tx_inv. match goal with
            | Hv : Ret v = Ret ?a |- _ => inversion Hv; clear Hv; subst a
            end.
    eexists. split; [|eassumption].
    eexists. split; [reflexivity|]. rewrite L. assumption.
  - exists []. split.
    + eexists. split; [reflexivity|]. rewrite L. reflexivity.
    + assumption.
Qed.

Lemma save_job_result_tx_ret jid result now c b c' :
  DatabaseManager.save_job_result_tx jid result now c = (Ret b, c') ->
  b = true /\ saved (working c) jid result now (working c').
Proof.
  unfold DatabaseManager.save_job_result_tx. intro H. tx_inv.
  split; [reflexivity|].
  repeat match goal with
    | Hs : DatabaseManager.save_each _ _ _ _ = (Ret _, _) |- _ =>
        apply save_each_ret in Hs; destruct Hs as (? & ? & ?)
    end.
  repeat match goal with
    | Hs : tx_for _ (DatabaseManager.save_speaker_segment _) _ = _ |- _ =>
        apply save_speaker_segments_ret in Hs;
        destruct Hs as (ss & Hj1 & Hs1 & Hw1 & Hr1)
    | Hs : tx_for _ (DatabaseManager.save_word_segment _) _ = _ |- _ =>
        apply save_word_segments_ret in Hs;
        destruct Hs as (ws & Hj2 & Hs2 & Hw2 & Hr2)
    | Hc : commit _ = (Ret _, _) |- _ =>
        unfold commit in Hc; inversion Hc; clear Hc; subst
    | Hd : DatabaseManager.json_dumps _ = Ret _ |- _ =>
        unfold DatabaseManager.json_dumps in Hd; inversion Hd; clear Hd; subst
    | Hu : sql_update_result _ _ _ _ _ _ _ _ = Ret _ |- _ =>
        unfold sql_update_result in Hu; inversion Hu as [Hu']; clear Hu
    end.
  simpl. rewrite <- Hu' in Hj1, Hs1, Hw1. simpl in Hj1, Hs1, Hw1.
  unfold saved.
  match goal with
  | Hs : items_under "speaker_segments" _ ?segs,
    Hw : items_under "word_segments" _ ?words |- _ =>
      do 5 eexists; exists segs, ss, words, ws
  end.
  repeat split; try eassumption.
  - congruence.
  - congruence.
  - congruence.
Qed.

Lemma Forall_repeat {A} (P : A -> Prop) (x : A) n :
  P x -> Forall P (repeat x n).
Proof.
  intro H. apply Forall_forall. intros y Hy.
  apply repeat_spec in Hy. subst. exact H.
Qed.

(** ** The job store *)

Lemma job_id_is_set_status jid st now r :
  job_id_is jid (set_status st now r) = job_id_is jid r.
Proof. reflexivity. Qed.

Lemma in_update_where jid f rows r :
  (forall r0, job_id_is jid (f r0) = job_id_is jid r0) ->
  In r (update_where jid f rows) ->
  exists r0, In r0 rows /\
    ((job_id_is jid r0 = true /\ r = f r0) \/
     (job_id_is jid r0 = false /\ r = r0)).
Proof.
  intros Hf H. unfold update_where in H. apply in_map_iff in H.
  destruct H as (r0 & Hr & Hin). exists r0. split; [exact Hin|].
  destruct (job_id_is jid r0) eqn:E; [left | right]; split; congruence.
Qed.

Lemma in_update_where_hit jid f rows r :
  (forall r0, job_id_is jid (f r0) = job_id_is jid r0) ->
  In r (update_where jid f rows) -> job_id_is jid r = true ->
  exists r0, In r0 rows /\ job_id_is jid r0 = true /\ r = f r0.
Proof.
  intros Hf H Hr. apply in_update_where in H; [|exact Hf].
  destruct H as (r0 & Hin & [[E ->] | [E ->]]).
  - exists r0. repeat split; assumption.
  - congruence.
Qed.

Lemma in_update_where_miss jid f rows r :
  (forall r0, job_id_is jid (f r0) = job_id_is jid r0) ->
  In r (update_where jid f rows) -> job_id_is jid r = false ->
  In r rows.
Proof.
  intros Hf H Hr. apply in_update_where in H; [|exact Hf].
  destruct H as (r0 & Hin & [[E ->] | [E ->]]).
  - rewrite Hf in Hr. congruence.
  - exact Hin.
Qed.

Lemma Forall_update_where (P : JobRow -> Prop) jid f rows :
  (forall r, P r -> job_id_is jid r = true -> P (f r)) ->
  Forall P rows -> Forall P (update_where jid f rows).
Proof.
  intros Hf H. unfold update_where. apply Forall_map.
  eapply Forall_impl; [|exact H]. simpl. intros r Hr.
  destruct (job_id_is jid r) eqn:E; auto.
Qed.

Lemma find_update_where jid f rows :
  (forall r0, job_id_is jid (f r0) = job_id_is jid r0) ->
  find (job_id_is jid) (update_where jid f rows)
  = option_map f (find (job_id_is jid) rows).
Proof.
  intro Hf. induction rows as [|r rows IH]; simpl; [reflexivity|].
  destruct (job_id_is jid r) eqn:E.
  - rewrite Hf, E. reflexivity.
  - rewrite E. exact IH.
Qed.

Lemma get_job_eq d jid :
  DatabaseManager.get_job d jid = find (job_id_is jid) (jobs d).
Proof. reflexivity. Qed.

Lemma get_job_in d jid job :
  DatabaseManager.get_job d jid = Some job ->
  In job (jobs d) /\ job_id_is jid job = true.
Proof. rewrite get_job_eq. apply find_some. Qed.

Lemma update_job_status_eq d jid st msg now :
  DatabaseManager.update_job_status d jid st msg now
  = (true,
     mkDatabase (update_where jid (status_update st msg now) (jobs d))
       (speaker_segments d) (word_segments d)).
Proof.
  unfold DatabaseManager.update_job_status,
    DatabaseManager.update_job_status_tx, status_update.
  destruct (DatabaseManager.given msg); reflexivity.
Qed.

Lemma job_id_is_status_update jid st msg now r :
  job_id_is jid (status_update st msg now r) = job_id_is jid r.
Proof. unfold status_update. destruct (DatabaseManager.given msg); reflexivity. Qed.

Lemma job_id_is_set_result jid p du l c payload now r :
  job_id_is jid (set_result p du l c payload now r) = job_id_is jid r.
Proof. reflexivity. Qed.

Lemma save_job_result_cases d jid result now :
  DatabaseManager.save_job_result d jid result now = (false, d) \/
  exists d', DatabaseManager.save_job_result d jid result now = (true, d') /\
             saved d jid result now d'.
Proof.
  unfold DatabaseManager.save_job_result, with_connection.
  pose proof (commits_last_save_job_result_tx jid result now
                (mkConn d d [])) as HC.
  destruct (DatabaseManager.save_job_result_tx jid result now
              (mkConn d d [])) as [[b|e] c'] eqn:E; simpl in *.
  - apply save_job_result_tx_ret in E. destruct E as [-> Hsaved].
    right. eexists. split; [reflexivity | exact Hsaved].
  - left. destruct HC as [-> _]. reflexivity.
Qed.

Lemma saved_job_row before jid result now after r :
  saved before jid result now after ->
  In r (jobs after) -> job_id_is jid r = true ->
  status r = "completed" /\ result_data r = Some result.
Proof.
  intros (d & p & du & l & c & segs & ss & words & ws & _ & _ & _ & _ & _
            & Hj & _) Hin Hr.
  rewrite Hj in Hin. apply in_update_where_hit in Hin; [|reflexivity|exact Hr].
  destruct Hin as (r0 & _ & _ & ->). split; reflexivity.
Qed.

Lemma update_where_no_match jid f rows :
  find (job_id_is jid) rows = None -> update_where jid f rows = rows.
Proof.
  induction rows as [|r rows IH]; simpl; [reflexivity|].
  destruct (job_id_is jid r) eqn:E; [discriminate|].
  intro H. rewrite (IH H). reflexivity.
Qed.

(** The job row after a save: completed and carrying the payload when the
    job has a row, and no row at all when it has none. *)
Lemma saved_get_job before jid result now after :
  saved before jid result now after ->
  (forall job,
     DatabaseManager.get_job before jid = Some job ->
     exists job',
       DatabaseManager.get_job after jid = Some job' /\
       status job' = "completed" /\ result_data job' = Some result) /\
  (DatabaseManager.get_job before jid = None ->
   jobs after = jobs before).
Proof.
  intros (d & p & du & l & c & segs & ss & words & ws & _ & _ & _ & _ & _
            & Hj & _).
  split.
  - intros job Hjob. rewrite get_job_eq in *. rewrite Hj.
    rewrite find_update_where by reflexivity. rewrite Hjob.
    eexists. split; [reflexivity|]. split; reflexivity.
  - intro Hnone. rewrite get_job_eq in Hnone. rewrite Hj.
    apply update_where_no_match. exact Hnone.
Qed.



(** C6, as amended.  Whenever [update_job_status] reports success, every
    row of the job carries the new status and the current time as
    [updated_at], and a job that was there is still there.  A job_id that
    no row has is not rejected: the UPDATE matches nothing, the database is
    left as it was, and what is reported is a success. *)
Theorem update_job_status_refreshes d jid st msg now :
  let out := DatabaseManager.update_job_status d jid st msg now in
  (fst out = true ->
   (forall r, In r (jobs (snd out)) -> job_id_is jid r = true ->
              updated_at r = now /\ status r = st) /\
   (forall job, DatabaseManager.get_job d jid = Some job ->
      exists job', DatabaseManager.get_job (snd out) jid = Some job' /\
                   updated_at job' = now /\ status job' = st)) /\
  (DatabaseManager.get_job d jid = None -> out = (true, d)).
Proof.
  rewrite update_job_status_eq. cbv zeta. cbn [fst snd]. split.
  - intros _. split.
    + intros r Hin Hjid. cbn [jobs] in Hin.
      apply in_update_where_hit in Hin;
        [|apply job_id_is_status_update | exact Hjid].
      destruct Hin as (r0 & _ & _ & ->). unfold status_update.
      destruct (DatabaseManager.given msg); split; reflexivity.
    + intros job Hjob. rewrite get_job_eq in *. simpl.
      rewrite find_update_where by apply job_id_is_status_update.
      rewrite Hjob. simpl. eexists. split; [reflexivity|].
      unfold status_update.
      destruct (DatabaseManager.given msg); split; reflexivity.
  - intro Hnone. rewrite get_job_eq in Hnone.
    rewrite update_where_no_match by exact Hnone. destruct d; reflexivity.
Qed.

(** C6, the claim as stated fails: no job has the id, and the update is
    reported as a success. *)
Lemma update_job_status_unknown_job_succeeds :
  DatabaseManager.get_job empty_db "missing" = None /\
  DatabaseManager.update_job_status empty_db "missing" "failed"
    (Some "boom") 5 = (true, empty_db).
Proof. split; reflexivity. Qed.

(** The amended C6 at job "abc", which is being processed and is marked as
    failed with a message. *)
Lemma update_job_status_refreshes_witness :
  let out :=
    DatabaseManager.update_job_status processing_abc "abc" "failed"
      (Some "boom") 12 in
  fst out = true /\
  exists job',
    DatabaseManager.get_job (snd out) "abc" = Some job' /\
    updated_at job' = 12 /\ status job' = "failed".
Proof.
  cbv zeta. split; [reflexivity|].
  destruct (update_job_status_refreshes processing_abc "abc" "failed"
              (Some "boom") 12) as [Hok _].
  destruct (Hok eq_refl) as [_ Hjob].
  apply (Hjob (mkJobRow (SText "abc") "processing" 10 11 (SText "a.wav")
                 (SText "base") (SInt 1) (SInt 1) SNull SNull SNull SNull
                 None None)).
  reflexivity.
Defined.

Lemma only_status_touched_refl r : only_status_touched r r.
Proof. repeat split. Qed.

Lemma only_status_touched_set_status st now r :
  only_status_touched r (set_status st now r).
Proof. repeat split. Qed.

Lemma Forall2_update_where (R : JobRow -> JobRow -> Prop) jid f rows :
  (forall r, job_id_is jid r = true -> R r (f r)) ->
  (forall r, job_id_is jid r = false -> R r r) ->
  Forall2 R rows (update_where jid f rows).
Proof.
  intros Hhit Hmiss. induction rows as [|r rows IH]; simpl; constructor.
  - destruct (job_id_is jid r) eqn:E; auto.
  - exact IH.
Qed.

(** ** Retry and cancel *)

Section Endpoints.
Context {V : Pydantic}.

Lemma retry_job_not_failed s jid now job :
  DatabaseManager.get_job (db s) jid = Some job ->
  status job <> "failed" ->
  Jobs.retry_job s jid now
  = (HTTPException 400 "Only failed jobs can be retried", s).
Proof.
  intros Hjob Hst. unfold Jobs.retry_job. rewrite Hjob.
  apply String.eqb_neq in Hst. rewrite Hst. reflexivity.
Qed.

Lemma retry_job_failed_db s jid now job :
  DatabaseManager.get_job (db s) jid = Some job ->
  status job = "failed" ->
  db (snd (Jobs.retry_job s jid now))
  = snd (DatabaseManager.update_job_status (db s) jid "pending" None now).
Proof.
  intros Hjob Hst. unfold Jobs.retry_job. rewrite Hjob, Hst. simpl.
  match goal with
  | |- context [match ?m with Ret _ => _ | Exc _ => _ end] => destruct m
  end; reflexivity.
Qed.

Lemma retry_job_response s jid now r :
  fst (Jobs.retry_job s jid now) = Response r ->
  exists job,
    DatabaseManager.get_job (db s) jid = Some job /\
    status job = "failed" /\
    JobResponse.status r = JobStatus.PENDING.
Proof.
  unfold Jobs.retry_job.
  destruct (DatabaseManager.get_job (db s) jid) as [job|]; [|discriminate].
  destruct (String.eqb (status job) "failed") eqn:E; [|discriminate].
  apply String.eqb_eq in E. simpl.
  match goal with
  | |- context [match ?m with Ret _ => _ | Exc _ => _ end] =>
      destruct m as [r0|e] eqn:Em
  end; simpl; [|discriminate].
  intro H. inversion H. subst r0. exists job. repeat split; [exact E|].
  repeat (apply py_bind_ret in Em; destruct Em as (? & _ & Em)).
  inversion Em. reflexivity.
Qed.

Lemma get_job_after_update d jid st msg now job :
  DatabaseManager.get_job d jid = Some job ->
  DatabaseManager.get_job
    (snd (DatabaseManager.update_job_status d jid st msg now)) jid
  = Some (status_update st msg now job).
Proof.
  intro Hjob. rewrite update_job_status_eq. rewrite get_job_eq in *. simpl.
  rewrite find_update_where by apply job_id_is_status_update.
  rewrite Hjob. reflexivity.
Qed.

(** C5.  [retry_job] answers a job whose status is anything but failed
    (pending, processing, completed, cancelled) with the 400 error and
    leaves the service as it was; it gives a response only for a job that
    was failed, and a failed job is reset to pending. *)
Theorem retry_job_only_from_failed s jid now :
  (forall job,
     DatabaseManager.get_job (db s) jid = Some job ->
     status job <> "failed" ->
     Jobs.retry_job s jid now
     = (HTTPException 400 "Only failed jobs can be retried", s)) /\
  (forall r,
     fst (Jobs.retry_job s jid now) = Response r ->
     exists job,
       DatabaseManager.get_job (db s) jid = Some job /\
       status job = "failed" /\
       JobResponse.status r = JobStatus.PENDING) /\
  (forall job,
     DatabaseManager.get_job (db s) jid = Some job ->
     status job = "failed" ->
     exists job',
       DatabaseManager.get_job (db (snd (Jobs.retry_job s jid now))) jid
       = Some job' /\
       status job' = "pending").
Proof.
  repeat split.
  - intros job Hjob Hst. eapply retry_job_not_failed; eassumption.
  - apply retry_job_response.
  - intros job Hjob Hst.
    erewrite retry_job_failed_db by eassumption.
    erewrite get_job_after_update by eassumption.
    eexists. split; reflexivity.
Qed.

Lemma cancel_job_refused s jid now job :
  DatabaseManager.get_job (db s) jid = Some job ->
  status job = "completed" \/ status job = "failed" ->
  Jobs.cancel_job s jid now
  = (HTTPException 400 "Cannot cancel completed or failed job", s).
Proof.
  intros Hjob Hst. unfold Jobs.cancel_job. rewrite Hjob.
  destruct Hst as [-> | ->]; reflexivity.
Qed.

Lemma cancel_job_accepted s jid now job :
  DatabaseManager.get_job (db s) jid = Some job ->
  status job <> "completed" -> status job <> "failed" ->
  Jobs.cancel_job s jid now
  = (Response "Job cancelled successfully",
     mkService
       (snd (DatabaseManager.update_job_status (db s) jid "cancelled" None
               now))
       (scheduled s) (running s)).
Proof.
  intros Hjob H1 H2. unfold Jobs.cancel_job. rewrite Hjob.
  apply String.eqb_neq in H1, H2. rewrite H1, H2.
  rewrite update_job_status_eq. reflexivity.
Qed.

(** C4, as amended.  [cancel_job] refuses a completed or a failed job with
    the 400 error and leaves the service as it was; a job in any other
    status (pending, processing, and also cancelled) is answered with
    success and is cancelled afterwards. *)
Theorem cancel_job_refuses_completed_and_failed s jid now job :
  DatabaseManager.get_job (db s) jid = Some job ->
  (status job = "completed" \/ status job = "failed" ->
   Jobs.cancel_job s jid now
   = (HTTPException 400 "Cannot cancel completed or failed job", s)) /\
  (status job <> "completed" -> status job <> "failed" ->
   fst (Jobs.cancel_job s jid now) = Response "Job cancelled successfully" /\
   exists job',
     DatabaseManager.get_job (db (snd (Jobs.cancel_job s jid now))) jid
     = Some job' /\
     status job' = "cancelled").
Proof.
  intro Hjob. split.
  - apply cancel_job_refused. exact Hjob.
  - intros H1 H2. erewrite cancel_job_accepted by eassumption. cbn [fst snd db].
    split; [reflexivity|].
    erewrite get_job_after_update by eassumption.
    eexists. split; reflexivity.
Qed.

(** C10.  [update_job_status] without an error message changes, in the
    rows of the job, the columns [status] and [updated_at] and nothing
    else, and leaves every other row and the segment tables as they were;
    so after [retry_job] a failed job is pending with the error message and
    the result payload it had. *)
Theorem update_job_status_without_message_frame d jid st now :
  let d' := snd (DatabaseManager.update_job_status d jid st None now) in
  Forall2 (fun r r' =>
             only_status_touched r r' /\
             (job_id_is jid r = false -> r' = r))
    (jobs d) (jobs d') /\
  speaker_segments d' = speaker_segments d /\
  word_segments d' = word_segments d /\
  (forall s job,
     DatabaseManager.get_job (db s) jid = Some job ->
     status job = "failed" ->
     exists job',
       DatabaseManager.get_job (db (snd (Jobs.retry_job s jid now))) jid
       = Some job' /\
       status job' = "pending" /\
       error_message job' = error_message job /\
       result_data job' = result_data job).
Proof.
  rewrite update_job_status_eq. simpl. repeat split.
  - apply Forall2_update_where.
    + intros r Hr. split; [apply only_status_touched_set_status|].
      intro. congruence.
    + intros r Hr. split; [apply only_status_touched_refl | reflexivity].
  - intros s job Hjob Hst.
    erewrite retry_job_failed_db by eassumption.
    erewrite get_job_after_update by eassumption.
    eexists. split; [reflexivity|]. repeat split.
Qed.

End Endpoints.

(** C4, the claim as stated fails: the job is cancelled already, and
    cancelling it again is answered with success, not with an error. *)
Lemma cancel_job_twice_succeeds :
  DatabaseManager.get_job (mkDatabase [cancelled_job] [] []) "abc"
  = Some cancelled_job /\
  status cancelled_job = "cancelled" /\
  fst (Jobs.cancel_job (mkService (mkDatabase [cancelled_job] [] []) [] [])
         "abc" 15)
  = Response "Job cancelled successfully".
Proof. repeat split. Qed.

(** The amended C4 at a job that is cancelled already. *)
Lemma cancel_job_refuses_completed_and_failed_witness :
  DatabaseManager.get_job (mkDatabase [cancelled_job] [] []) "abc"
  = Some cancelled_job /\
  exists job',
    DatabaseManager.get_job
      (db (snd (Jobs.cancel_job
                  (mkService (mkDatabase [cancelled_job] [] []) [] [])
                  "abc" 15))) "abc" = Some job' /\
    status job' = "cancelled".
Proof.
  split; [reflexivity|].
  apply (cancel_job_refuses_completed_and_failed
           (mkService (mkDatabase [cancelled_job] [] []) [] []) "abc" 15
           (job:=cancelled_job)).
  - reflexivity.
  - discriminate.
  - discriminate.
Defined.

(** ** Reading jobs *)

Lemma py_mapM_ret {A B} (f : A -> py B) xs : forall ys,
  py_mapM f xs = Ret ys -> Forall2 (fun x y => f x = Ret y) xs ys.
Proof.
  induction xs as [|x xs IH]; simpl; intros ys H.
  - inversion H. constructor.
  - apply py_bind_ret in H. destruct H as (y & Hy & H).
    apply py_bind_ret in H. destruct H as (ys' & Hys & H).
    inversion H. constructor; [exact Hy | apply IH; exact Hys].
Qed.

Lemma Forall2_in_right {A B} (R : A -> B -> Prop) xs ys y :
  Forall2 R xs ys -> In y ys -> exists x, In x xs /\ R x y.
Proof.
  induction 1 as [|x y' xs ys Hxy _ IH]; simpl; [tauto|].
  intros [<- | Hin].
  - exists x. split; [left; reflexivity | exact Hxy].
  - destruct (IH Hin) as (x' & Hx' & HR). exists x'. split; [right|]; assumption.
Qed.

Lemma in_insert_desc r r' rows :
  In r' (DatabaseManager.insert_desc r rows) -> r' = r \/ In r' rows.
Proof.
  induction rows as [|x rows IH]; simpl.
  - intros [H|[]]. left. congruence.
  - destruct (created_at x <=? created_at r); simpl.
    + intros [H|[H|H]]; auto.
    + intros [H|H]; auto. destruct (IH H); auto.
Qed.

Lemma in_order_by r rows :
  In r (DatabaseManager.order_by_created_at_desc rows) -> In r rows.
Proof.
  induction rows as [|x rows IH]; simpl; [tauto|].
  intro H. apply in_insert_desc in H. destruct H; auto.
Qed.

Lemma length_insert_desc r rows :
  List.length (DatabaseManager.insert_desc r rows) = S (List.length rows).
Proof.
  induction rows as [|x rows IH]; simpl; [reflexivity|].
  destruct (created_at x <=? created_at r); simpl; congruence.
Qed.

Lemma length_order_by rows :
  List.length (DatabaseManager.order_by_created_at_desc rows)
  = List.length rows.
Proof.
  induction rows as [|x rows IH]; simpl; [reflexivity|].
  rewrite length_insert_desc. congruence.
Qed.

Lemma in_matching flt r rows :
  In r (DatabaseManager.matching flt rows) -> In r rows.
Proof.
  unfold DatabaseManager.matching. destruct flt as [s|]; [|tauto].
  destruct (String.eqb s ""); [tauto|]. intro H.
  apply filter_In in H. tauto.
Qed.

Lemma in_firstn {A} n (x : A) l : In x (firstn n l) -> In x l.
Proof.
  intro H. rewrite <- (firstn_skipn n l). apply in_or_app. left. exact H.
Qed.

Lemma in_skipn {A} n (x : A) l : In x (skipn n l) -> In x l.
Proof.
  intro H. rewrite <- (firstn_skipn n l). apply in_or_app. right. exact H.
Qed.

Lemma in_limit_offset {A} limit offset (x : A) rows :
  In x (DatabaseManager.limit_offset limit offset rows) -> In x rows.
Proof.
  unfold DatabaseManager.limit_offset. intro H.
  destruct (limit <? 0).
  - eapply in_skipn; eassumption.
  - eapply in_skipn. eapply in_firstn. eassumption.
Qed.

Lemma get_jobs_eq d limit offset flt :
  DatabaseManager.get_jobs d limit offset flt
  = DatabaseManager.limit_offset limit offset
      (DatabaseManager.order_by_created_at_desc
         (DatabaseManager.matching flt (jobs d))).
Proof. reflexivity. Qed.

Lemma in_get_jobs d limit offset flt r :
  In r (DatabaseManager.get_jobs d limit offset flt) -> In r (jobs d).
Proof.
  rewrite get_jobs_eq. intro H.
  apply in_limit_offset, in_order_by, in_matching in H. exact H.
Qed.

(** The count of [list_jobs] is the length of a page of 1000. *)
Lemma length_get_jobs_1000 d flt :
  Z.of_nat (List.length (DatabaseManager.get_jobs d 1000 0 flt))
  = Z.min 1000
      (Z.of_nat (List.length (DatabaseManager.matching flt (jobs d)))).
Proof.
  rewrite get_jobs_eq. unfold DatabaseManager.limit_offset.
  change (1000 <? 0) with false. cbv iota. change (Z.to_nat 0) with 0%nat.
  rewrite skipn_0, length_firstn, length_order_by. lia.
Qed.

Section Reading.
Context {V : Pydantic}.

Lemma job_response_rule job r :
  Jobs.job_response job = Ret r -> progress_rule job r.
Proof.
  unfold Jobs.job_response. intro H.
  apply py_bind_ret in H. destruct H as (st & Hst & H).
  repeat (apply py_bind_ret in H; destruct H as (? & _ & H)).
  inversion H. clear H. subst r. unfold progress_rule. simpl.
  destruct (String.eqb (status job) "completed") eqn:E.
  - apply String.eqb_eq in E. rewrite E in Hst. inversion Hst.
    split; [left; split; reflexivity|]. split.
    + intros _. repeat split.
    + intro Hn. contradiction.
  - apply String.eqb_neq in E.
    split; [right; split; reflexivity|]. split.
    + intro Hc. contradiction.
    + intros _. repeat split. intro Hc. subst st.
      unfold JobStatus.of_string in Hst.
      repeat match type of Hst with
             | (if String.eqb ?a ?b then _ else _) = _ =>
                 let Eb := fresh "Eb" in
                 destruct (String.eqb a b) eqn:Eb;
                 [ first [ discriminate Hst
                         | apply String.eqb_eq in Eb; contradiction ] | ]
             end.
      discriminate Hst.
Qed.

Lemma list_jobs_total d page per_page st l :
  Jobs.list_jobs d page per_page st = Response l ->
  JobListResponse.total l
  = Z.min 1000
      (Z.of_nat
         (List.length
            (DatabaseManager.matching (option_map JobStatus.value st)
               (jobs d)))).
Proof.
  unfold Jobs.list_jobs.
  destruct (py_mapM Jobs.job_response _); [|discriminate].
  intro H. inversion H. simpl. apply length_get_jobs_1000.
Qed.

Lemma py_mapM_exc {A B} (f : A -> py B) xs e :
  py_mapM f xs = Exc e -> exists x e', In x xs /\ f x = Exc e'.
Proof.
  induction xs as [|x xs IH]; simpl; [discriminate|].
  destruct (f x) as [y|e'] eqn:E; simpl.
  - destruct (py_mapM f xs) as [ys|e'']; simpl; [discriminate|].
    intro H. destruct (IH H) as (x' & e' & Hin & Hx').
    exists x', e'. split; [right; exact Hin | exact Hx'].
  - intros _. exists x, e'. split; [left; reflexivity | exact E].
Qed.

(** C9.  A job given back by [get_job] or in a page of [list_jobs] is the
    response built from its stored row, and shows progress 1.0 and the
    stage COMPLETED when the stored status is "completed", and progress 0.0
    and the stage UPLOAD for every other status; no other progress or stage
    is shown.  The responses of a page are those of the rows of the page,
    in their order.  [get_job] gives no response only for a job_id without
    a row (404) or for a row the response model refuses (500), and
    [list_jobs] only when the page has such a row. *)
Theorem progress_is_all_or_nothing d :
  (forall jid r,
     Jobs.get_job d jid = Response r ->
     exists job,
       DatabaseManager.get_job d jid = Some job /\
       Jobs.job_response job = Ret r /\ progress_rule job r) /\
  (forall jid code detail,
     Jobs.get_job d jid = HTTPException code detail ->
     (code = 404 /\ DatabaseManager.get_job d jid = None) \/
     (code = 500 /\
      exists job e,
        DatabaseManager.get_job d jid = Some job /\
        Jobs.job_response job = Exc e)) /\
  (forall page per_page st l,
     Jobs.list_jobs d page per_page st = Response l ->
     Forall2 (fun job r => Jobs.job_response job = Ret r /\
                           progress_rule job r)
       (DatabaseManager.get_jobs d per_page ((page - 1) * per_page)
          (option_map JobStatus.value st))
       (JobListResponse.jobs l)) /\
  (forall page per_page st code detail,
     Jobs.list_jobs d page per_page st = HTTPException code detail ->
     code = 500 /\
     exists job e,
       In job (DatabaseManager.get_jobs d per_page ((page - 1) * per_page)
                 (option_map JobStatus.value st)) /\
       Jobs.job_response job = Exc e).
Proof.
  split; [|split; [|split]].
  - intros jid r. unfold Jobs.get_job.
    destruct (DatabaseManager.get_job d jid) as [job|]; [|discriminate].
    destruct (Jobs.job_response job) as [r0|] eqn:E; [|discriminate].
    intro H. inversion H. subst r0. exists job.
    split; [reflexivity|]. split; [exact E|].
    apply job_response_rule. exact E.
  - intros jid code detail. unfold Jobs.get_job.
    destruct (DatabaseManager.get_job d jid) as [job|].
    + destruct (Jobs.job_response job) as [r0|e] eqn:E; [discriminate|].
      intro H. inversion H. right. split; [reflexivity|].
      exists job, e. split; [reflexivity | exact E].
    + intro H. inversion H. left. split; reflexivity.
  - intros page per_page st l. unfold Jobs.list_jobs.
    destruct (py_mapM Jobs.job_response _) as [rs|] eqn:E; [|discriminate].
    intro H. inversion H. simpl. clear H.
    apply py_mapM_ret in E.
    eapply Forall2_impl; [|exact E]. cbv beta.
    intros job r Hr. split; [exact Hr | apply job_response_rule; exact Hr].
  - intros page per_page st code detail. unfold Jobs.list_jobs.
    destruct (py_mapM Jobs.job_response _) as [rs|e] eqn:E; [discriminate|].
    intro H. inversion H. split; [reflexivity|].
    apply py_mapM_exc in E. destruct E as (job & e' & Hin & He').
    exists job, e'. split; [exact Hin | exact He'].
Qed.

End Reading.

(** C9 at a table with a pending and a completed job, which the plain
    validators accept: both are shown, the completed one with progress 1.0
    and the pending one with progress 0.0, alone and in the list. *)
Lemma progress_is_all_or_nothing_witness :
  (exists r,
     Jobs.get_job (V:=plain_pydantic) pending_and_completed "done"
     = Response r /\
     JobResponse.progress r = 1%Q /\
     JobResponse.current_stage r = Some ProcessingStage.COMPLETED) /\
  (exists r,
     Jobs.get_job (V:=plain_pydantic) pending_and_completed "new"
     = Response r /\
     JobResponse.progress r = 0%Q /\
     JobResponse.current_stage r = Some ProcessingStage.UPLOAD) /\
  (exists l,
     Jobs.list_jobs (V:=plain_pydantic) pending_and_completed 1 10 None
     = Response l /\
     map JobResponse.job_id (JobListResponse.jobs l) = ["new"; "done"] /\
     map JobResponse.progress (JobListResponse.jobs l) = [0%Q; 1%Q]).
Proof.
  destruct (progress_is_all_or_nothing (V:=plain_pydantic)
              pending_and_completed) as (Hget & _ & Hlist & _).
  split; [|split].
  - destruct (Jobs.get_job (V:=plain_pydantic) pending_and_completed "done")
      as [r|code detail] eqn:E; [|vm_compute in E; discriminate E].
    exists r. split; [reflexivity|].
    destruct (Hget "done" r E) as (job & Hjob & _ & Hrule).
    vm_compute in Hjob. inversion Hjob. subst job.
    destruct Hrule as (_ & Hc & _).
    destruct (Hc eq_refl) as (Hp & Hs & _). split; assumption.
  - destruct (Jobs.get_job (V:=plain_pydantic) pending_and_completed "new")
      as [r|code detail] eqn:E; [|vm_compute in E; discriminate E].
    exists r. split; [reflexivity|].
    destruct (Hget "new" r E) as (job & Hjob & _ & Hrule).
    vm_compute in Hjob. inversion Hjob. subst job.
    destruct Hrule as (_ & _ & Hn).
    destruct Hn as (Hp & Hs & _); [discriminate|]. split; assumption.
  - destruct (Jobs.list_jobs (V:=plain_pydantic) pending_and_completed 1 10
                None) as [l|code detail] eqn:E;
      [|vm_compute in E; discriminate E].
    exists l. split; [reflexivity|].
    pose proof (Hlist 1 10 None l E) as Hall.
    revert E. vm_compute. intro E. inversion E. split; reflexivity.
Defined.

(** C7, the code at a store of 1001 pending jobs: all 1001 match the
    (absent) filter, and the first page of ten reports a total of 1000. *)
Theorem list_jobs_total_stops_at_1000 :
  List.length (DatabaseManager.matching None (jobs (many_jobs 1001)))
  = 1001%nat /\
  exists l,
    Jobs.list_jobs (V:=plain_pydantic) (many_jobs 1001) 1 10 None
    = Response l /\
    List.length (JobListResponse.jobs l) = 10%nat /\
    JobListResponse.total l = 1000.
Proof.
  split; [vm_compute; reflexivity|].
  destruct (Jobs.list_jobs (V:=plain_pydantic) (many_jobs 1001) 1 10 None)
    as [l|code detail] eqn:E.
  - exists l. split; [reflexivity|]. split.
    + revert E. vm_compute. intro E. inversion E. reflexivity.
    + rewrite (list_jobs_total _ _ _ _ E). vm_compute. reflexivity.
  - exfalso. revert E. vm_compute. discriminate.
Qed.

(** ** What is stored of the speakers *)

Lemma Forall2_map_left {A B C} (f : B -> A) (R : A -> C -> Prop) ys :
  forall zs, Forall2 R (map f ys) zs -> Forall2 (fun y z => R (f y) z) ys zs.
Proof.
  induction ys as [|y ys IH]; simpl; intros zs H; inversion H; subst;
    constructor; auto.
Qed.

Lemma Forall2_compose {A B C} (R : A -> B -> Prop) (S : B -> C -> Prop) xs :
  forall ys zs,
    Forall2 R xs ys -> Forall2 S ys zs ->
    Forall2 (fun x z => exists y, R x y /\ S y z) xs zs.
Proof.
  induction xs as [|x xs IH]; intros ys zs H1 H2; inversion H1; subst;
    inversion H2; subst; constructor; eauto.
Qed.

Lemma Forall2_flat {A B} (R : A -> B -> Prop) (f : A -> list A)
    (S : A -> list B -> Prop) xs :
  forall yss,
    (forall x ys, S x ys -> Forall2 R (f x) ys) ->
    Forall2 S xs yss ->
    Forall2 R (flat_map f xs) (List.concat yss).
Proof.
  induction xs as [|x xs IH]; intros yss HS H; inversion H; subst; simpl.
  - constructor.
  - apply Forall2_app; auto.
Qed.

Lemma bind_param_speaker entry d col :
  entry = PDict d ->
  bind_param (get_or d "speaker" (PStr "UNKNOWN")) = Ret col ->
  speaker_stored entry col.
Proof.
  intros -> H. unfold speaker_stored, speaker_of, get_or in *.
  destruct (dict_lookup "speaker" d) as [v|].
  - split; [discriminate|]. split.
    + intros v' Hv Hn. inversion Hv. subst v'.
      intro Hc. rewrite Hc in H.
      destruct v; simpl in H; try congruence.
      match type of H with
      | (if ?b then _ else _) = _ => destruct b; discriminate H
      end.
    + intro Hv. inversion Hv. subst v. simpl in H. congruence.
  - simpl in H. inversion H. split; [reflexivity|].
    split; intros; discriminate.
Qed.

Lemma convert_word_ret w wd :
  Jobs.convert_word w = Ret wd ->
  exists d, w = PDict d /\
    wd = PDict [ ("start", get_or d "start" (PInt 0));
                 ("end", get_or d "end" (PInt 0));
                 ("word", get_or d "word" (PStr ""));
                 ("speaker", get_or d "speaker" (PStr "UNKNOWN"));
                 ("confidence", PFloat (4 # 5)) ].
Proof.
  unfold Jobs.convert_word. destruct w; simpl; try discriminate.
  intro H. inversion H. eexists. split; reflexivity.
Qed.

Lemma convert_segment_ret x sd wl :
  Jobs.convert_segment x = Ret (sd, wl) ->
  exists d, x = PDict d /\
    sd = PDict [ ("start", get_or d "start" (PInt 0));
                 ("end", get_or d "end" (PInt 0));
                 ("text", get_or d "text" (PStr ""));
                 ("speaker", get_or d "speaker" (PStr "UNKNOWN")) ] /\
    Forall2 (fun w wd => Jobs.convert_word w = Ret wd) (engine_words x) wl.
Proof.
  unfold Jobs.convert_segment. destruct x; simpl; try discriminate.
  intro H. apply py_bind_ret in H. destruct H as (items & Hi & H).
  apply py_bind_ret in H. destruct H as (ws & Hws & H).
  inversion H. subst. eexists. split; [reflexivity|]. split; [reflexivity|].
  unfold engine_words, iterated. simpl. rewrite Hi.
  apply py_mapM_ret. exact Hws.
Qed.

(** What the conversion of an engine result yields. *)
Lemma convert_result_ret result elapsed result_dict :
  Jobs.convert_result result elapsed = Ret result_dict ->
  exists converted text lang dur,
    Forall2 (fun x y => Jobs.convert_segment x = Ret y)
      (engine_segments result) converted /\
    result_dict
    = PDict [ ("text", text); ("language", lang); ("duration", dur);
              ("word_segments", PList (List.concat (map snd converted)));
              ("speaker_segments", PList (map fst converted));
              ("confidence", PFloat (4 # 5));
              ("processing_time", PFloat elapsed) ].
Proof.
  unfold Jobs.convert_result. intro H.
  apply py_bind_ret in H. destruct H as (segments & Hs & H).
  apply py_bind_ret in H. destruct H as (items & Hi & H).
  apply py_bind_ret in H. destruct H as (texts & _ & H).
  apply py_bind_ret in H. destruct H as (full_text & _ & H).
  apply py_bind_ret in H. destruct H as (lang & _ & H).
  apply py_bind_ret in H. destruct H as (converted & Hc & H).
  apply py_bind_ret in H. destruct H as (dur & _ & H).
  inversion H. exists converted, (PStr full_text), lang, dur.
  split; [|reflexivity].
  unfold engine_segments, iterated. rewrite Hs, Hi.
  apply py_mapM_ret. exact Hc.
Qed.

Lemma items_under_found key d v items :
  dict_lookup key d = Some v ->
  items_under key (PDict d) items -> py_iter v = Ret items.
Proof.
  intros Hl (d' & Hd & H). inversion Hd. subst d'. rewrite Hl in H. exact H.
Qed.

Lemma stored_speaker_segment jid x y row :
  Jobs.convert_segment x = Ret y ->
  speaker_row_for jid (fst y) row ->
  ss_speaker row <> SNull /\ speaker_stored x (ss_speaker row).
Proof.
  destruct y as [sd wl]. intros Hc Hrow.
  apply convert_segment_ret in Hc. destruct Hc as (d & -> & -> & _).
  destruct Hrow as (d' & Hd & _ & Hsp & _ & _ & _ & Hnull & _).
  simpl in Hd. inversion Hd. subst d'. clear Hd. split.
  - intro Hn. rewrite Hn in Hnull. discriminate.
  - eapply bind_param_speaker; [reflexivity|]. exact Hsp.
Qed.

Lemma stored_word_segment jid w wd row :
  Jobs.convert_word w = Ret wd ->
  word_row_for jid wd row ->
  speaker_stored w (ws_speaker row).
Proof.
  intros Hc Hrow.
  apply convert_word_ret in Hc. destruct Hc as (d & -> & ->).
  destruct Hrow as (d' & Hd & _ & _ & _ & _ & Hsp & _).
  inversion Hd. subst d'. clear Hd.
  eapply bind_param_speaker; [reflexivity|]. exact Hsp.
Qed.

(** C8, as amended.  When the converted result of the engine is saved, the
    job's new rows are one per engine segment and one per engine word, in
    order: no speaker-segment row has a NULL speaker, and every entry
    without a speaker key is stored with "UNKNOWN" (an entry with a speaker
    is stored with it, and a word whose speaker key holds [None] is stored
    with NULL). *)
Theorem unlabeled_speakers_stored_as_unknown
    d jid lang result elapsed now result_dict d' :
  Jobs.convert_result result elapsed = Ret result_dict ->
  DatabaseManager.save_job_result d jid result_dict now = (true, d') ->
  Jobs.process_audio_job_finish d jid lang (Returned result) elapsed now
  = d' /\
  exists ss ws,
    speaker_segments d' = speaker_segments d ++ ss /\
    word_segments d' = word_segments d ++ ws /\
    Forall2 (fun seg row =>
               ss_speaker row <> SNull /\
               speaker_stored seg (ss_speaker row))
      (engine_segments result) ss /\
    Forall2 (fun w row => speaker_stored w (ws_speaker row))
      (flat_map engine_words (engine_segments result)) ws.
Proof.
  intros Hconv Hsave. split.
  - unfold Jobs.process_audio_job_finish. rewrite Hconv, Hsave. reflexivity.
  - destruct (save_job_result_cases d jid result_dict now)
      as [Hf | (d'' & Ht & Hsaved)]; [congruence|].
    assert (d'' = d') by congruence. subst d''. clear Ht.
    destruct Hsaved as (dd & p & du & l & c & segs & ss & words & ws & Hres
                          & _ & _ & _ & _ & _ & Hsegs & Hss & Hrows
                          & Hwords & Hws & Hwrows).
    apply convert_result_ret in Hconv.
    destruct Hconv as (converted & text & lg & dur & Hconv & Hdict).
    subst result_dict.
    eapply items_under_found in Hsegs; [|reflexivity].
    eapply items_under_found in Hwords; [|reflexivity].
    simpl in Hsegs, Hwords. inversion Hsegs. inversion Hwords. subst.
    exists ss, ws. repeat split; try assumption.
    + apply Forall2_map_left in Hrows.
      eapply Forall2_impl; [|exact (Forall2_compose Hconv Hrows)].
      intros x row (y & Hy & Hrow).
      eapply stored_speaker_segment; eassumption.
    + assert (Hw : Forall2 (fun w wd => Jobs.convert_word w = Ret wd)
                     (flat_map engine_words (engine_segments result))
                     (List.concat (map snd converted))).
      { apply Forall2_flat
          with (S := fun x wl => exists sd, Jobs.convert_segment x
                                            = Ret (sd, wl)).
        - intros x wl (sd & Hx). apply convert_segment_ret in Hx.
          destruct Hx as (dx & _ & _ & Hx). exact Hx.
        - clear - Hconv. induction Hconv as [|x y xs ys Hxy _ IH]; simpl;
            constructor; [|exact IH].
          destruct y as [sd wl]. exists sd. exact Hxy. }
      eapply Forall2_impl; [|exact (Forall2_compose Hw Hwrows)].
      intros w row (wd & Hwd & Hrow).
      eapply stored_word_segment; eassumption.
Qed.

(** C8, the claim as stated fails: the engine's second word carries
    [None] as its speaker; the job is completed and the word is stored with
    a NULL speaker. *)
Lemma null_speaker_word_is_stored :
  let d := Jobs.process_audio_job_finish processing_abc "abc" PNone
             (Returned result_with_null_speaker) (3 # 2) 12 in
  map status (jobs d) = ["completed"] /\
  map ws_speaker (word_segments d) = [SText "UNKNOWN"; SNull].
Proof. vm_compute. split; reflexivity. Qed.

(** The amended C8 at that engine result. *)
Lemma unlabeled_speakers_stored_as_unknown_witness :
  exists result_dict d',
    Jobs.convert_result result_with_null_speaker (3 # 2) = Ret result_dict /\
    DatabaseManager.save_job_result processing_abc "abc" result_dict 12
    = (true, d') /\
    exists ss ws,
      speaker_segments d' = speaker_segments processing_abc ++ ss /\
      word_segments d' = word_segments processing_abc ++ ws /\
      Forall2 (fun seg row =>
                 ss_speaker row <> SNull /\
                 speaker_stored seg (ss_speaker row))
        (engine_segments result_with_null_speaker) ss /\
      Forall2 (fun w row => speaker_stored w (ws_speaker row))
        (flat_map engine_words (engine_segments result_with_null_speaker))
        ws.
Proof.
  eexists. eexists.
  split; [vm_compute; reflexivity|].
  split; [vm_compute; reflexivity|].
  eapply (@unlabeled_speakers_stored_as_unknown processing_abc "abc" PNone
            result_with_null_speaker (3 # 2) 12).
  - vm_compute. reflexivity.
  - vm_compute. reflexivity.
Defined.

(** ** The life of a job *)

Lemma commits_last_create_job_tx job_data now :
  commits_last (DatabaseManager.create_job_tx job_data now).
Proof.
  unfold DatabaseManager.create_job_tx, DatabaseManager.bind.
  repeat (apply commits_last_bind; [solve [auto with tx] | intro]).
  apply commits_last_commit.
Qed.

Lemma create_job_cases d job_data now :
  DatabaseManager.create_job d job_data now = (false, d) \/
  exists jid fname msize diar align lang,
    DatabaseManager.create_job d job_data now
    = (true,
       mkDatabase
         (jobs d ++ [created_row jid fname msize diar align lang now])
         (speaker_segments d) (word_segments d)).
Proof.
  unfold DatabaseManager.create_job, with_connection.
  pose proof (commits_last_create_job_tx job_data now (mkConn d d [])) as HC.
  destruct (DatabaseManager.create_job_tx job_data now (mkConn d d []))
    as [[b|e] c'] eqn:E; simpl in *.
  - right. unfold DatabaseManager.create_job_tx in E. tx_inv.
    match goal with
    | Hi : sql_insert_job _ _ _ _ _ _ _ _ = Ret _ |- _ =>
        unfold sql_insert_job in Hi; simpl in Hi;
        match type of Hi with
        | (if ?b then _ else _) = _ => destruct b; [discriminate Hi|]
        end;
        inversion Hi as [Hw]
    end.
    match goal with
    | Hc : commit _ = (Ret _, _) |- _ =>
        unfold commit in Hc; inversion Hc; clear Hc; subst
    end.
    simpl. rewrite <- Hw. do 6 eexists. reflexivity.
  - left. destruct HC as [-> _]. reflexivity.
Qed.

Lemma in_jobs_after_update d jid st msg now r' :
  In r' (jobs (snd (DatabaseManager.update_job_status d jid st msg now))) ->
  exists r, In r (jobs d) /\
    ((job_id_is jid r = true /\ r' = status_update st msg now r) \/
     (job_id_is jid r = false /\ r' = r)).
Proof.
  rewrite update_job_status_eq. simpl.
  apply in_update_where. intro. apply job_id_is_status_update.
Qed.

Lemma in_jobs_after_save d jid result now r' :
  In r' (jobs (snd (DatabaseManager.save_job_result d jid result now))) ->
  exists r, In r (jobs d) /\
    ((job_id_is jid r = true /\
      exists p du l c, r' = set_result p du l c result now r) \/
     (job_id_is jid r' = job_id_is jid r /\ r' = r)).
Proof.
  destruct (save_job_result_cases d jid result now)
    as [-> | (d' & -> & Hsaved)]; simpl; intro H.
  - exists r'. split; [exact H|]. right. split; reflexivity.
  - destruct Hsaved as (dd & p & du & l & c & segs & ss & words & ws & _
                          & _ & _ & _ & _ & Hj & _).
    rewrite Hj in H. apply in_update_where in H; [|reflexivity].
    destruct H as (r & Hin & [[Hr ->] | [Hr ->]]); exists r;
      (split; [exact Hin|]).
    + left. split; [exact Hr|]. do 4 eexists. reflexivity.
    + right. split; reflexivity.
Qed.

Lemma status_update_none st now r :
  status_update st None now r = set_status st now r.
Proof. reflexivity. Qed.

Lemma Forall2_same {A} (R : A -> A -> Prop) xs :
  (forall x, R x x) -> Forall2 R xs xs.
Proof. intro H. induction xs; constructor; auto. Qed.

Lemma update_where_twice jid f g rows :
  (forall r, job_id_is jid (g r) = job_id_is jid r) ->
  update_where jid f (update_where jid g rows)
  = update_where jid (fun r => f (g r)) rows.
Proof.
  intro Hg. unfold update_where. rewrite map_map. apply map_ext.
  intro r. destruct (job_id_is jid r) eqn:E.
  - rewrite Hg, E. reflexivity.
  - rewrite E. reflexivity.
Qed.

(** [create_job] as [upload_and_process] calls it: the row is inserted
    unless a row has the job_id. *)
Lemma create_job_upload d jid fname msize diar align now :
  DatabaseManager.create_job d
    (PDict [ ("job_id", PStr jid);
             ("filename", PStr fname);
             ("model_size", Jobs.opt_str msize);
             ("enable_diarization", PBool diar);
             ("enable_alignment", PBool align) ]) now
  = if existsb (fun r => sqlval_eqb (job_id r) (SText jid)) (jobs d)
    then (false, d)
    else (true,
          mkDatabase (jobs d ++ [uploaded_row jid fname msize diar align now])
            (speaker_segments d) (word_segments d)).
Proof.
  unfold DatabaseManager.create_job, with_connection,
    DatabaseManager.create_job_tx, DatabaseManager.bind.
  destruct msize as [m|];
    unfold tx_bind, tx_lift, tx_ret, execute, commit, observe,
      sql_insert_job, get_or, except_return;
    simpl;
    destruct (existsb (fun r => sqlval_eqb (job_id r) (SText jid)) (jobs d));
    destruct diar, align; reflexivity.
Qed.

Section Lifecycle.
Context {V : Pydantic}.

Lemma upload_jobs s jid path fname msize diar align lang now :
  let s' :=
    snd (Jobs.upload_and_process s jid path fname msize diar align lang now)
  in
  jobs (db s') = jobs (db s) \/
  jobs (db s') = jobs (db s) ++ [uploaded_row jid fname msize diar align now].
Proof.
  cbv zeta. unfold Jobs.upload_and_process. rewrite create_job_upload.
  destruct (existsb _ (jobs (db s))); [left; reflexivity|].
  right. destruct (validate_ModelSize (Jobs.opt_str msize)); reflexivity.
Qed.

Lemma retry_db s jid now :
  db (snd (Jobs.retry_job s jid now)) = db s \/
  db (snd (Jobs.retry_job s jid now))
  = snd (DatabaseManager.update_job_status (db s) jid "pending" None now).
Proof.
  unfold Jobs.retry_job.
  destruct (DatabaseManager.get_job (db s) jid) as [job|]; [|left; reflexivity].
  destruct (negb (String.eqb (status job) "failed")); [left; reflexivity|].
  right.
  match goal with
  | |- context [match ?m with Ret _ => _ | Exc _ => _ end] => destruct m
  end; reflexivity.
Qed.

Lemma cancel_db s jid now :
  db (snd (Jobs.cancel_job s jid now)) = db s \/
  db (snd (Jobs.cancel_job s jid now))
  = snd (DatabaseManager.update_job_status (db s) jid "cancelled" None now).
Proof.
  unfold Jobs.cancel_job.
  destruct (DatabaseManager.get_job (db s) jid) as [job|]; [|left; reflexivity].
  destruct (String.eqb (status job) "completed"
            || String.eqb (status job) "failed"); [left; reflexivity|].
  right. rewrite update_job_status_eq. reflexivity.
Qed.

Lemma jobs_after_status_update d jid st now :
  jobs (snd (DatabaseManager.update_job_status d jid st None now))
  = update_where jid (set_status st now) (jobs d).
Proof. rewrite update_job_status_eq. reflexivity. Qed.

(** What a step does to the table of jobs: every row stays in its place
    and changes by [row_step], and an upload may add its row at the end. *)
Lemma step_jobs s ev :
  exists kept added,
    jobs (db (step s ev)) = kept ++ added /\
    Forall2 (row_step ev) (jobs (db s)) kept /\
    Forall (fun r => exists fname msize diar align now,
                       r = uploaded_row (event_job ev) fname msize diar align
                             now)
      added.
Proof.
  assert (Hsame : forall ev0 rows, Forall2 (row_step ev0) rows rows)
    by (intros; apply Forall2_same; intro; constructor).
  assert (Hkeep : forall db',
             jobs db' = jobs (db s) ->
             exists kept added,
               jobs db' = kept ++ added /\
               Forall2 (row_step ev) (jobs (db s)) kept /\
               Forall (fun r => exists fname msize diar align now,
                                  r = uploaded_row (event_job ev) fname msize
                                        diar align now) added).
  { intros db' H. exists (jobs (db s)), []. rewrite app_nil_r.
    split; [exact H|]. split; [apply Hsame | constructor]. }
  assert (Hupd : forall rows',
             Forall2 (row_step ev) (jobs (db s)) rows' ->
             exists kept added,
               rows' = kept ++ added /\
               Forall2 (row_step ev) (jobs (db s)) kept /\
               Forall (fun r => exists fname msize diar align now,
                                  r = uploaded_row (event_job ev) fname msize
                                        diar align now) added).
  { intros rows' H. exists rows', []. rewrite app_nil_r.
    split; [reflexivity|]. split; [exact H | constructor]. }
  destruct ev as [jid path fname msize diar align lang now | jid now
                 | jid outcome elapsed now | jid now | jid now];
    unfold step.
  - destruct (upload_jobs s jid path fname msize diar align lang now)
      as [H | H]; [apply Hkeep; exact H|].
    exists (jobs (db s)), [uploaded_row jid fname msize diar align now].
    split; [exact H|]. split; [apply Hsame|].
    constructor; [|constructor]. do 5 eexists. reflexivity.
  - destruct (take_task jid (scheduled s)) as [[t rest]|];
      [|apply Hkeep; reflexivity].
    cbn [db]. unfold Jobs.process_audio_job_start.
    rewrite jobs_after_status_update. apply Hupd.
    apply Forall2_update_where; intros r Hr; constructor. exact Hr.
  - destruct (take_task jid (running s)) as [[t rest]|];
      [|apply Hkeep; reflexivity].
    cbn [db]. unfold Jobs.process_audio_job_finish.
    destruct outcome as [result | e].
    + destruct (Jobs.convert_result result elapsed) as [rd | e] eqn:E.
      * destruct (save_job_result_cases (db s) jid rd now)
          as [-> | (d' & -> & Hsaved)]; cbn [snd];
          [apply Hkeep; reflexivity|].
        destruct Hsaved as (dd & p & du & l & c & segs & ss & words & ws & _
                              & _ & _ & _ & _ & Hj & _).
        rewrite Hj. apply Hupd.
        apply Forall2_update_where; intros r Hr; [|constructor].
        apply row_saved; assumption.
      * rewrite update_job_status_eq. cbn [snd jobs]. apply Hupd.
        apply Forall2_update_where; intros r Hr; [|constructor].
        apply row_conversion_failed; assumption.
    + destruct (is_Exception e); [|apply Hkeep; reflexivity].
      rewrite update_job_status_eq. cbn [snd jobs].
      destruct (save_job_result_cases (db s) jid
                  (Jobs.partial_result (Task.language t) elapsed e) now)
        as [-> | (d' & -> & Hsaved)]; cbn [snd].
      * apply Hupd.
        apply Forall2_update_where; intros r Hr; [|constructor].
        apply row_engine_failed_unsaved. exact Hr.
      * destruct Hsaved as (dd & p & du & l & c & segs & ss & words & ws & _
                              & _ & _ & _ & _ & Hj & _).
        rewrite Hj. rewrite update_where_twice by reflexivity. apply Hupd.
        apply Forall2_update_where; intros r Hr; [|constructor].
        apply row_engine_failed. exact Hr.
  - destruct (retry_db s jid now) as [-> | ->]; [apply Hkeep; reflexivity|].
    rewrite jobs_after_status_update. apply Hupd.
    apply Forall2_update_where; intros r Hr; constructor. exact Hr.
  - destruct (cancel_db s jid now) as [-> | ->]; [apply Hkeep; reflexivity|].
    rewrite jobs_after_status_update. apply Hupd.
    apply Forall2_update_where; intros r Hr; constructor. exact Hr.
Qed.

(** Every job row after a step is the row of an upload or comes from a row
    before the step by [row_step]. *)
Lemma step_rows s ev r' :
  In r' (jobs (db (step s ev))) ->
  (exists r, In r (jobs (db s)) /\ row_step ev r r') \/
  (exists jid fname msize diar align now,
     r' = uploaded_row jid fname msize diar align now).
Proof.
  destruct (step_jobs s ev) as (kept & added & -> & Hkept & Hadded).
  intro H. apply in_app_or in H. destruct H as [H | H].
  - left. eapply Forall2_in_right; eassumption.
  - right. rewrite Forall_forall in Hadded.
    destruct (Hadded _ H) as (fn & ms & di & al & now & ->).
    do 6 eexists. reflexivity.
Qed.

End Lifecycle.

Lemma described_ret {A} (a : A) : raises_described (Ret a).
Proof. intros e H. discriminate H. Qed.

Lemma described_bind {A B} (m : py A) (k : A -> py B) :
  raises_described m -> (forall a, raises_described (k a)) ->
  raises_described (py_bind m k).
Proof.
  intros Hm Hk e. destruct m as [a|e']; simpl.
  - apply Hk.
  - intro H. inversion H. subst. apply Hm. reflexivity.
Qed.

Lemma described_mapM {A B} (f : A -> py B) xs :
  (forall x, raises_described (f x)) -> raises_described (py_mapM f xs).
Proof.
  intro Hf. induction xs as [|x xs IH]; simpl.
  - apply described_ret.
  - apply described_bind; [apply Hf | intro].
    apply described_bind; [exact IH | intro]. apply described_ret.
Qed.

Lemma described_py_get o k dflt : raises_described (py_get o k dflt).
Proof.
  intros e. destruct o; simpl; intro H; inversion H; simpl; discriminate.
Qed.

Lemma described_py_iter o : raises_described (py_iter o).
Proof.
  intros e. destruct o; simpl; intro H; inversion H; simpl; discriminate.
Qed.

Lemma described_py_join_from sep items :
  forall i, raises_described (py_join_from i sep items).
Proof.
  induction items as [|v items IH]; intro i; simpl.
  - apply described_ret.
  - destruct v; try (intros e H; inversion H; simpl; discriminate).
    destruct items as [|v' items']; [apply described_ret|].
    apply described_bind; [apply IH | intro; apply described_ret].
Qed.

Lemma py_gt_eq a b :
  py_gt a b
  = match as_number a, as_number b with
    | Some x, Some y => Ret (Qlt_bool y x)
    | _, _ =>
        match a, b with
        | PStr s, PStr t => Ret (String.ltb t s)
        | PList la, PList lb =>
            (fix list_gt (la lb : list pyval) {struct la} : py bool :=
               match la, lb with
               | [], _ => Ret false
               | _ :: _, [] => Ret true
               | x :: la', y :: lb' =>
                   if py_eq x y then list_gt la' lb' else py_gt x y
               end) la lb
        | _, _ =>
            Exc (TypeError ("'>' not supported between instances of '"
                              ++ type_name a ++ "' and '" ++ type_name b
                              ++ "'"))
        end
    end.
Proof. destruct a; reflexivity. Qed.

Lemma described_py_gt_fuel n : forall a b,
  (pyval_depth a <= n)%nat -> raises_described (py_gt a b).
Proof.
  induction n as [|n IH]; intros a b Hd.
  - destruct a; simpl in Hd; lia.
  - rewrite py_gt_eq.
    destruct (as_number a) as [x|] eqn:Ea.
    + destruct (as_number b) as [y|] eqn:Eb; [apply described_ret|].
      destruct a; try discriminate Ea;
        destruct b; try discriminate Eb;
        intros e H; inversion H; simpl; discriminate.
    + destruct a; try discriminate Ea;
        try (destruct b; intros e H; inversion H; simpl; discriminate).
      destruct b as [| | | | |lb|];
        try (intros e H; inversion H; simpl; discriminate).
      simpl in Hd. revert lb.
      induction l as [|x la IHl]; intro lb; [apply described_ret|].
      destruct lb as [|y lb]; [apply described_ret|].
      simpl in Hd.
      destruct (py_eq x y).
      * apply IHl; [lia | reflexivity].
      * apply IH. lia.
Qed.

Lemma described_py_gt a b : raises_described (py_gt a b).
Proof. eapply described_py_gt_fuel. apply Nat.le_refl. Qed.

Lemma described_py_max_from rest :
  forall best, raises_described (py_max_from best rest).
Proof.
  induction rest as [|v rest IH]; intro best; simpl.
  - apply described_ret.
  - apply described_bind; [apply described_py_gt | intro; apply IH].
Qed.

Lemma described_py_max items : raises_described (py_max items).
Proof.
  destruct items; simpl.
  - intros e H. inversion H. simpl. discriminate.
  - apply described_py_max_from.
Qed.

Create HintDb described.

#[export] Hint Resolve described_ret described_py_get described_py_iter
  described_py_join_from described_py_max described_mapM : described.

Ltac described :=
  repeat (apply described_bind; [solve [auto with described] | intro]);
  auto with described.

Lemma described_convert_word w : raises_described (Jobs.convert_word w).
Proof. unfold Jobs.convert_word. described. Qed.

Lemma described_convert_segment x : raises_described (Jobs.convert_segment x).
Proof.
  unfold Jobs.convert_segment.
  repeat (apply described_bind; [solve [auto with described] | intro]).
  apply described_bind;
    [apply described_mapM, described_convert_word | intro].
  apply described_ret.
Qed.

(** An exception of the conversion has a description. *)
Lemma described_convert_result result elapsed :
  raises_described (Jobs.convert_result result elapsed).
Proof.
  unfold Jobs.convert_result, py_join.
  repeat (apply described_bind; [solve [auto with described] | intro]).
  apply described_bind;
    [apply described_mapM, described_convert_segment | intro].
  apply described_bind; [|intro; apply described_ret].
  destruct (py_truthy a); [|apply described_ret]. described.
Qed.

Lemma job_id_is_text jid r :
  job_id_is jid r = true -> job_id r = SText jid.
Proof.
  unfold job_id_is. destruct (job_id r); try discriminate.
  intro H. apply String.eqb_eq in H. congruence.
Qed.

Lemma given_described msg :
  msg <> "" -> DatabaseManager.given (Some msg) = Some msg.
Proof.
  intro H. unfold DatabaseManager.given.
  apply String.eqb_neq in H. rewrite H. reflexivity.
Qed.

Lemma never_cleared_refl r : never_cleared r r.
Proof. repeat split; auto. Qed.

Lemma never_cleared_trans r1 r2 r3 :
  never_cleared r1 r2 -> never_cleared r2 r3 -> never_cleared r1 r3.
Proof.
  intros (H1 & H2 & H3 & H4) (H1' & H2' & H3' & H4').
  repeat split; try congruence; auto.
Qed.

Lemma row_step_never_cleared ev r r' : row_step ev r r' -> never_cleared r r'.
Proof.
  intro H. inversion H; subst; try (repeat split; auto; discriminate);
    unfold status_update; destruct (DatabaseManager.given _);
    repeat split; auto; simpl; discriminate.
Qed.

Lemma Forall2_trans_rel {A} (R : A -> A -> Prop) :
  (forall x y z, R x y -> R y z -> R x z) ->
  forall xs ys zs, Forall2 R xs ys -> Forall2 R ys zs -> Forall2 R xs zs.
Proof.
  intros HR xs. induction xs as [|x xs IH]; intros ys zs H1 H2;
    inversion H1; subst; inversion H2; subst; constructor; eauto.
Qed.

Section Invariant.
Context {V : Pydantic}.

Lemma run_snoc evs ev s : run (evs ++ [ev]) s = step (run evs s) ev.
Proof. unfold run. rewrite fold_left_app. reflexivity. Qed.

Lemma run_app evs evs' s : run (evs ++ evs') s = run evs' (run evs s).
Proof. unfold run. apply fold_left_app. Qed.

(** A property of the job rows that every permitted step keeps holds after
    every permitted trace. *)
Lemma run_rows (P : JobRow -> Prop) (ok : event -> bool) :
  (forall jid fname msize diar align now,
     P (uploaded_row jid fname msize diar align now)) ->
  (forall ev r r', ok ev = true -> row_step ev r r' -> P r -> P r') ->
  forall evs r,
    forallb ok evs = true ->
    In r (jobs (db (run evs initial))) -> P r.
Proof.
  intros Hnew Hstep evs. induction evs as [|ev evs IH] using rev_ind;
    intros r Hok Hin.
  - destruct Hin.
  - rewrite forallb_app in Hok. apply andb_prop in Hok.
    destruct Hok as [Hok Hev]. simpl in Hev. rewrite andb_true_r in Hev.
    rewrite run_snoc in Hin. apply step_rows in Hin.
    destruct Hin as [(r0 & Hin0 & Hrs) | (j & fn & ms & di & al & now & ->)].
    + eapply Hstep; [exact Hev | exact Hrs | apply IH; assumption].
    + apply Hnew.
Qed.

(** No trace deletes a job row, moves it, or clears its error message or
    its result. *)
Lemma run_keeps evs : forall s,
  exists kept added,
    jobs (db (run evs s)) = kept ++ added /\
    Forall2 never_cleared (jobs (db s)) kept.
Proof.
  induction evs as [|ev evs IH]; intro s.
  - exists (jobs (db s)), []. rewrite app_nil_r. split; [reflexivity|].
    apply Forall2_same. apply never_cleared_refl.
  - change (run (ev :: evs) s) with (run evs (step s ev)).
    destruct (IH (step s ev)) as (kept2 & added2 & H2 & Hk2).
    destruct (step_jobs s ev) as (kept1 & added1 & H1 & Hk1 & _).
    rewrite H1 in Hk2. apply Forall2_app_inv_l in Hk2.
    destruct Hk2 as (k2a & k2b & Ha & Hb & ->).
    exists k2a, (k2b ++ added2). split; [rewrite H2, app_assoc; reflexivity|].
    eapply Forall2_trans_rel; [| |exact Ha].
    + intros x y z Hxy Hyz. eapply never_cleared_trans; eassumption.
    + eapply Forall2_impl; [|exact Hk1]. apply row_step_never_cleared.
Qed.

End Invariant.

Lemma forallb_true {A} (xs : list A) : forallb (fun _ => true) xs = true.
Proof. induction xs; simpl; auto. Qed.

Lemma existsb_false_forallb {A} (f : A -> bool) xs :
  existsb f xs = false -> forallb (fun x => negb (f x)) xs = true.
Proof.
  induction xs as [|x xs IH]; simpl; [reflexivity|].
  intro H. apply orb_false_elim in H. destruct H as [-> H].
  simpl. apply IH. exact H.
Qed.

Lemma status_update_failed msg now r :
  status (status_update "failed" msg now r) = "failed".
Proof. unfold status_update. destruct (DatabaseManager.given msg); reflexivity. Qed.

Lemma status_update_described st msg now r :
  msg <> "" ->
  error_message (status_update st (Some msg) now r) = Some msg.
Proof.
  intro H. unfold status_update. rewrite (given_described H). reflexivity.
Qed.

Lemma job_id_status_update st msg now r :
  job_id (status_update st msg now r) = job_id r.
Proof. unfold status_update. destruct (DatabaseManager.given msg); reflexivity. Qed.

Lemma row_step_job_id ev r r' : row_step ev r r' -> job_id r' = job_id r.
Proof.
  intro H. inversion H; subst; try reflexivity;
    rewrite job_id_status_update; reflexivity.
Qed.

(** The row of a job after more events, found by its id. *)
Lemma find_never_cleared jid rows : forall kept added job,
  Forall2 never_cleared rows kept ->
  find (job_id_is jid) rows = Some job ->
  exists job',
    find (job_id_is jid) (kept ++ added) = Some job' /\
    never_cleared job job'.
Proof.
  induction rows as [|r rows IH]; intros kept added job H Hf;
    [discriminate|].
  inversion H as [|? r' ? kept' Hr Hrest]. subst. simpl in *.
  assert (Hid : job_id_is jid r' = job_id_is jid r).
  { unfold job_id_is. destruct Hr as (-> & _). reflexivity. }
  rewrite Hid. destruct (job_id_is jid r).
  - inversion Hf. subst. exists r'. split; [reflexivity | exact Hr].
  - apply IH; assumption.
Qed.

Section StatusInvariant.
Context {V : Pydantic}.


End StatusInvariant.



(** ** Failures of the background task *)

(** When the engine raises an exception that derives from [Exception] and
    has a description, the job is failed afterwards and its error message
    is that description. *)
Lemma engine_failure_recorded d jid language e elapsed now job :
  DatabaseManager.get_job d jid = Some job ->
  is_Exception e = true ->
  exc_str e <> "" ->
  exists job',
    DatabaseManager.get_job
      (Jobs.process_audio_job_finish d jid language (Raised e) elapsed now)
      jid = Some job' /\
    status job' = "failed" /\
    error_message job' = Some (exc_str e).
Proof.
  intros Hjob Hex He. unfold Jobs.process_audio_job_finish. rewrite Hex.
  destruct (save_job_result_cases d jid
              (Jobs.partial_result language elapsed e) now)
    as [-> | (d' & -> & Hsaved)]; cbn [snd].
  - erewrite get_job_after_update by eassumption. eexists.
    split; [reflexivity|]. split.
    + apply status_update_failed.
    + apply status_update_described. exact He.
  - destruct Hsaved as (dd & p & du & l & c & segs & ss & words & ws & _
                          & _ & _ & _ & _ & Hj & _).
    assert (Hjob' : DatabaseManager.get_job d' jid
                    = Some (set_result p du l c
                              (Jobs.partial_result language elapsed e) now
                              job)).
    { rewrite get_job_eq in *. rewrite Hj.
      rewrite find_update_where by reflexivity. rewrite Hjob. reflexivity. }
    erewrite get_job_after_update by eassumption. eexists.
    split; [reflexivity|]. split.
    + apply status_update_failed.
    + apply status_update_described. exact He.
Qed.

(** Whatever is raised by the conversion of the engine's result, and
    whatever exception deriving from [Exception] is raised by the engine,
    the job is failed afterwards, not processing.  An exception of the
    engine that derives from [BaseException] only is not caught, and the
    job stays as it was. *)
Lemma raise_marks_failed d jid language outcome elapsed now job :
  DatabaseManager.get_job d jid = Some job ->
  match outcome with
  | Raised e => is_Exception e = true
  | Returned result =>
      exists e, Jobs.convert_result result elapsed = Exc e
  end ->
  exists job',
    DatabaseManager.get_job
      (Jobs.process_audio_job_finish d jid language outcome elapsed now)
      jid = Some job' /\
    status job' = "failed".
Proof.
  intros Hjob Hout. unfold Jobs.process_audio_job_finish.
  destruct outcome as [result | e].
  - destruct Hout as (e & ->).
    erewrite get_job_after_update by eassumption. eexists.
    split; [reflexivity | apply status_update_failed].
  - rewrite Hout.
    destruct (save_job_result_cases d jid
                (Jobs.partial_result language elapsed e) now)
      as [-> | (d' & -> & Hsaved)]; cbn [snd].
    + erewrite get_job_after_update by eassumption. eexists.
      split; [reflexivity | apply status_update_failed].
    + destruct Hsaved as (dd & p & du & l & c & segs & ss & words & ws & _
                            & _ & _ & _ & _ & Hj & _).
      assert (Hjob' : DatabaseManager.get_job d' jid
                      = Some (set_result p du l c
                                (Jobs.partial_result language elapsed e) now
                                job)).
      { rewrite get_job_eq in *. rewrite Hj.
        rewrite find_update_where by reflexivity. rewrite Hjob.
        reflexivity. }
      erewrite get_job_after_update by eassumption. eexists.
      split; [reflexivity | apply status_update_failed].
Qed.

(** C3, the code where the claim fails: the second failure of job "abc" is
    an exception without a description; the job is failed, and its error
    message is still the "decode error" of the first failure, not the
    description of the cause.  On a new job such a failure leaves no error
    message at all. *)
Theorem undescribed_failure_leaves_old_message :
  let s := run (V:=plain_pydantic) trace_second_failure initial in
  exc_str silent_error = "" /\
  map status (jobs (db s)) = ["failed"] /\
  map error_message (jobs (db s)) = [Some "decode error"] /\
  map error_message
    (jobs (Jobs.process_audio_job_finish processing_abc "abc" PNone
             (Raised silent_error) (1 # 2) 12))
  = [None].
Proof. vm_compute. repeat split. Qed.

(** A save that fails at its second speaker segment, after the update of
    the job row and the first insert: it reports failure, the database is
    as before, and no reader has seen anything else. *)
Example save_job_result_rolls_back :
  DatabaseManager.save_job_result processing_abc "abc" result_with_null_text
    12 = (false, processing_abc) /\
  DatabaseManager.save_job_result_observed processing_abc "abc"
    result_with_null_text 12
  = [processing_abc; processing_abc; processing_abc; processing_abc].
Proof. vm_compute. split; reflexivity. Qed.

(** A save that goes through: the readers see the old state until the
    commit and the new one from then on. *)
Example save_job_result_commits_once :
  exists d',
    DatabaseManager.save_job_result processing_abc "abc"
      (Jobs.partial_result PNone (3 # 2) decode_error) 12 = (true, d') /\
    DatabaseManager.save_job_result_observed processing_abc "abc"
      (Jobs.partial_result PNone (3 # 2) decode_error) 12
    = [processing_abc; d'; d'] /\
    map status (jobs d') = ["completed"].
Proof. eexists. vm_compute. repeat split. Qed.

(** A completed job as [get_job] and [list_jobs] show it, next to a
    processing one. *)
Example completed_job_shows_full_progress :
  let d := Jobs.process_audio_job_finish processing_abc "abc" PNone
             (Returned result_with_null_speaker) (3 # 2) 12 in
  (exists r,
     Jobs.get_job (V:=plain_pydantic) d "abc" = Response r /\
     JobResponse.status r = JobStatus.COMPLETED /\
     JobResponse.progress r = 1%Q /\
     JobResponse.current_stage r = Some ProcessingStage.COMPLETED) /\
  (exists r,
     Jobs.get_job (V:=plain_pydantic) processing_abc "abc" = Response r /\
     JobResponse.status r = JobStatus.PROCESSING /\
     JobResponse.progress r = 0%Q /\
     JobResponse.current_stage r = Some ProcessingStage.UPLOAD) /\
  (exists l,
     Jobs.list_jobs (V:=plain_pydantic) d 1 10 (Some JobStatus.COMPLETED)
     = Response l /\
     map JobResponse.progress (JobListResponse.jobs l) = [1%Q] /\
     JobListResponse.total l = 1).
Proof.
  vm_compute. repeat split; eexists; repeat split.
Qed.

(** The scenario of the specification: after the failed execution, retry
    makes job "abc" pending, cancel makes it cancelled, and a second retry
    is refused. *)
Example scenario_abc :
  let s1 := run (V:=plain_pydantic) trace_abc initial in
  let s2 := snd (Jobs.retry_job (V:=plain_pydantic) s1 "abc" 13) in
  let s3 := snd (Jobs.cancel_job s2 "abc" 14) in
  map status (jobs (db s1)) = ["failed"] /\
  map status (jobs (db s2)) = ["pending"] /\
  map status (jobs (db s3)) = ["cancelled"] /\
  Jobs.retry_job (V:=plain_pydantic) s3 "abc" 15
  = (HTTPException 400 "Only failed jobs can be retried", s3).
Proof. vm_compute. repeat split. Qed.

(** A save that is refused is only logged: the engine's segment carries
    [None] as its speaker, the NOT NULL column refuses the row, nothing is
    stored, and the job stays as the first half of the task left it. *)
Example refused_save_leaves_job_processing :
  Jobs.process_audio_job_finish processing_abc "abc" PNone
    (Returned result_with_null_segment_speaker) (3 # 2) 12
  = processing_abc.
Proof. vm_compute. reflexivity. Qed.

(** ** More of the job store *)

Lemma py_getitem_ret o k v :
  py_getitem o k = Ret v -> exists d, o = PDict d /\ dict_lookup k d = Some v.
Proof.
  destruct o; simpl; try discriminate.
  destruct (dict_lookup k d) as [v'|] eqn:L; [|discriminate].
  intro H. inversion H. subst. eexists. split; [reflexivity | exact L].
Qed.

Lemma sqlval_eqb_text jid r :
  sqlval_eqb (job_id r) (SText jid) = job_id_is jid r.
Proof. unfold job_id_is. destruct (job_id r); reflexivity. Qed.

Lemma existsb_find_none {A} (f : A -> bool) xs :
  existsb f xs = false <-> find f xs = None.
Proof.
  induction xs as [|x xs IH]; simpl; [tauto|].
  destruct (f x); simpl; [split; discriminate | exact IH].
Qed.

Lemma existsb_same {A} (f g : A -> bool) xs :
  (forall x, f x = g x) -> existsb f xs = existsb g xs.
Proof.
  intro H. induction xs as [|x xs IH]; simpl; [reflexivity|].
  rewrite H, IH. reflexivity.
Qed.

Lemma find_app_last {A} (f : A -> bool) xs x :
  find f xs = None -> f x = true -> find f (xs ++ [x]) = Some x.
Proof.
  induction xs as [|y xs IH]; simpl; intros Hn Hx.
  - rewrite Hx. reflexivity.
  - destruct (f y); [discriminate | auto].
Qed.

(** What a successful [create_job] has read, bound and inserted. *)
Lemma create_job_true d job_data now d' :
  DatabaseManager.create_job d job_data now = (true, d') ->
  exists dd jidp fnp jid fname msize diar align lang,
    job_data = PDict dd /\
    dict_lookup "job_id" dd = Some jidp /\
    dict_lookup "filename" dd = Some fnp /\
    bind_param jidp = Ret jid /\
    bind_param fnp = Ret fname /\
    bind_param (get_or dd "model_size" (PStr "large-v2")) = Ret msize /\
    bind_param (get_or dd "enable_diarization" (PBool true)) = Ret diar /\
    bind_param (get_or dd "enable_alignment" (PBool true)) = Ret align /\
    bind_param (get_or dd "language" PNone) = Ret lang /\
    negb (is_null jid)
      && existsb (fun r => sqlval_eqb (job_id r) jid) (jobs d) = false /\
    d' = mkDatabase
           (jobs d ++ [created_row jid fname msize diar align lang now])
           (speaker_segments d) (word_segments d).
Proof.
  unfold DatabaseManager.create_job, with_connection.
  destruct (DatabaseManager.create_job_tx job_data now (mkConn d d []))
    as [[b|e] c'] eqn:E; simpl; [|discriminate].
  intro H. inversion H. subst b d'. clear H.
  unfold DatabaseManager.create_job_tx in E.
  apply tx_bind_ret in E. destruct E as (jidp & c1 & E1 & E).
  apply tx_lift_ret in E1. destruct E1 as [E1 ->].
  apply py_getitem_ret in E1. destruct E1 as (dd & -> & Ljid).
  apply tx_bind_ret in E. destruct E as (fnp & c1 & E1 & E).
  apply tx_lift_ret in E1. destruct E1 as [E1 ->].
  apply py_getitem_ret in E1. destruct E1 as (dd' & Hdd & Lfn).
  inversion Hdd. subst dd'. clear Hdd.
  tx_inv.
  match goal with
  | Hc : commit _ = (Ret _, _) |- _ =>
      unfold commit in Hc; inversion Hc; clear Hc; subst
  end.
  match goal with
  | Hi : sql_insert_job _ _ _ _ _ _ _ _ = Ret _ |- _ =>
      unfold sql_insert_job in Hi;
      match type of Hi with
      | (if ?b then _ else _) = _ =>
          destruct b eqn:Hdup; [discriminate Hi|]
      end;
      inversion Hi as [Hw]
  end.
  simpl in *.
  match goal with
  | Ld : dict_lookup "job_id" ?dict = _ |- _ => exists dict, jidp, fnp
  end.
  do 6 eexists. repeat split; try eassumption.
Qed.

(** A successful [create_job] under a text id: no row had the id, and the
    new row is the last one. *)
Lemma create_job_true_text d job_data jid now d' :
  py_getitem job_data "job_id" = Ret (PStr jid) ->
  DatabaseManager.create_job d job_data now = (true, d') ->
  find (job_id_is jid) (jobs d) = None /\
  exists fname msize diar align lang,
    d' = mkDatabase
           (jobs d ++ [created_row (SText jid) fname msize diar align lang now])
           (speaker_segments d) (word_segments d).
Proof.
  intros Hid Hc. apply create_job_true in Hc.
  destruct Hc as (dd & jidp & fnp & jidv & fname & msize & diar & align
                    & lang & -> & Ljid & _ & Bjid & _ & _ & _ & _ & _
                    & Hdup & ->).
  simpl in Hid. rewrite Ljid in Hid. inversion Hid. subst jidp. clear Hid.
  simpl in Bjid. inversion Bjid. subst jidv. clear Bjid.
  simpl in Hdup. split.
  - apply existsb_find_none. rewrite <- Hdup. apply existsb_same.
    intro r. symmetry. apply sqlval_eqb_text.
  - do 5 eexists. reflexivity.
Qed.

(** X1.  A job that [create_job] has inserted is what [get_job] finds under
    its id: a pending row, created and updated at the time of insertion,
    with no result, no error message and no measurements, added after the
    rows that were there; no row had the id before, and the segment tables
    are untouched. *)
Theorem create_job_then_get_job d job_data jid now d' :
  py_getitem job_data "job_id" = Ret (PStr jid) ->
  DatabaseManager.create_job d job_data now = (true, d') ->
  DatabaseManager.get_job d jid = None /\
  exists row,
    DatabaseManager.get_job d' jid = Some row /\
    jobs d' = jobs d ++ [row] /\
    job_id row = SText jid /\
    status row = "pending" /\
    created_at row = now /\ updated_at row = now /\
    processing_time row = SNull /\ audio_duration row = SNull /\
    confidence row = SNull /\
    error_message row = None /\ result_data row = None /\
    speaker_segments d' = speaker_segments d /\
    word_segments d' = word_segments d.
Proof.
  intros Hid Hc.
  destruct (@create_job_true_text _ _ _ _ _ Hid Hc)
    as (Hnone & fname & msize & diar & align & lang & ->).
  split; [exact Hnone|].
  eexists. split; [|repeat split].
  rewrite get_job_eq. simpl. apply find_app_last; [exact Hnone|].
  unfold job_id_is. simpl. apply String.eqb_refl.
Qed.

(** X2.  [create_job] refuses a job_id that is in the table already: it
    reports failure and the database is as it was. *)
Theorem create_job_refuses_known_id d job_data jid now job :
  py_getitem job_data "job_id" = Ret (PStr jid) ->
  DatabaseManager.get_job d jid = Some job ->
  DatabaseManager.create_job d job_data now = (false, d).
Proof.
  intros Hid Hjob.
  destruct (create_job_cases d job_data now)
    as [Hf | (j & fn & ms & di & al & la & Ht)]; [exact Hf|].
  exfalso.
  destruct (@create_job_true_text _ _ _ _ _ Hid Ht) as [Hnone _].
  rewrite get_job_eq in Hjob. congruence.
Qed.

(** X3.  [create_job] reports failure and leaves the database as it was
    when [job_data] is no dict or has no job_id or no filename: the
    [KeyError] is caught like any other exception. *)
Theorem create_job_refuses_missing_key d job_data now k e :
  k = "job_id" \/ k = "filename" ->
  py_getitem job_data k = Exc e ->
  DatabaseManager.create_job d job_data now = (false, d).
Proof.
  intros Hk He.
  destruct (create_job_cases d job_data now)
    as [Hf | (j & fn & ms & di & al & la & Ht)]; [exact Hf|].
  exfalso. apply create_job_true in Ht.
  destruct Ht as (dd & jidp & fnp & _ & _ & _ & _ & _ & _ & -> & Ljid & Lfn
                    & _).
  simpl in He. destruct Hk as [-> | ->].
  - rewrite Ljid in He. discriminate.
  - rewrite Lfn in He. discriminate.
Qed.

Lemma insert_desc_in r rows r' :
  r' = r \/ In r' rows -> In r' (DatabaseManager.insert_desc r rows).
Proof.
  induction rows as [|x rows IH]; simpl.
  - intros [-> | []]. left. reflexivity.
  - destruct (created_at x <=? created_at r); simpl.
    + intros [-> | [-> | H]]; auto.
    + intros [-> | [-> | H]]; auto.
Qed.

Lemma order_by_in r rows :
  In r rows -> In r (DatabaseManager.order_by_created_at_desc rows).
Proof.
  induction rows as [|x rows IH]; simpl; [tauto|].
  intros [-> | H]; apply insert_desc_in; auto.
Qed.

Lemma insert_desc_sorted r rows :
  StronglySorted newer_or_same rows ->
  StronglySorted newer_or_same (DatabaseManager.insert_desc r rows).
Proof.
  induction rows as [|x rows IH]; simpl; intro H.
  - constructor; constructor.
  - inversion H as [|? ? Hs Hall]. subst.
    destruct (created_at x <=? created_at r) eqn:E.
    + apply Z.leb_le in E. constructor; [exact H|].
      constructor; [exact E|].
      eapply Forall_impl; [|exact Hall]. unfold newer_or_same. intros. lia.
    + apply Z.leb_gt in E. constructor; [apply IH; exact Hs|].
      apply Forall_forall. intros y Hy. apply in_insert_desc in Hy.
      destruct Hy as [-> | Hy].
      * unfold newer_or_same. lia.
      * rewrite Forall_forall in Hall. apply Hall. exact Hy.
Qed.

Lemma order_by_sorted rows :
  StronglySorted newer_or_same
    (DatabaseManager.order_by_created_at_desc rows).
Proof.
  induction rows as [|x rows IH]; simpl.
  - constructor.
  - apply insert_desc_sorted. exact IH.
Qed.

Lemma skipn_sorted {A} (R : A -> A -> Prop) n : forall l,
  StronglySorted R l -> StronglySorted R (skipn n l).
Proof.
  induction n as [|n IH]; intros l H; [exact H|].
  destruct l as [|x l]; [exact H|]. simpl.
  inversion H. apply IH. assumption.
Qed.

Lemma firstn_sorted {A} (R : A -> A -> Prop) n : forall l,
  StronglySorted R l -> StronglySorted R (firstn n l).
Proof.
  induction n as [|n IH]; intros l H; [constructor|].
  destruct l as [|x l]; [constructor|]. simpl.
  inversion H as [|? ? Hs Hall]. subst. constructor; [apply IH; exact Hs|].
  apply Forall_forall. intros y Hy. apply in_firstn in Hy.
  rewrite Forall_forall in Hall. apply Hall. exact Hy.
Qed.

Lemma matching_status flt s r rows :
  flt = Some s -> s <> "" ->
  In r (DatabaseManager.matching flt rows) -> status r = s.
Proof.
  intros -> Hs. unfold DatabaseManager.matching.
  apply String.eqb_neq in Hs. rewrite Hs. intro H.
  apply filter_In in H. destruct H as [_ H]. apply String.eqb_eq. exact H.
Qed.

(** X4.  A page of [get_jobs] holds rows of the table only, every one with
    the status asked for when a status is given, newest first, and no more
    of them than the limit. *)
Theorem get_jobs_page_is_sorted_and_filtered d limit offset flt :
  let page := DatabaseManager.get_jobs d limit offset flt in
  (forall r, In r page -> In r (jobs d)) /\
  (forall r s, flt = Some s -> s <> "" -> In r page -> status r = s) /\
  StronglySorted newer_or_same page /\
  (0 <= limit -> Z.of_nat (List.length page) <= limit).
Proof.
  rewrite get_jobs_eq. cbv zeta. repeat split.
  - intros r H. apply in_limit_offset, in_order_by, in_matching in H. exact H.
  - intros r s Hf Hs H. apply in_limit_offset, in_order_by in H.
    eapply matching_status; eassumption.
  - unfold DatabaseManager.limit_offset.
    destruct (limit <? 0).
    + apply skipn_sorted, order_by_sorted.
    + apply firstn_sorted, skipn_sorted, order_by_sorted.
  - intro Hl. unfold DatabaseManager.limit_offset.
    destruct (limit <? 0) eqn:E; [apply Z.ltb_lt in E; lia|].
    rewrite length_firstn. lia.
Qed.

Lemma firstn_then_next {A} n m : forall (l : list A),
  firstn n l ++ firstn m (skipn n l) = firstn (n + m) l.
Proof.
  induction n as [|n IH]; intro l; [reflexivity|].
  destruct l as [|x l]; simpl.
  - rewrite firstn_nil. reflexivity.
  - rewrite IH. reflexivity.
Qed.


(** X6.  [update_job_status] with a non-empty error message writes, in the
    rows of the job, the status, the time and the message, and nothing else;
    other rows and the segment tables stay as they were.  An empty message
    is treated as no message. *)
Theorem update_job_status_with_message d jid st msg now :
  msg <> "" ->
  let d' := snd (DatabaseManager.update_job_status d jid st (Some msg) now) in
  Forall2 (fun r r' =>
             kept_by_status_update r r' /\
             (job_id_is jid r = true ->
              status r' = st /\ updated_at r' = now /\
              error_message r' = Some msg) /\
             (job_id_is jid r = false -> r' = r))
    (jobs d) (jobs d') /\
  speaker_segments d' = speaker_segments d /\
  word_segments d' = word_segments d /\
  DatabaseManager.update_job_status d jid st (Some "") now
  = DatabaseManager.update_job_status d jid st None now.
Proof.
  intro Hm. rewrite !update_job_status_eq. unfold status_update.
  rewrite (given_described Hm). cbn [snd jobs speaker_segments word_segments].
  split; [|repeat split].
  apply Forall2_update_where.
  - intros r Hr. split; [repeat split|]. split.
    + intros _. repeat split.
    + intro. congruence.
  - intros r Hr. split; [repeat split|]. split.
    + intro. congruence.
    + intros _. reflexivity.
Qed.

Lemma Forall2_right {A B} (R : A -> B -> Prop) (P : B -> Prop) xs ys :
  (forall x y, R x y -> P y) -> Forall2 R xs ys -> Forall P ys.
Proof. intros H. induction 1; constructor; eauto. Qed.

Lemma Forall2_in_left {A B} (R : A -> B -> Prop) xs ys x :
  Forall2 R xs ys -> In x xs -> exists y, In y ys /\ R x y.
Proof.
  induction 1 as [|x' y xs ys Hxy _ IH]; simpl; [tauto|].
  intros [<- | Hin].
  - exists y. split; [left; reflexivity | exact Hxy].
  - destruct (IH Hin) as (y' & Hy' & HR). exists y'.
    split; [right|]; assumption.
Qed.

(** X7.  [save_job_result] touches no other job and deletes nothing: the
    rows of other jobs are as before, the saved job's row keeps its id, its
    creation time, its file name, its options and its error message, the
    segment rows that were there stay in place, and every row added carries
    the job_id.  This holds whether it reports success or failure. *)
Theorem save_job_result_frame d jid result now :
  let d' := snd (DatabaseManager.save_job_result d jid result now) in
  Forall2 (fun r r' => kept_by_save r r' /\
                       (job_id_is jid r = false -> r' = r))
    (jobs d) (jobs d') /\
  exists ss ws,
    speaker_segments d' = speaker_segments d ++ ss /\
    word_segments d' = word_segments d ++ ws /\
    Forall (fun row => ss_job_id row = jid) ss /\
    Forall (fun row => ws_job_id row = jid) ws.
Proof.
  destruct (save_job_result_cases d jid result now)
    as [-> | (d' & -> & Hsaved)]; cbn [snd].
  - split.
    + apply Forall2_same. intros r. split; [repeat split | reflexivity].
    + exists [], []. rewrite !app_nil_r. repeat split; constructor.
  - destruct Hsaved as (dd & p & du & l & c & segs & ss & words & ws & _
                          & _ & _ & _ & _ & Hj & _ & Hss & Hrows & _ & Hws
                          & Hwrows).
    split.
    + rewrite Hj. apply Forall2_update_where.
      * intros r Hr. split; [repeat split | congruence].
      * intros r Hr. split; [repeat split | reflexivity].
    + exists ss, ws. repeat split; try assumption.
      * eapply Forall2_right; [|exact Hrows].
        intros x y (sd & _ & Hjid & _). exact Hjid.
      * eapply Forall2_right; [|exact Hwrows].
        intros x y (wd & _ & Hjid & _). exact Hjid.
Qed.

Lemma items_under_same key result items items' :
  items_under key result items -> items_under key result items' ->
  items' = items.
Proof.
  intros (d & -> & H) (d' & Hd & H'). inversion Hd. subst d'.
  destruct (dict_lookup key d); congruence.
Qed.

Lemma bind_param_none v col :
  bind_param v = Ret col -> v = PNone -> is_null col = true.
Proof. intros H ->. simpl in H. inversion H. reflexivity. Qed.

Lemma get_or_found d k dflt v :
  dict_lookup k d = Some v -> get_or d k dflt = v.
Proof. unfold get_or. intros ->. reflexivity. Qed.

(** X8.  [save_job_result] refuses a result in which a speaker segment is
    no dict or has [None] as its speaker, start, end or text, and one in
    which a word segment is no dict or has [None] as its word, start or
    end: it reports failure and the database is as it was, whatever came
    before the offending item. *)
Theorem save_job_result_refuses_null_columns d jid result now :
  (forall segs seg,
     items_under "speaker_segments" result segs -> In seg segs ->
     holds_none ["speaker"; "start"; "end"; "text"] seg = true ->
     DatabaseManager.save_job_result d jid result now = (false, d)) /\
  (forall words word,
     items_under "word_segments" result words -> In word words ->
     holds_none ["word"; "start"; "end"] word = true ->
     DatabaseManager.save_job_result d jid result now = (false, d)).
Proof.
  split.
  - intros segs seg Hu Hin Hn.
    destruct (save_job_result_cases d jid result now)
      as [Hf | (d' & _ & Hsaved)]; [exact Hf | exfalso].
    destruct Hsaved as (dd & p & du & l & c & segs' & ss & words & ws & _
                          & _ & _ & _ & _ & _ & Hu' & _ & Hrows & _).
    rewrite (items_under_same Hu Hu') in Hrows.
    eapply Forall2_in_left in Hin; [|exact Hrows].
    destruct Hin as (row & _ & Hrow).
    destruct Hrow as (sd & -> & _ & B1 & B2 & B3 & B4 & N1 & N2 & N3 & N4).
    simpl in Hn. rewrite !orb_false_r in Hn.
    repeat match type of Hn with
           | (_ || _)%bool = true =>
               apply orb_prop in Hn; destruct Hn as [Hn | Hn]
           end;
      match type of Hn with
      | match dict_lookup ?k sd with _ => _ end = true =>
          destruct (dict_lookup k sd) as [[]|] eqn:L; try discriminate Hn;
          unfold get_or in *; rewrite L in *
      end;
      simpl in *;
      match goal with
      | B : Ret SNull = Ret ?col |- _ =>
          inversion B as [Hcol]; rewrite <- Hcol in *
      end;
      simpl in *; discriminate.
  - intros words word Hu Hin Hn.
    destruct (save_job_result_cases d jid result now)
      as [Hf | (d' & _ & Hsaved)]; [exact Hf | exfalso].
    destruct Hsaved as (dd & p & du & l & c & segs & ss & words' & ws & _
                          & _ & _ & _ & _ & _ & _ & _ & _ & Hu' & _ & Hrows).
    rewrite (items_under_same Hu Hu') in Hrows.
    eapply Forall2_in_left in Hin; [|exact Hrows].
    destruct Hin as (row & _ & Hrow).
    destruct Hrow as (wd & -> & _ & B1 & B2 & B3 & _ & _ & N1 & N2 & N3).
    simpl in Hn. rewrite !orb_false_r in Hn.
    repeat match type of Hn with
           | (_ || _)%bool = true =>
               apply orb_prop in Hn; destruct Hn as [Hn | Hn]
           end;
      match type of Hn with
      | match dict_lookup ?k wd with _ => _ end = true =>
          destruct (dict_lookup k wd) as [[]|] eqn:L; try discriminate Hn;
          unfold get_or in *; rewrite L in *
      end;
      simpl in *;
      match goal with
      | B : Ret SNull = Ret ?col |- _ =>
          inversion B as [Hcol]; rewrite <- Hcol in *
      end;
      simpl in *; discriminate.
Qed.

Lemma dict_lookup_counts s counts :
  dict_lookup s (map (fun sn => (fst sn, PInt (snd sn))) counts)
  = option_map PInt (count_in s counts).
Proof.
  induction counts as [|[t n] counts IH]; simpl; [reflexivity|].
  destruct (String.eqb s t); [reflexivity | exact IH].
Qed.

Lemma count_in_bump s s' counts :
  count_in s' (bump s counts)
  = match count_in s' counts with
    | Some n => Some (if String.eqb s s' then n + 1 else n)
    | None => if String.eqb s s' then Some 1 else None
    end.
Proof.
  induction counts as [|[t n] counts IH]; simpl.
  - rewrite (String.eqb_sym s' s). destruct (String.eqb s s'); reflexivity.
  - destruct (String.eqb s t) eqn:Est; simpl.
    + apply String.eqb_eq in Est. subst t.
      rewrite (String.eqb_sym s' s).
      destruct (String.eqb s s') eqn:E; [reflexivity|].
      destruct (count_in s' counts); reflexivity.
    + destruct (String.eqb s' t) eqn:Et.
      * apply String.eqb_eq in Et. subst t. rewrite Est. reflexivity.
      * exact IH.
Qed.

Lemma count_in_group_by_status s rows :
  count_in s (group_by_status rows)
  = if count_status s rows =? 0 then None else Some (count_status s rows).
Proof.
  unfold count_status. induction rows as [|r rows IH]; simpl; [reflexivity|].
  rewrite count_in_bump, IH. clear IH.
  set (n := List.length (filter (fun r0 => String.eqb (status r0) s) rows)).
  destruct (String.eqb (status r) s) eqn:E; simpl List.length; fold n.
  - replace (Z.of_nat (S n) =? 0) with false
      by (symmetry; apply Z.eqb_neq; lia).
    destruct (Z.of_nat n =? 0) eqn:Z0.
    + apply Z.eqb_eq in Z0. f_equal. lia.
    + f_equal. lia.
  - destruct (Z.of_nat n =? 0); reflexivity.
Qed.

Lemma lookup_group_by_status s rows :
  dict_lookup s
    (map (fun sn => (fst sn, PInt (snd sn))) (group_by_status rows))
  = if count_status s rows =? 0 then None
    else Some (PInt (count_status s rows)).
Proof.
  rewrite dict_lookup_counts, count_in_group_by_status.
  destruct (count_status s rows =? 0); reflexivity.
Qed.

Lemma sum_counts_bump s counts :
  sum_counts (map (fun sn => (fst sn, PInt (snd sn))) (bump s counts))
  = sum_counts (map (fun sn => (fst sn, PInt (snd sn))) counts) + 1.
Proof.
  induction counts as [|[t n] counts IH]; simpl; [reflexivity|].
  destruct (String.eqb s t); simpl.
  - unfold sum_counts. simpl. lia.
  - unfold sum_counts in *. simpl. rewrite IH. lia.
Qed.

Lemma sum_group_by_status rows :
  sum_counts (map (fun sn => (fst sn, PInt (snd sn))) (group_by_status rows))
  = Z.of_nat (List.length rows).
Proof.
  induction rows as [|r rows IH]; simpl List.length; [reflexivity|].
  simpl group_by_status. rewrite sum_counts_bump, IH. lia.
Qed.

Lemma py_or_not_none x dflt : dflt <> PNone -> py_or x dflt <> PNone.
Proof.
  unfold py_or. intro H. destruct x; simpl; try exact H.
  - destruct b; [discriminate | exact H].
  - destruct (negb (z =? 0)); [discriminate | exact H].
  - destruct (Qnonzero q); [discriminate | exact H].
  - destruct (negb (String.eqb s "")); [discriminate | exact H].
  - destruct l; [exact H | discriminate].
  - destruct d; [exact H | discriminate].
Qed.

(** X9.  The statistics of [get_job_stats] are consistent: [total_jobs] is
    the number of rows; [jobs_by_status] has, for every status, the number
    of jobs with that status, and no entry for a status no job has; its
    counts add up to [total_jobs]; the number of recent jobs is between 0
    and [total_jobs]; and the average is never [None]. *)
Theorem get_job_stats_counts_add_up sqlite_avg one_day d now :
  exists hist avg recent,
    get_job_stats sqlite_avg one_day d now
    = PDict [ ("total_jobs", PInt (Z.of_nat (List.length (jobs d))));
              ("jobs_by_status", PDict hist);
              ("avg_processing_time", avg);
              ("recent_jobs_24h", PInt recent) ] /\
    (forall s,
       dict_lookup s hist
       = if count_status s (jobs d) =? 0 then None
         else Some (PInt (count_status s (jobs d)))) /\
    sum_counts hist = Z.of_nat (List.length (jobs d)) /\
    0 <= recent <= Z.of_nat (List.length (jobs d)) /\
    avg <> PNone.
Proof.
  do 3 eexists. split; [reflexivity|]. simpl. repeat split.
  - intro s. apply lookup_group_by_status.
  - apply sum_group_by_status.
  - lia.
  - apply Nat2Z.inj_le. apply filter_length_le.
  - apply py_or_not_none. discriminate.
Qed.

(** ** More of the endpoints *)

Lemma service_eta s : mkService (db s) (scheduled s) (running s) = s.
Proof. destruct s; reflexivity. Qed.

(** [create_job] as [upload_and_process] calls it, for an id no row has. *)
Lemma create_job_fresh d jid fname msize diar align now :
  DatabaseManager.get_job d jid = None ->
  DatabaseManager.create_job d
    (PDict [ ("job_id", PStr jid);
             ("filename", PStr fname);
             ("model_size", Jobs.opt_str msize);
             ("enable_diarization", PBool diar);
             ("enable_alignment", PBool align) ]) now
  = (true,
     mkDatabase (jobs d ++ [uploaded_row jid fname msize diar align now])
       (speaker_segments d) (word_segments d)).
Proof.
  intro Hnone. rewrite get_job_eq in Hnone.
  apply existsb_find_none in Hnone.
  rewrite (existsb_same _ (fun r => sqlval_eqb (job_id r) (SText jid))) in Hnone
    by (intro r; symmetry; apply sqlval_eqb_text).
  unfold DatabaseManager.create_job, with_connection,
    DatabaseManager.create_job_tx, DatabaseManager.bind.
  destruct msize as [m|];
    unfold tx_bind, tx_lift, tx_ret, execute, commit, observe,
      sql_insert_job, get_or, except_return;
    simpl; rewrite Hnone; destruct diar, align; reflexivity.
Qed.

Lemma create_job_known d jid fname msize diar align now job :
  DatabaseManager.get_job d jid = Some job ->
  DatabaseManager.create_job d
    (PDict [ ("job_id", PStr jid);
             ("filename", PStr fname);
             ("model_size", Jobs.opt_str msize);
             ("enable_diarization", PBool diar);
             ("enable_alignment", PBool align) ]) now
  = (false, d).
Proof.
  intro Hjob.
  match goal with
  | |- DatabaseManager.create_job d ?jd now = _ =>
      destruct (create_job_cases d jd now)
        as [Hf | (j & fn & ms & di & al & la & Ht)]; [exact Hf|];
      exfalso;
      assert (Hid : py_getitem jd "job_id" = Ret (PStr jid)) by reflexivity;
      destruct (@create_job_true_text _ _ _ _ _ Hid Ht) as [Hnone _]
  end.
  rewrite get_job_eq in Hjob. congruence.
Qed.

Section MoreEndpoints.
Context {V : Pydantic}.

Lemma job_response_status job r :
  Jobs.job_response job = Ret r ->
  JobStatus.of_string (status job) = Ret (JobResponse.status r) /\
  JobResponse.progress r
  = (if String.eqb (status job) "completed" then 1%Q else 0%Q).
Proof.
  unfold Jobs.job_response. intro H.
  apply py_bind_ret in H. destruct H as (st & Hst & H).
  repeat (apply py_bind_ret in H; destruct H as (? & _ & H)).
  inversion H. simpl. split; [exact Hst | reflexivity].
Qed.

Lemma get_job_response d jid r :
  Jobs.get_job d jid = Response r ->
  exists job,
    DatabaseManager.get_job d jid = Some job /\
    Jobs.job_response job = Ret r.
Proof.
  unfold Jobs.get_job.
  destruct (DatabaseManager.get_job d jid) as [job|]; [|discriminate].
  destruct (Jobs.job_response job) as [r0|] eqn:E; [|discriminate].
  intro H. inversion H. subst. exists job. split; [reflexivity | exact E].
Qed.

Lemma job_response_fields job r :
  Jobs.job_response job = Ret r ->
  JobResponse.error_message r = error_message job /\
  JobResponse.created_at r = created_at job /\
  JobResponse.updated_at r = updated_at job /\
  (result_data job = None -> JobResponse.result r = None) /\
  (forall doc, result_data job = Some doc ->
               exists res, validate_TranscriptionResult doc = Some res /\
                           JobResponse.result r = Some res).
Proof.
  unfold Jobs.job_response. intro H.
  repeat (apply py_bind_ret in H; destruct H as (? & ? & H)).
  inversion H. clear H. simpl. repeat split.
  - intro Hn. rewrite Hn in *.
    match goal with Hr : Ret None = Ret _ |- _ => inversion Hr end.
    reflexivity.
  - intros doc Hd. rewrite Hd in *.
    match goal with
    | Hr : py_bind _ _ = Ret _ |- _ =>
        apply py_bind_ret in Hr; destruct Hr as (res & Hv & Hr);
        inversion Hr; subst
    end.
    exists res. split; [|reflexivity].
    destruct (validate_TranscriptionResult doc); [|discriminate].
    inversion Hv. reflexivity.
Qed.

(** X10.  A successful upload answers with a pending job without progress,
    error or result; the job is new in the table, pending, with no stored
    language; exactly one background task is added, with the file path and
    the language of the request; and [get_job] for the new id does not
    answer 404, and what it shows is that pending job. *)
Theorem upload_then_get_job s jid path fname msize diar align lang now r :
  fst (Jobs.upload_and_process s jid path fname msize diar align lang now)
  = Response r ->
  let s' :=
    snd (Jobs.upload_and_process s jid path fname msize diar align lang now)
  in
  (JobResponse.job_id r = jid /\
   JobResponse.status r = JobStatus.PENDING /\
   JobResponse.progress r = 0%Q /\
   JobResponse.current_stage r = Some ProcessingStage.UPLOAD /\
   JobResponse.error_message r = None /\
   JobResponse.result r = None) /\
  DatabaseManager.get_job (db s) jid = None /\
  jobs (db s') = jobs (db s) ++ [uploaded_row jid fname msize diar align now] /\
  DatabaseManager.get_job (db s') jid
  = Some (uploaded_row jid fname msize diar align now) /\
  scheduled s'
  = scheduled s ++ [ Task.mk jid path (Jobs.opt_str msize) (PBool diar)
                       (PBool align) (Jobs.opt_str lang) ] /\
  running s' = running s /\
  Jobs.get_job (db s') jid <> HTTPException 404 "Job not found" /\
  (forall r',
     Jobs.get_job (db s') jid = Response r' ->
     JobResponse.status r' = JobStatus.PENDING /\
     JobResponse.progress r' = 0%Q /\
     JobResponse.error_message r' = None /\
     JobResponse.result r' = None).
Proof.
  cbv zeta.
  destruct (DatabaseManager.get_job (db s) jid) as [job|] eqn:Hget.
  - unfold Jobs.upload_and_process.
    erewrite create_job_known by exact Hget. simpl. discriminate.
  - unfold Jobs.upload_and_process.
    erewrite create_job_fresh by exact Hget.
    destruct (validate_ModelSize (Jobs.opt_str msize)) as [ms|];
      cbn [fst snd db scheduled running]; [|discriminate].
    intro H. inversion H. subst r. clear H.
    assert (Hrow : DatabaseManager.get_job
                     (mkDatabase
                        (jobs (db s) ++
                           [uploaded_row jid fname msize diar align now])
                        (speaker_segments (db s)) (word_segments (db s))) jid
                   = Some (uploaded_row jid fname msize diar align now)).
    { rewrite get_job_eq. rewrite get_job_eq in Hget. simpl.
      apply find_app_last; [exact Hget|].
      unfold job_id_is. simpl. apply String.eqb_refl. }
    repeat split; try reflexivity; try exact Hrow.
    + unfold Jobs.get_job. rewrite Hrow.
      destruct (Jobs.job_response _); discriminate.
    + apply get_job_response in H. destruct H as (job & Hj & E).
      rewrite Hrow in Hj. inversion Hj. subst job.
      apply job_response_status in E. destruct E as [E _].
      simpl in E. inversion E. reflexivity.
    + apply get_job_response in H. destruct H as (job & Hj & E).
      rewrite Hrow in Hj. inversion Hj. subst job.
      apply job_response_status in E. destruct E as [_ E]. exact E.
    + apply get_job_response in H. destruct H as (job & Hj & E).
      rewrite Hrow in Hj. inversion Hj. subst job.
      apply job_response_fields in E. destruct E as (E & _). exact E.
    + apply get_job_response in H. destruct H as (job & Hj & E).
      rewrite Hrow in Hj. inversion Hj. subst job.
      apply job_response_fields in E.
      destruct E as (_ & _ & _ & E & _). apply E. reflexivity.
Qed.

End MoreEndpoints.

Section UploadRetryCancel.
Context {V : Pydantic}.

(** X11.  The two ways an upload ends in the 500 error.  For a job_id that
    is in the table, nothing changes.  For a model size outside the enum,
    the job row has been inserted before the response is built: the job is
    in the table, pending, and no background task is added for it. *)
Theorem upload_failures s jid path fname msize diar align lang now :
  (forall job,
     DatabaseManager.get_job (db s) jid = Some job ->
     Jobs.upload_and_process s jid path fname msize diar align lang now
     = (HTTPException 500 "Failed to create job in database", s)) /\
  (DatabaseManager.get_job (db s) jid = None ->
   validate_ModelSize (Jobs.opt_str msize) = None ->
   let out :=
     Jobs.upload_and_process s jid path fname msize diar align lang now in
   fst out = HTTPException 500 "Internal server error" /\
   DatabaseManager.get_job (db (snd out)) jid
   = Some (uploaded_row jid fname msize diar align now) /\
   scheduled (snd out) = scheduled s /\
   running (snd out) = running s).
Proof.
  split.
  - intros job Hget. unfold Jobs.upload_and_process.
    erewrite create_job_known by exact Hget. rewrite service_eta.
    reflexivity.
  - intros Hget Hms. unfold Jobs.upload_and_process.
    erewrite create_job_fresh by exact Hget. rewrite Hms.
    cbn [fst snd db scheduled running]. repeat split.
    rewrite get_job_eq. rewrite get_job_eq in Hget. simpl.
    apply find_app_last; [exact Hget|].
    unfold job_id_is. simpl. apply String.eqb_refl.
Qed.

Lemma retry_job_answered s jid now r :
  fst (Jobs.retry_job s jid now) = Response r ->
  exists job audio ms di al,
    DatabaseManager.get_job (db s) jid = Some job /\
    status job = "failed" /\
    Jobs.retry_job s jid now
    = (Response
         (JobResponse.mk jid JobStatus.PENDING (created_at job) now audio ms
            di al 0%Q (Some ProcessingStage.UPLOAD) None None),
       mkService
         (snd (DatabaseManager.update_job_status (db s) jid "pending" None
                 now))
         (scheduled s ++
            [ Task.mk jid ("/tmp/whisperx-uploads/" ++ jid ++ ".mp3")%string
                (to_python (model_size job))
                (to_python (enable_diarization job))
                (to_python (enable_alignment job))
                (to_python (language job)) ])
         (running s)).
Proof.
  unfold Jobs.retry_job.
  destruct (DatabaseManager.get_job (db s) jid) as [job|]; [|discriminate].
  destruct (String.eqb (status job) "failed") eqn:E; [|discriminate].
  apply String.eqb_eq in E. cbn [negb].
  match goal with
  | |- context [match ?m with Ret _ => _ | Exc _ => _ end] =>
      destruct m as [r0|e] eqn:Em
  end; cbn [fst]; [|discriminate].
  intro H. inversion H. subst r0. clear H.
  repeat (apply py_bind_ret in Em; destruct Em as (? & _ & Em)).
  inversion Em. subst r.
  exists job. do 4 eexists. split; [reflexivity|]. split; [exact E|].
  reflexivity.
Qed.


End UploadRetryCancel.

Lemma get_job_after_save d jid result now d' job :
  saved d jid result now d' ->
  DatabaseManager.get_job d jid = Some job ->
  exists p du l c,
    DatabaseManager.get_job d' jid
    = Some (set_result p du l c result now job).
Proof.
  intros (dd & p & du & l & c & segs & ss & words & ws & _ & _ & _ & _ & _
            & Hj & _) Hjob.
  exists p, du, l, c. rewrite get_job_eq in *. rewrite Hj.
  rewrite find_update_where by reflexivity. rewrite Hjob. reflexivity.
Qed.

(** X13.  Cancelling does not stop the background task.  After a job has
    been cancelled the tasks that were added or are running are all still
    there; when the task of the job starts, the job is processing again;
    when its engine call raises an exception deriving from [Exception], the
    job ends failed; and when the result is saved, the job ends
    completed. *)
Theorem cancel_does_not_stop_the_task s jid now job :
  DatabaseManager.get_job (db s) jid = Some job ->
  status job <> "completed" -> status job <> "failed" ->
  let s1 := snd (Jobs.cancel_job s jid now) in
  scheduled s1 = scheduled s /\
  running s1 = running s /\
  (exists job1,
     DatabaseManager.get_job (db s1) jid = Some job1 /\
     status job1 = "cancelled") /\
  (forall now',
     exists job',
       DatabaseManager.get_job
         (Jobs.process_audio_job_start (db s1) jid now') jid = Some job' /\
       status job' = "processing") /\
  (forall lang e elapsed now',
     is_Exception e = true ->
     exists job',
       DatabaseManager.get_job
         (Jobs.process_audio_job_finish (db s1) jid lang (Raised e) elapsed
            now') jid = Some job' /\
       status job' = "failed") /\
  (forall lang result elapsed now' result_dict d',
     Jobs.convert_result result elapsed = Ret result_dict ->
     DatabaseManager.save_job_result (db s1) jid result_dict now'
     = (true, d') ->
     Jobs.process_audio_job_finish (db s1) jid lang (Returned result) elapsed
       now' = d' /\
     exists job',
       DatabaseManager.get_job d' jid = Some job' /\
       status job' = "completed").
Proof.
  intros Hjob H1 H2. cbv zeta.
  erewrite cancel_job_accepted by eassumption.
  cbn [snd scheduled running db].
  assert (Hget : DatabaseManager.get_job
                   (snd (DatabaseManager.update_job_status (db s) jid
                           "cancelled" None now)) jid
                 = Some (set_status "cancelled" now job)).
  { erewrite get_job_after_update by eassumption. reflexivity. }
  split; [reflexivity|]. split; [reflexivity|]. split; [|split; [|split]].
  - eexists. split; [exact Hget | reflexivity].
  - intro now'. unfold Jobs.process_audio_job_start.
    erewrite get_job_after_update by exact Hget.
    eexists. split; reflexivity.
  - intros lang e elapsed now' Hex.
    eapply raise_marks_failed with (outcome := Raised e);
      [exact Hget | exact Hex].
  - intros lang result elapsed now' rd d' Hconv Hsave. split.
    + unfold Jobs.process_audio_job_finish. rewrite Hconv, Hsave. reflexivity.
    + destruct (save_job_result_cases
                  (snd (DatabaseManager.update_job_status (db s) jid
                          "cancelled" None now)) jid rd now')
        as [Hf | (d'' & Ht & Hsaved)]; [congruence|].
      assert (d'' = d') by congruence. subst d''.
      destruct (get_job_after_save Hsaved Hget) as (p & du & l & c & Hg).
      eexists. split; [exact Hg | reflexivity].
Qed.

Lemma py_mapM_length {A B} (f : A -> py B) xs ys :
  py_mapM f xs = Ret ys -> List.length ys = List.length xs.
Proof.
  intro H. apply py_mapM_ret in H. symmetry.
  eapply Forall2_length. exact H.
Qed.

Section Pagination.
Context {V : Pydantic}.

(** X14.  A page of [list_jobs], for page and page size of at least 1, with
    [n] jobs matching the filter: the page and page size are echoed,
    [has_prev] says whether the page is not the first, and the page holds
    the [per_page] jobs after the first [(page - 1) * per_page], or as many
    as are left.  As long as no more than 1000 jobs match, [total] is [n]
    and [has_next] says exactly whether the next page has a job. *)
Theorem list_jobs_pagination d page per_page st l :
  1 <= page -> 1 <= per_page ->
  Jobs.list_jobs d page per_page st = Response l ->
  let flt := option_map JobStatus.value st in
  let n := Z.of_nat (List.length (DatabaseManager.matching flt (jobs d))) in
  JobListResponse.page l = page /\
  JobListResponse.per_page l = per_page /\
  JobListResponse.has_prev l = (1 <? page) /\
  Z.of_nat (List.length (JobListResponse.jobs l))
  = Z.max 0 (Z.min per_page (n - (page - 1) * per_page)) /\
  (n <= 1000 ->
   JobListResponse.total l = n /\
   (JobListResponse.has_next l = true <->
    DatabaseManager.get_jobs d per_page (page * per_page) flt <> [])).
Proof.
  intros Hp Hpp Hl. cbv zeta.
  pose proof (list_jobs_total _ _ _ _ Hl) as Htot.
  revert Hl. unfold Jobs.list_jobs.
  destruct (py_mapM Jobs.job_response _) as [rs|] eqn:E; [|discriminate].
  intro H. inversion H. subst l. clear H.
  cbn [JobListResponse.page JobListResponse.per_page
       JobListResponse.has_prev JobListResponse.jobs JobListResponse.total
       JobListResponse.has_next] in *.
  apply py_mapM_length in E.
  assert (Ho : 0 <= (page - 1) * per_page) by nia.
  assert (Ho' : 0 <= page * per_page) by nia.
  repeat split.
  - rewrite E, get_jobs_eq. unfold DatabaseManager.limit_offset.
    replace (per_page <? 0) with false by (symmetry; apply Z.ltb_ge; lia).
    rewrite length_firstn, length_skipn, length_order_by. lia.
  - rewrite Htot. lia.
  - intro Hn. rewrite Htot in Hn. apply Z.ltb_lt in Hn.
    rewrite get_jobs_eq. unfold DatabaseManager.limit_offset.
    replace (per_page <? 0) with false by (symmetry; apply Z.ltb_ge; lia).
    intro Hnil. apply (f_equal (@List.length _)) in Hnil.
    rewrite length_firstn, length_skipn, length_order_by in Hnil.
    simpl in Hnil. lia.
  - intro Hne. rewrite Htot. apply Z.ltb_lt.
    rewrite get_jobs_eq in Hne. unfold DatabaseManager.limit_offset in Hne.
    destruct (Z_lt_ge_dec (page * per_page)
                (Z.min 1000
                   (Z.of_nat
                      (List.length
                         (DatabaseManager.matching
                            (option_map JobStatus.value st) (jobs d))))))
      as [Hlt | Hge]; [exact Hlt|].
    exfalso. apply Hne.
    replace (per_page <? 0) with false by (symmetry; apply Z.ltb_ge; lia).
    rewrite skipn_all2; [apply firstn_nil|].
    rewrite length_order_by. lia.
Qed.

End Pagination.

(** ** What [save_job_result] accepts *)

Lemma binds_ret v : binds v = true -> exists col, bind_param v = Ret col.
Proof.
  unfold binds. destruct (bind_param v) as [col|]; [|discriminate].
  intros _. exists col. reflexivity.
Qed.

Lemma binds_value_ret v :
  binds_value v = true ->
  exists col, bind_param v = Ret col /\ is_null col = false.
Proof.
  unfold binds_value. destruct (bind_param v) as [col|]; [|discriminate].
  intro H. exists col. split; [reflexivity|].
  destruct (is_null col); [discriminate | reflexivity].
Qed.

Lemma tx_for_returns {A} (body : A -> Tx unit) items :
  (forall x, In x items -> forall c, exists c', body x c = (Ret tt, c')) ->
  forall c, exists c', tx_for items body c = (Ret tt, c').
Proof.
  induction items as [|x items IH]; intros Hb c; simpl.
  - exists c. reflexivity.
  - unfold tx_bind. destruct (Hb x (or_introl eq_refl) c) as [c1 ->].
    apply IH. intros y Hy. apply Hb. right. exact Hy.
Qed.

Lemma save_speaker_segment_returns jid segment c :
  storable_segment segment = true ->
  exists c', DatabaseManager.save_speaker_segment jid segment c = (Ret tt, c').
Proof.
  destruct segment as [| | | | | |d]; try discriminate. simpl.
  intro H. apply andb_prop in H. destruct H as [H H4].
  apply andb_prop in H. destruct H as [H H3].
  apply andb_prop in H. destruct H as [H1 H2].
  apply binds_value_ret in H1, H2, H3, H4.
  destruct H1 as (c1 & B1 & N1), H2 as (c2 & B2 & N2),
           H3 as (c3 & B3 & N3), H4 as (c4 & B4 & N4).
  unfold DatabaseManager.save_speaker_segment, DatabaseManager.bind,
    tx_bind, tx_lift, execute, sql_insert_speaker_segment. simpl.
  rewrite B1, B2, B3, B4, N1, N2, N3, N4. eexists. reflexivity.
Qed.

Lemma save_word_segment_returns jid word c :
  storable_word word = true ->
  exists c', DatabaseManager.save_word_segment jid word c = (Ret tt, c').
Proof.
  destruct word as [| | | | | |d]; try discriminate. simpl.
  intro H. apply andb_prop in H. destruct H as [H H5].
  apply andb_prop in H. destruct H as [H H4].
  apply andb_prop in H. destruct H as [H H3].
  apply andb_prop in H. destruct H as [H1 H2].
  apply binds_value_ret in H1, H2, H3.
  apply binds_ret in H4, H5.
  destruct H1 as (c1 & B1 & N1), H2 as (c2 & B2 & N2),
           H3 as (c3 & B3 & N3), H4 as (c4 & B4), H5 as (c5 & B5).
  unfold DatabaseManager.save_word_segment, DatabaseManager.bind,
    tx_bind, tx_lift, execute, sql_insert_word_segment. simpl.
  rewrite B1, B2, B3, B4, B5, N1, N2, N3. eexists. reflexivity.
Qed.

Lemma save_each_returns key d check save :
  storable_items key check d = true ->
  (forall x, check x = true -> forall c, exists c', save x c = (Ret tt, c')) ->
  forall c,
  exists c', DatabaseManager.save_each key (PDict d) save c = (Ret tt, c').
Proof.
  unfold storable_items, DatabaseManager.save_each, tx_bind, tx_lift, tx_ret.
  simpl. intros H Hs c.
  destruct (dict_lookup key d) as [v|]; [|exists c; reflexivity].
  destruct (py_iter v) as [items|]; [|discriminate].
  apply tx_for_returns. intros x Hx. apply Hs.
  rewrite forallb_forall in H. apply H. exact Hx.
Qed.

Lemma save_job_result_returns d jid result now :
  storable_result result = true ->
  fst (DatabaseManager.save_job_result d jid result now) = true.
Proof.
  destruct result as [| | | | | |rd]; try discriminate. simpl.
  intro H. apply andb_prop in H. destruct H as [H Hw].
  apply andb_prop in H. destruct H as [H Hs].
  apply andb_prop in H. destruct H as [H H4].
  apply andb_prop in H. destruct H as [H H3].
  apply andb_prop in H. destruct H as [H1 H2].
  apply binds_ret in H1, H2, H3, H4.
  destruct H1 as (c1 & B1), H2 as (c2 & B2), H3 as (c3 & B3), H4 as (c4 & B4).
  unfold DatabaseManager.save_job_result, with_connection,
    DatabaseManager.save_job_result_tx, DatabaseManager.bind,
    DatabaseManager.json_dumps.
  unfold tx_bind at 1 2 3 4 5 6 7 8 9 10. unfold tx_lift. simpl.
  rewrite B1, B2, B3, B4.
  match goal with
  | |- context [tx_bind (DatabaseManager.save_each _ _ _) _ ?c0] =>
      unfold tx_bind at 1;
      destruct (@save_each_returns "speaker_segments" rd storable_segment
                  (DatabaseManager.save_speaker_segment jid) Hs
                  (fun x Hx c => @save_speaker_segment_returns jid x c Hx) c0)
        as [c' ->]
  end.
  unfold tx_bind at 1.
  destruct (@save_each_returns "word_segments" rd storable_word
              (DatabaseManager.save_word_segment jid) Hw
              (fun x Hx c => @save_word_segment_returns jid x c Hx) c')
    as [c'' ->].
  reflexivity.
Qed.

Lemma binds_of_ret v col : bind_param v = Ret col -> binds v = true.
Proof. unfold binds. intros ->. reflexivity. Qed.

Lemma binds_value_of_ret v col :
  bind_param v = Ret col -> is_null col = false -> binds_value v = true.
Proof. unfold binds_value. intros -> ->. reflexivity. Qed.

Lemma storable_items_of_rows {B} key d check items (rows : list B)
    (row_for : pyval -> B -> Prop) :
  items_under key (PDict d) items ->
  Forall2 row_for items rows ->
  (forall x y, row_for x y -> check x = true) ->
  storable_items key check d = true.
Proof.
  intros (d' & Hd & Hi) Hrows Hc. inversion Hd. subst d'. clear Hd.
  unfold storable_items. destruct (dict_lookup key d) as [v|]; [|reflexivity].
  rewrite Hi. apply forallb_forall. intros x Hx.
  destruct (@Forall2_in_left _ _ _ _ _ _ Hrows Hx) as (y & _ & Hy). eapply Hc. exact Hy.
Qed.

Lemma saved_storable before jid result now after :
  saved before jid result now after -> storable_result result = true.
Proof.
  intros (d & p & du & l & c & segs & ss & words & ws & -> & B1 & B2 & B3
            & B4 & _ & Hs & _ & Hrows & Hw & _ & Hwrows).
  simpl. rewrite (@binds_of_ret _ _ B1), (@binds_of_ret _ _ B2),
    (@binds_of_ret _ _ B3), (@binds_of_ret _ _ B4). simpl.
  rewrite (@storable_items_of_rows _ _ _ storable_segment _ _ _ Hs Hrows).
  - simpl. apply (@storable_items_of_rows _ _ _ storable_word _ _ _ Hw Hwrows).
    intros x y (wd & -> & _ & W1 & W2 & W3 & W4 & W5 & N1 & N2 & N3). simpl.
    rewrite (@binds_value_of_ret _ _ W1 N1), (@binds_value_of_ret _ _ W2 N2),
      (@binds_value_of_ret _ _ W3 N3), (@binds_of_ret _ _ W4), (@binds_of_ret _ _ W5).
    reflexivity.
  - intros x y (sd & -> & _ & S1 & S2 & S3 & S4 & N1 & N2 & N3 & N4). simpl.
    rewrite (@binds_value_of_ret _ _ S1 N1), (@binds_value_of_ret _ _ S2 N2),
      (@binds_value_of_ret _ _ S3 N3), (@binds_value_of_ret _ _ S4 N4).
    reflexivity.
Qed.

(** What a save that is accepted leaves: the job completed with the result
    as its payload, and one row more for every item. *)
Lemma save_job_result_stored d jid result now segs words :
  storable_result result = true ->
  items_under "speaker_segments" result segs ->
  items_under "word_segments" result words ->
  exists d',
    DatabaseManager.save_job_result d jid result now = (true, d') /\
    saved d jid result now d' /\
    List.length (speaker_segments d')
    = (List.length (speaker_segments d) + List.length segs)%nat /\
    List.length (word_segments d')
    = (List.length (word_segments d) + List.length words)%nat.
Proof.
  intros Hst Hs Hw.
  pose proof (@save_job_result_returns d jid result now Hst) as Ht.
  destruct (save_job_result_cases d jid result now)
    as [Hf | (d' & Hd' & Hsaved)].
  - rewrite Hf in Ht. discriminate.
  - exists d'. split; [exact Hd'|]. split; [exact Hsaved|].
    destruct Hsaved as (dd & p & du & l & c & segs' & ss & words' & ws & _
                          & _ & _ & _ & _ & _ & Hs' & Hss & Hrows & Hw'
                          & Hws & Hwrows).
    rewrite (@items_under_same _ _ _ _ Hs Hs') in Hrows.
    rewrite (@items_under_same _ _ _ _ Hw Hw') in Hwrows.
    rewrite Hss, Hws, !length_app.
    rewrite (Forall2_length Hrows), (Forall2_length Hwrows).
    split; reflexivity.
Qed.


(** ** The background task on a well-formed engine result *)

Lemma py_mapM_returns {A B} (f : A -> py B) (P : A -> B -> Prop) xs :
  (forall x, In x xs -> exists y, f x = Ret y /\ P x y) ->
  exists ys, py_mapM f xs = Ret ys /\ Forall2 P xs ys.
Proof.
  induction xs as [|x xs IH]; intro H; simpl.
  - exists []. split; [reflexivity | constructor].
  - destruct (H x (or_introl eq_refl)) as (y & -> & Hy).
    destruct IH as (ys & -> & Hys).
    + intros x' Hx'. apply H. right. exact Hx'.
    + exists (y :: ys). split; [reflexivity | constructor; assumption].
Qed.

Lemma py_join_from_returns sep items : forall i,
  forallb is_str items = true -> exists s, py_join_from i sep items = Ret s.
Proof.
  induction items as [|v items IH]; intros i H; simpl.
  - eexists. reflexivity.
  - simpl in H. apply andb_prop in H. destruct H as [Hv H].
    destruct v; try discriminate.
    destruct items as [|v' items']; [eexists; reflexivity|].
    destruct (IH (S i) H) as [t ->]. eexists. reflexivity.
Qed.

Lemma py_max_from_returns rest : forall best,
  is_number best = true -> forallb is_number rest = true ->
  exists v, py_max_from best rest = Ret v /\ (v = best \/ In v rest).
Proof.
  induction rest as [|x rest IH]; intros best Hb H; simpl.
  - exists best. split; [reflexivity | left; reflexivity].
  - simpl in H. apply andb_prop in H. destruct H as [Hx H].
    rewrite py_gt_eq. unfold is_number in Hx, Hb.
    destruct (as_number x) as [qx|] eqn:Ex; [|discriminate].
    destruct (as_number best) as [qb|] eqn:Eb; [|discriminate].
    simpl. destruct (Qlt_bool qb qx).
    + destruct (IH x) as (v & -> & Hv);
        [unfold is_number; rewrite Ex; reflexivity | exact H |].
      exists v. split; [reflexivity|]. destruct Hv as [-> | Hv]; auto.
    + destruct (IH best) as (v & -> & Hv);
        [unfold is_number; rewrite Eb; reflexivity | exact H |].
      exists v. split; [reflexivity|]. destruct Hv as [-> | Hv]; auto.
Qed.

Lemma convert_word_returns word :
  well_formed_word word = true ->
  exists converted,
    Jobs.convert_word word = Ret converted /\ storable_word converted = true.
Proof.
  destruct word as [| | | | | |d]; try discriminate.
  unfold Jobs.convert_word. cbn [py_get py_bind well_formed_word].
  generalize (get_or d "word" (PStr "")), (get_or d "start" (PInt 0)),
    (get_or d "end" (PInt 0)), (get_or d "speaker" (PStr "UNKNOWN")).
  intros w s e sp H. eexists. split; [reflexivity|].
  unfold storable_word, get_or. simpl dict_lookup. cbv iota.
  rewrite H. reflexivity.
Qed.

Lemma Forall2_forallb_right {A B} (R : A -> B -> Prop) (P : B -> bool) xs ys :
  Forall2 R xs ys -> (forall x y, R x y -> P y = true) ->
  forallb P ys = true.
Proof.
  intros H HP. induction H as [|x y xs ys Hxy _ IH]; simpl; [reflexivity|].
  rewrite (HP x y Hxy), IH. reflexivity.
Qed.

Lemma iterated_list d key items :
  get_or d key (PList []) = PList items -> iterated (PDict d) key = items.
Proof. unfold iterated. simpl. intros ->. reflexivity. Qed.

Lemma binds_value_str v : is_str v = true -> binds_value v = true.
Proof. destruct v; try discriminate. reflexivity. Qed.

Lemma binds_value_binds v : binds_value v = true -> binds v = true.
Proof.
  unfold binds_value, binds. destruct (bind_param v); [reflexivity|].
  discriminate.
Qed.

Lemma convert_segment_returns segment :
  well_formed_segment segment = true ->
  exists sd wl,
    Jobs.convert_segment segment = Ret (sd, wl) /\
    storable_segment sd = true /\
    forallb storable_word wl = true /\
    List.length wl = List.length (engine_words segment).
Proof.
  destruct segment as [| | | | | |d]; try discriminate.
  unfold engine_words. simpl.
  destruct (get_or d "words" (PList [])) as [| | | | |words|] eqn:Ew;
    try (rewrite !andb_false_r; discriminate).
  rewrite (@iterated_list _ _ _ Ew).
  revert Ew.
  unfold Jobs.convert_segment. cbn [py_get py_bind]. intros ->.
  cbn [py_iter py_bind].
  generalize (get_or d "text" (PStr "")), (get_or d "end" (PInt 0)),
    (get_or d "start" (PInt 0)), (get_or d "speaker" (PStr "UNKNOWN")).
  intros t e s sp H.
  apply andb_prop in H. destruct H as [H Hw].
  apply andb_prop in H. destruct H as [H Hsp].
  apply andb_prop in H. destruct H as [H Hs].
  apply andb_prop in H. destruct H as [H He].
  apply andb_prop in H. destruct H as [Ht _].
  destruct (@py_mapM_returns _ _ Jobs.convert_word
              (fun _ wd => storable_word wd = true) words)
    as (wl & -> & Hwl).
  { intros w Hin. apply convert_word_returns.
    rewrite forallb_forall in Hw. apply Hw. exact Hin. }
  simpl. do 2 eexists. split; [reflexivity|]. split; [|split].
  - unfold storable_segment, get_or. simpl dict_lookup. cbv iota.
    rewrite Hsp, Hs, He, (@binds_value_str _ Ht). reflexivity.
  - eapply Forall2_forallb_right; [exact Hwl|]. intros x y Hy. exact Hy.
  - symmetry. eapply Forall2_length. exact Hwl.
Qed.

Lemma forallb_concat_map {A B} (P : B -> bool) (f : A -> list B) xs :
  (forall x, In x xs -> forallb P (f x) = true) ->
  forallb P (List.concat (map f xs)) = true.
Proof.
  induction xs as [|x xs IH]; intro H; simpl; [reflexivity|].
  rewrite forallb_app, (H x (or_introl eq_refl)), IH; [reflexivity|].
  intros y Hy. apply H. right. exact Hy.
Qed.

Lemma length_concat_converted {A B C} (f : A -> list C) (g : B -> list C)
    xs ys :
  Forall2 (fun x y => List.length (g y) = List.length (f x)) xs ys ->
  List.length (List.concat (map g ys)) = List.length (flat_map f xs).
Proof.
  induction 1 as [|x y xs ys Hxy _ IH]; simpl; [reflexivity|].
  rewrite !length_app, Hxy, IH. reflexivity.
Qed.

Lemma py_max_returns items :
  items <> [] -> forallb is_number items = true ->
  exists v, py_max items = Ret v /\ In v items.
Proof.
  destruct items as [|v rest]; [congruence|]. intros _ H. simpl in H.
  apply andb_prop in H. destruct H as [Hv H]. simpl py_max.
  destruct (py_max_from_returns rest v Hv H) as (m & -> & Hm).
  exists m. split; [reflexivity|]. destruct Hm as [-> | Hm]; simpl; auto.
Qed.

(** The conversion of a well-formed engine result returns, and what it
    returns can be stored. *)
Lemma convert_result_returns result elapsed :
  well_formed_result result = true ->
  exists result_dict segs words,
    Jobs.convert_result result elapsed = Ret result_dict /\
    storable_result result_dict = true /\
    items_under "speaker_segments" result_dict segs /\
    items_under "word_segments" result_dict words /\
    List.length segs = List.length (engine_segments result) /\
    List.length words
    = List.length (flat_map engine_words (engine_segments result)).
Proof.
  destruct result as [| | | | | |d]; try discriminate.
  unfold engine_segments. cbn [well_formed_result].
  destruct (get_or d "segments" (PList [])) as [| | | | |segs|] eqn:Es;
    try (rewrite !andb_false_r; discriminate).
  rewrite (@iterated_list _ _ _ Es).
  intro H. apply andb_prop in H. destruct H as [Hlang Hsegs].
  rewrite forallb_forall in Hsegs.
  unfold Jobs.convert_result. cbn [py_get py_bind]. rewrite Es.
  cbn [py_iter py_bind].
  destruct (@py_mapM_returns _ _ (fun seg => py_get seg "text" (PStr ""))
              (fun _ t => is_str t = true) segs) as (texts & -> & Htexts).
  { intros x Hx. apply Hsegs in Hx.
    destruct x as [| | | | | |sd]; try discriminate Hx.
    cbn [well_formed_segment] in Hx.
    do 5 (apply andb_prop in Hx; destruct Hx as [Hx _]).
    eexists. split; [reflexivity | exact Hx]. }
  cbn [py_bind]. unfold py_join.
  destruct (@py_join_from_returns " " texts 0%nat) as [full ->].
  { eapply Forall2_forallb_right; [exact Htexts|]. intros x y Hy. exact Hy. }
  cbn [py_bind].
  destruct (@py_mapM_returns _ _ Jobs.convert_segment
              (fun x y => storable_segment (fst y) = true /\
                          forallb storable_word (snd y) = true /\
                          List.length (snd y) = List.length (engine_words x))
              segs) as (converted & -> & Hconv).
  { intros x Hx. apply Hsegs in Hx.
    destruct (convert_segment_returns _ Hx) as (sd & wl & -> & H1 & H2 & H3).
    eexists. split; [reflexivity|]. simpl. auto. }
  cbn [py_bind].
  assert (Hdur : exists dur,
             (if py_truthy (PList segs)
              then py_bind
                     (py_mapM (fun seg => py_get seg "end" (PInt 0)) segs)
                     (fun ends => py_max ends)
              else Ret (PFloat 0)) = Ret dur /\ binds dur = true).
  { destruct segs as [|s0 segs']; [exists (PFloat 0); split; reflexivity|].
    cbn [py_truthy].
    destruct (@py_mapM_returns _ _ (fun seg => py_get seg "end" (PInt 0))
                (fun _ e => is_number e = true /\ binds e = true)
                (s0 :: segs')) as (ends & -> & Hends).
    { intros x Hx. apply Hsegs in Hx.
      destruct x as [| | | | | |sd]; try discriminate Hx.
      cbn [well_formed_segment] in Hx.
      apply andb_prop in Hx. destruct Hx as [Hx _].
      apply andb_prop in Hx. destruct Hx as [Hx _].
      apply andb_prop in Hx. destruct Hx as [Hx _].
      apply andb_prop in Hx. destruct Hx as [Hx Hb].
      apply andb_prop in Hx. destruct Hx as [_ Hn].
      eexists. split; [reflexivity|].
      split; [exact Hn | apply binds_value_binds; exact Hb]. }
    cbn [py_bind].
    destruct (@py_max_returns ends) as (v & -> & Hv).
    - inversion Hends. discriminate.
    - eapply Forall2_forallb_right; [exact Hends|]. intros x y [Hy _].
      exact Hy.
    - exists v. split; [reflexivity|].
      destruct (@Forall2_in_right _ _ _ _ _ _ Hends Hv) as (x & _ & _ & Hb).
      exact Hb. }
  destruct Hdur as (dur & -> & Hbdur). cbn [py_bind].
  do 3 eexists. split; [reflexivity|]. split; [|split; [|split; [|split]]].
  - unfold storable_result, storable_items, get_or. simpl dict_lookup.
    cbv iota. cbn [py_iter]. rewrite Hbdur. unfold get_or in Hlang.
    rewrite Hlang. simpl.
    rewrite forallb_concat_map.
    + rewrite andb_true_r. apply forallb_forall. intros sd Hsd.
      apply in_map_iff in Hsd. destruct Hsd as (y & <- & Hy).
      destruct (@Forall2_in_right _ _ _ _ _ _ Hconv Hy) as (x & _ & Hs & _).
      exact Hs.
    + intros y Hy.
      destruct (@Forall2_in_right _ _ _ _ _ _ Hconv Hy) as (x & _ & _ & Hw & _).
      exact Hw.
  - eexists. split; [reflexivity|]. simpl. reflexivity.
  - eexists. split; [reflexivity|]. simpl. reflexivity.
  - rewrite length_map. symmetry. eapply Forall2_length. exact Hconv.
  - apply length_concat_converted.
    eapply Forall2_impl; [|exact Hconv]. intros x y (_ & _ & Hl). exact Hl.
Qed.

(** X16.  A well-formed engine result completes the job.  Whatever the
    database holds and whatever language the task was given, the conversion
    returns, the save is accepted, and afterwards the job is completed with
    the converted result as its payload, the measured processing time, the
    fixed confidence 0.8 and the error message it had; one speaker segment
    row has been added for every segment of the engine's result and one
    word segment row for every word. *)
Theorem well_formed_result_completes_job d jid language result elapsed now
    job :
  DatabaseManager.get_job d jid = Some job ->
  well_formed_result result = true ->
  let d' :=
    Jobs.process_audio_job_finish d jid language (Returned result) elapsed now
  in
  exists result_dict job',
    Jobs.convert_result result elapsed = Ret result_dict /\
    DatabaseManager.get_job d' jid = Some job' /\
    status job' = "completed" /\
    result_data job' = Some result_dict /\
    processing_time job' = SReal elapsed /\
    confidence job' = SReal (4 # 5) /\
    updated_at job' = now /\
    created_at job' = created_at job /\
    error_message job' = error_message job /\
    List.length (speaker_segments d')
    = (List.length (speaker_segments d)
       + List.length (engine_segments result))%nat /\
    List.length (word_segments d')
    = (List.length (word_segments d)
       + List.length (flat_map engine_words (engine_segments result)))%nat.
Proof.
  intros Hjob Hwf. cbv zeta.
  destruct (@convert_result_returns result elapsed Hwf)
    as (rd & segs & words & Hconv & Hst & Hs & Hw & Hls & Hlw).
  destruct (@save_job_result_stored d jid rd now segs words Hst Hs Hw)
    as (d' & Hsave & Hsaved & Hss & Hws).
  unfold Jobs.process_audio_job_finish. rewrite Hconv, Hsave. cbn [snd].
  destruct (@convert_result_ret _ _ _ Hconv)
    as (converted & text & lang & dur & _ & Hrd).
  destruct Hsaved as (dd & p & du & l & c & segs' & ss & words' & ws & Hdd
                        & Bp & _ & _ & Bc & Hj & _).
  rewrite Hrd in Hdd. inversion Hdd. subst dd. clear Hdd.
  simpl in Bp, Bc. inversion Bp. inversion Bc. subst p c.
  exists rd. eexists. split; [reflexivity|]. split.
  - rewrite get_job_eq in *. rewrite Hj.
    rewrite find_update_where by reflexivity. rewrite Hjob. reflexivity.
  - rewrite Hss, Hws, Hls, Hlw. repeat split.
Qed.

(** ** The background task when the engine raises *)

Section EngineFailure.
Context {V : Pydantic}.

(** X17.  An engine failure leaves a failed job that carries a result.  For
    a language SQLite can bind and an exception that derives from
    [Exception] and has a description, the
    partial result is saved first, which stores the job as completed; the
    job is then marked failed with the description.  Afterwards the job has
    the partial result (text "Transcription failed", no segments) as its
    payload, duration and confidence 0, the measured processing time and
    the language of the task or "en" in its language column; no segment row
    has been added; and [get_job] shows a failed job without progress, with
    the description and with the validated partial result. *)
Theorem engine_failure_keeps_partial_result d jid lang e elapsed now job :
  DatabaseManager.get_job d jid = Some job ->
  binds (py_or lang (PStr "en")) = true ->
  is_Exception e = true ->
  exc_str e <> "" ->
  let partial := Jobs.partial_result lang elapsed e in
  let d1 := snd (DatabaseManager.save_job_result d jid partial now) in
  let d' := Jobs.process_audio_job_finish d jid lang (Raised e) elapsed now in
  (exists job1,
     DatabaseManager.get_job d1 jid = Some job1 /\
     status job1 = "completed") /\
  (exists job',
     DatabaseManager.get_job d' jid = Some job' /\
     status job' = "failed" /\
     error_message job' = Some (exc_str e) /\
     result_data job' = Some partial /\
     processing_time job' = SReal elapsed /\
     audio_duration job' = SReal 0 /\
     confidence job' = SReal 0 /\
     bind_param (py_or lang (PStr "en")) = Ret (language job') /\
     created_at job' = created_at job /\
     updated_at job' = now) /\
  speaker_segments d' = speaker_segments d /\
  word_segments d' = word_segments d /\
  (forall r,
     Jobs.get_job d' jid = Response r ->
     JobResponse.status r = JobStatus.FAILED /\
     JobResponse.progress r = 0%Q /\
     JobResponse.error_message r = Some (exc_str e) /\
     exists res,
       validate_TranscriptionResult partial = Some res /\
       JobResponse.result r = Some res).
Proof.
  intros Hjob Hb Hex He. cbv zeta.
  assert (Hst : storable_result (Jobs.partial_result lang elapsed e) = true).
  { unfold Jobs.partial_result, storable_result, storable_items, get_or.
    simpl dict_lookup. cbv iota. rewrite Hb. reflexivity. }
  assert (Hs : items_under "speaker_segments"
                 (Jobs.partial_result lang elapsed e) []).
  { eexists. split; [reflexivity|]. reflexivity. }
  assert (Hw : items_under "word_segments"
                 (Jobs.partial_result lang elapsed e) []).
  { eexists. split; [reflexivity|]. reflexivity. }
  destruct (@save_job_result_stored d jid _ now [] [] Hst Hs Hw)
    as (d1 & Hsave & Hsaved & Hss & Hws).
  unfold Jobs.process_audio_job_finish. rewrite Hex, Hsave. cbn [snd].
  destruct Hsaved as (dd & p & du & l & c & segs' & ss & words' & ws & Hdd
                        & Bp & Bd & Bl & Bc & Hj & _ & Hss' & _ & _ & Hws'
                        & _).
  unfold Jobs.partial_result in Hdd. inversion Hdd. subst dd. clear Hdd.
  unfold get_or in Bp, Bd, Bl, Bc. simpl dict_lookup in Bp, Bd, Bl, Bc.
  cbv iota in Bp, Bd, Bl, Bc. simpl in Bp, Bd, Bc.
  inversion Bp. inversion Bd. inversion Bc. subst p du c. clear Bp Bd Bc.
  assert (ss = []) as ->.
  { rewrite Hss' in Hss. rewrite length_app in Hss.
    destruct ss; [reflexivity | simpl in Hss; lia]. }
  assert (ws = []) as ->.
  { rewrite Hws' in Hws. rewrite length_app in Hws.
    destruct ws; [reflexivity | simpl in Hws; lia]. }
  rewrite app_nil_r in Hss', Hws'.
  assert (Hg1 : DatabaseManager.get_job d1 jid
                = Some (set_result (SReal elapsed) (SReal 0) l (SReal 0)
                          (Jobs.partial_result lang elapsed e) now job)).
  { rewrite get_job_eq in *. rewrite Hj.
    rewrite find_update_where by reflexivity. rewrite Hjob. reflexivity. }
  assert (Hg' : DatabaseManager.get_job
                  (snd (DatabaseManager.update_job_status d1 jid "failed"
                          (Some (exc_str e)) now)) jid
                = Some (set_status_error "failed" (exc_str e) now
                          (set_result (SReal elapsed) (SReal 0) l (SReal 0)
                             (Jobs.partial_result lang elapsed e) now job))).
  { erewrite get_job_after_update by exact Hg1. unfold status_update.
    rewrite (given_described He). reflexivity. }
  split; [|split; [|split; [|split]]].
  - eexists. split; [exact Hg1 | reflexivity].
  - eexists. split; [exact Hg'|]. cbn. repeat split. exact Bl.
  - rewrite update_job_status_eq. cbn. exact Hss'.
  - rewrite update_job_status_eq. cbn. exact Hws'.
  - intros r Hr. apply get_job_response in Hr.
    destruct Hr as (job' & Hj' & E). rewrite Hg' in Hj'.
    inversion Hj'. subst job'. clear Hj'.
    pose proof (job_response_status _ E) as [E1 E2].
    pose proof (job_response_fields _ E) as (E3 & _ & _ & _ & E4).
    cbn in E1, E2, E3. inversion E1. repeat split; try assumption.
    apply E4. reflexivity.
Qed.

End EngineFailure.

(** ** The background task without WhisperX *)

Lemma speaker_row_columns jid d row sp st en tx :
  speaker_row_for jid (PDict d) row ->
  bind_param (get_or d "speaker" (PStr "UNKNOWN")) = Ret sp ->
  bind_param (get_or d "start" (PInt 0)) = Ret st ->
  bind_param (get_or d "end" (PInt 0)) = Ret en ->
  bind_param (get_or d "text" (PStr "")) = Ret tx ->
  speaker_columns row = (jid, sp, st, en, tx).
Proof.
  intros (d' & Hd & Hj & B1 & B2 & B3 & B4 & _) H1 H2 H3 H4.
  inversion Hd. subst d'. unfold speaker_columns.
  rewrite Hj. congruence.
Qed.

Lemma word_row_columns jid d row w st en sp cf :
  word_row_for jid (PDict d) row ->
  bind_param (get_or d "word" (PStr "")) = Ret w ->
  bind_param (get_or d "start" (PInt 0)) = Ret st ->
  bind_param (get_or d "end" (PInt 0)) = Ret en ->
  bind_param (get_or d "speaker" (PStr "UNKNOWN")) = Ret sp ->
  bind_param (get_or d "confidence" (PFloat (4 # 5))) = Ret cf ->
  word_columns row = (jid, w, st, en, sp, cf).
Proof.
  intros (d' & Hd & Hj & B1 & B2 & B3 & B4 & B5 & _) H1 H2 H3 H4 H5.
  inversion Hd. subst d'. unfold word_columns.
  rewrite Hj. congruence.
Qed.

Lemma convert_mock_result audio_path language elapsed :
  Jobs.convert_result
    (WhisperXService._get_mock_result audio_path language) elapsed
  = Ret (converted_mock_result language elapsed).
Proof.
  unfold Jobs.convert_result, WhisperXService._get_mock_result.
  cbn [py_get py_bind get_or dict_lookup String.eqb Ascii.eqb Bool.eqb
       py_iter py_mapM py_join py_join_from py_truthy py_max py_max_from
       Jobs.convert_segment Jobs.convert_word List.concat map fst snd app].
  reflexivity.
Qed.

(** The rows stored for the converted mock result. *)
Lemma saved_mock_rows before jid l elapsed now after :
  saved before jid (converted_mock_result (PStr l) elapsed) now after ->
  exists ss ws,
    speaker_segments after = speaker_segments before ++ ss /\
    map speaker_columns ss
    = [ (jid, SText "SPEAKER_00", SReal 0, SReal 5,
         SText "This is a mock transcription result.") ] /\
    word_segments after = word_segments before ++ ws /\
    map word_columns ws
    = [ (jid, SText "This", SReal 0, SReal 1, SText "SPEAKER_00",
         SReal (4 # 5));
        (jid, SText "is", SReal 1, SReal 2, SText "SPEAKER_00",
         SReal (4 # 5));
        (jid, SText "a", SReal 2, SReal 3, SText "SPEAKER_00",
         SReal (4 # 5));
        (jid, SText "mock transcription.", SReal 3, SReal 5,
         SText "SPEAKER_00", SReal (4 # 5)) ].
Proof.
  intros (dd & p & du & lg & c & segs & ss & words & ws & _ & _ & _ & _ & _
            & _ & Hs & Hss & Hrows & Hw & Hws & Hwrows).
  exists ss, ws. split; [exact Hss|]. split; [|split; [exact Hws|]].
  - destruct Hs as (d0 & Hd0 & Hs). unfold converted_mock_result in Hd0.
    inversion Hd0. subst d0. clear Hd0. simpl in Hs. inversion Hs. subst segs.
    clear Hs.
    inversion Hrows as [|? r1 ? ? H1 Hrest]. subst. inversion Hrest. subst.
    simpl.
    rewrite (@speaker_row_columns jid _ r1 (SText "SPEAKER_00") (SReal 0)
               (SReal 5) (SText "This is a mock transcription result.") H1
               eq_refl eq_refl eq_refl eq_refl).
    reflexivity.
  - destruct Hw as (d0 & Hd0 & Hw). unfold converted_mock_result in Hd0.
    inversion Hd0. subst d0. clear Hd0. simpl in Hw. inversion Hw. subst words.
    clear Hw.
    inversion Hwrows as [|? r1 ? ? H1 Hr1]. subst.
    inversion Hr1 as [|? r2 ? ? H2 Hr2]. subst.
    inversion Hr2 as [|? r3 ? ? H3 Hr3]. subst.
    inversion Hr3 as [|? r4 ? ? H4 Hr4]. subst.
    inversion Hr4. subst. simpl.
    rewrite (@word_row_columns jid _ r1 (SText "This") (SReal 0) (SReal 1)
               (SText "SPEAKER_00") (SReal (4 # 5)) H1
               eq_refl eq_refl eq_refl eq_refl eq_refl).
    rewrite (@word_row_columns jid _ r2 (SText "is") (SReal 1) (SReal 2)
               (SText "SPEAKER_00") (SReal (4 # 5)) H2
               eq_refl eq_refl eq_refl eq_refl eq_refl).
    rewrite (@word_row_columns jid _ r3 (SText "a") (SReal 2) (SReal 3)
               (SText "SPEAKER_00") (SReal (4 # 5)) H3
               eq_refl eq_refl eq_refl eq_refl eq_refl).
    rewrite (@word_row_columns jid _ r4 (SText "mock transcription.")
               (SReal 3) (SReal 5) (SText "SPEAKER_00") (SReal (4 # 5)) H4
               eq_refl eq_refl eq_refl eq_refl eq_refl).
    reflexivity.
Qed.



(** ** Jobs do not interfere *)

Lemma row_step_other ev r r' :
  row_step ev r r' -> job_id_is (event_job ev) r = false -> r' = r.
Proof.
  intros H Hn. inversion H; subst; try reflexivity; simpl in Hn; congruence.
Qed.

Lemma job_id_is_other jid jid' r :
  jid' <> jid -> job_id_is jid r = true -> job_id_is jid' r = false.
Proof.
  intros Hne H. apply job_id_is_text in H. unfold job_id_is. rewrite H.
  apply String.eqb_neq. congruence.
Qed.

Lemma find_after_step ev jid rows : forall kept added,
  event_job ev <> jid ->
  Forall2 (row_step ev) rows kept ->
  Forall (fun r => exists fname msize diar align now,
                     r = uploaded_row (event_job ev) fname msize diar align
                           now) added ->
  find (job_id_is jid) (kept ++ added) = find (job_id_is jid) rows.
Proof.
  induction rows as [|r rows IH]; intros kept added Hne Hk Ha.
  - inversion Hk. subst. simpl.
    induction Ha as [|x added (fn & ms & di & al & now & ->) _ IHa];
      [reflexivity|].
    simpl. unfold job_id_is at 1. simpl.
    apply String.eqb_neq in Hne. rewrite Hne. exact IHa.
  - inversion Hk as [|? r' ? kept' Hr Hrest]. subst. simpl.
    destruct (job_id_is jid r) eqn:E.
    + rewrite (@row_step_other _ _ _ Hr (@job_id_is_other _ _ _ Hne E)), E.
      reflexivity.
    + assert (E' : job_id_is jid r' = false).
      { unfold job_id_is in *. rewrite (@row_step_job_id _ _ _ Hr). exact E. }
      rewrite E'. apply IH; assumption.
Qed.

Lemma filter_app_none {A} (f : A -> bool) xs ys :
  Forall (fun y => f y = false) ys -> filter f (xs ++ ys) = filter f xs.
Proof.
  intro H. rewrite filter_app.
  replace (filter f ys) with (@nil A); [apply app_nil_r|].
  induction H as [|y ys Hy _ IH]; simpl; [reflexivity|].
  rewrite Hy. exact IH.
Qed.

Lemma take_task_other jid jid' ts t rest :
  jid' <> jid ->
  take_task jid' ts = Some (t, rest) ->
  Task.job_id t = jid' /\
  filter (fun x => String.eqb (Task.job_id x) jid) rest
  = filter (fun x => String.eqb (Task.job_id x) jid) ts.
Proof.
  intro Hne. revert t rest.
  induction ts as [|x ts IH]; intros t rest; simpl; [discriminate|].
  destruct (String.eqb (Task.job_id x) jid') eqn:E.
  - intro H. inversion H. subst. apply String.eqb_eq in E.
    split; [exact E|].
    replace (String.eqb (Task.job_id t) jid) with false; [reflexivity|].
    symmetry. apply String.eqb_neq. congruence.
  - destruct (take_task jid' ts) as [[t' rest']|]; [|discriminate].
    intro H. inversion H. subst.
    destruct (IH t rest' eq_refl) as [Ht Hf]. split; [exact Ht|].
    simpl. rewrite Hf. reflexivity.
Qed.

(** The segment rows a save adds are rows of its job. *)
Lemma save_job_result_segments d jid result now :
  exists ss ws,
    speaker_segments (snd (DatabaseManager.save_job_result d jid result now))
    = speaker_segments d ++ ss /\
    word_segments (snd (DatabaseManager.save_job_result d jid result now))
    = word_segments d ++ ws /\
    Forall (fun row => ss_job_id row = jid) ss /\
    Forall (fun row => ws_job_id row = jid) ws.
Proof.
  destruct (save_job_result_cases d jid result now)
    as [-> | (d' & -> & Hsaved)]; cbn [snd].
  - exists [], []. rewrite !app_nil_r. repeat split; constructor.
  - destruct Hsaved as (dd & p & du & l & c & segs & ss & words & ws & _
                          & _ & _ & _ & _ & _ & _ & Hss & Hrows & _ & Hws
                          & Hwrows).
    exists ss, ws. repeat split; try assumption.
    + eapply Forall2_right; [|exact Hrows].
      intros x y (sd & _ & Hjid & _). exact Hjid.
    + eapply Forall2_right; [|exact Hwrows].
      intros x y (wd & _ & Hjid & _). exact Hjid.
Qed.

Section Isolation.
Context {V : Pydantic}.

(** What a step does to the segment tables: rows of the job of the event
    may be added, nothing else. *)
Lemma step_segments s ev :
  exists ss ws,
    speaker_segments (db (step s ev)) = speaker_segments (db s) ++ ss /\
    word_segments (db (step s ev)) = word_segments (db s) ++ ws /\
    Forall (fun row => ss_job_id row = event_job ev) ss /\
    Forall (fun row => ws_job_id row = event_job ev) ws.
Proof.
  assert (Hkeep : forall db',
             speaker_segments db' = speaker_segments (db s) ->
             word_segments db' = word_segments (db s) ->
             exists ss ws,
               speaker_segments db' = speaker_segments (db s) ++ ss /\
               word_segments db' = word_segments (db s) ++ ws /\
               Forall (fun row => ss_job_id row = event_job ev) ss /\
               Forall (fun row => ws_job_id row = event_job ev) ws).
  { intros db' H1 H2. exists [], []. rewrite !app_nil_r.
    repeat split; try assumption; constructor. }
  destruct ev as [jid path fname msize diar align lang now | jid now
                 | jid outcome elapsed now | jid now | jid now];
    unfold step.
  - unfold Jobs.upload_and_process. rewrite create_job_upload.
    destruct (existsb _ (jobs (db s))); [apply Hkeep; reflexivity|].
    destruct (validate_ModelSize (Jobs.opt_str msize));
      apply Hkeep; reflexivity.
  - destruct (take_task jid (scheduled s)) as [[t rest]|];
      [|apply Hkeep; reflexivity].
    cbn [db]. unfold Jobs.process_audio_job_start.
    rewrite update_job_status_eq. apply Hkeep; reflexivity.
  - destruct (take_task jid (running s)) as [[t rest]|];
      [|apply Hkeep; reflexivity].
    cbn [db event_job]. unfold Jobs.process_audio_job_finish.
    destruct outcome as [result | e].
    + destruct (Jobs.convert_result result elapsed) as [rd | e].
      * apply save_job_result_segments.
      * rewrite update_job_status_eq. apply Hkeep; reflexivity.
    + destruct (is_Exception e); [|apply Hkeep; reflexivity].
      rewrite update_job_status_eq. cbn [snd speaker_segments word_segments].
      apply save_job_result_segments.
  - destruct (retry_db s jid now) as [-> | ->]; [apply Hkeep; reflexivity|].
    rewrite update_job_status_eq. apply Hkeep; reflexivity.
  - destruct (cancel_db s jid now) as [-> | ->]; [apply Hkeep; reflexivity|].
    rewrite update_job_status_eq. apply Hkeep; reflexivity.
Qed.

(** What a step does to the tasks of other jobs: nothing. *)
Lemma step_tasks s ev jid :
  event_job ev <> jid ->
  filter (fun t => String.eqb (Task.job_id t) jid) (scheduled (step s ev))
  = filter (fun t => String.eqb (Task.job_id t) jid) (scheduled s) /\
  filter (fun t => String.eqb (Task.job_id t) jid) (running (step s ev))
  = filter (fun t => String.eqb (Task.job_id t) jid) (running s).
Proof.
  intro Hne.
  assert (Hother : forall t, Task.job_id t = event_job ev ->
                             String.eqb (Task.job_id t) jid = false).
  { intros t Ht. apply String.eqb_neq. congruence. }
  destruct ev as [jid' path fname msize diar align lang now | jid' now
                 | jid' outcome elapsed now | jid' now | jid' now];
    unfold step; cbn [event_job] in *.
  - unfold Jobs.upload_and_process.
    destruct (DatabaseManager.create_job (db s) _ now) as [[|] d'];
      [|split; reflexivity].
    destruct (validate_ModelSize (Jobs.opt_str msize));
      [|split; reflexivity].
    cbn [snd scheduled running]. split; [|reflexivity].
    apply filter_app_none. constructor; [|constructor].
    apply Hother. reflexivity.
  - destruct (take_task jid' (scheduled s)) as [[t rest]|] eqn:E;
      [|split; reflexivity].
    destruct (@take_task_other _ _ _ _ _ Hne E) as [Ht Hf].
    cbn [scheduled running]. split; [exact Hf|].
    apply filter_app_none. constructor; [|constructor].
    apply Hother. exact Ht.
  - destruct (take_task jid' (running s)) as [[t rest]|] eqn:E;
      [|split; reflexivity].
    destruct (@take_task_other _ _ _ _ _ Hne E) as [Ht Hf].
    cbn [scheduled running]. split; [reflexivity | exact Hf].
  - unfold Jobs.retry_job.
    destruct (DatabaseManager.get_job (db s) jid') as [job|];
      [|split; reflexivity].
    destruct (negb (String.eqb (status job) "failed"));
      [split; reflexivity|].
    match goal with
    | |- context [match ?m with Ret _ => _ | Exc _ => _ end] => destruct m
    end; cbn [snd scheduled running]; [|split; reflexivity].
    split; [|reflexivity].
    apply filter_app_none. constructor; [|constructor].
    apply Hother. reflexivity.
  - unfold Jobs.cancel_job.
    destruct (DatabaseManager.get_job (db s) jid') as [job|];
      [|split; reflexivity].
    destruct (String.eqb (status job) "completed"
              || String.eqb (status job) "failed"); [split; reflexivity|].
    destruct (DatabaseManager.update_job_status (db s) jid' "cancelled" None
                now) as [[|] d']; split; reflexivity.
Qed.

(** X19.  Jobs do not interfere: an upload, a background execution, a retry
    or a cancellation of one job leaves every other job as it is, its row
    (or its absence), its speaker and word segment rows, and its
    background tasks, those waiting and those running. *)
Theorem other_jobs_are_untouched s ev jid :
  event_job ev <> jid ->
  let s' := step s ev in
  DatabaseManager.get_job (db s') jid = DatabaseManager.get_job (db s) jid /\
  filter (fun r => String.eqb (ss_job_id r) jid) (speaker_segments (db s'))
  = filter (fun r => String.eqb (ss_job_id r) jid) (speaker_segments (db s)) /\
  filter (fun r => String.eqb (ws_job_id r) jid) (word_segments (db s'))
  = filter (fun r => String.eqb (ws_job_id r) jid) (word_segments (db s)) /\
  filter (fun t => String.eqb (Task.job_id t) jid) (scheduled s')
  = filter (fun t => String.eqb (Task.job_id t) jid) (scheduled s) /\
  filter (fun t => String.eqb (Task.job_id t) jid) (running s')
  = filter (fun t => String.eqb (Task.job_id t) jid) (running s).
Proof.
  intro Hne. cbv zeta.
  destruct (step_jobs s ev) as (kept & added & Hj & Hk & Ha).
  destruct (step_segments s ev) as (ss & ws & Hss & Hws & Hs & Hw).
  split; [|split; [|split]].
  - rewrite !get_job_eq, Hj.
    apply (@find_after_step ev jid _ _ _ Hne Hk Ha).
  - rewrite Hss. apply filter_app_none.
    eapply Forall_impl; [|exact Hs]. cbv beta. intros row ->.
    apply String.eqb_neq. exact Hne.
  - rewrite Hws. apply filter_app_none.
    eapply Forall_impl; [|exact Hw]. cbv beta. intros row ->.
    apply String.eqb_neq. exact Hne.
  - apply step_tasks. exact Hne.
Qed.

End Isolation.

(** ** The properties at job "abc" *)

(** X1 at the first job of an empty table. *)
Lemma create_job_then_get_job_witness :
  DatabaseManager.get_job empty_db "abc" = None /\
  exists row,
    DatabaseManager.get_job
      (mkDatabase
         [created_row (SText "abc") (SText "a.wav") (SText "large-v2")
            (SInt 1) (SInt 1) SNull 10] [] []) "abc" = Some row /\
    status row = "pending".
Proof.
  destruct (@create_job_then_get_job empty_db job_data_abc "abc" 10
              (mkDatabase
                 [created_row (SText "abc") (SText "a.wav") (SText "large-v2")
                    (SInt 1) (SInt 1) SNull 10] [] [])
              eq_refl eq_refl)
    as (Hnone & row & Hrow & _ & _ & Hst & _).
  split; [exact Hnone|]. exists row. split; assumption.
Defined.

(** X2 at job "abc", which is in the table. *)
Lemma create_job_refuses_known_id_witness :
  DatabaseManager.create_job processing_abc job_data_abc 20
  = (false, processing_abc).
Proof.
  apply (@create_job_refuses_known_id processing_abc job_data_abc "abc" 20
           processing_abc_row); reflexivity.
Defined.

(** X3 at a job without a filename. *)
Lemma create_job_refuses_missing_key_witness :
  DatabaseManager.create_job empty_db (PDict [("job_id", PStr "abc")]) 10
  = (false, empty_db).
Proof.
  apply (@create_job_refuses_missing_key empty_db
           (PDict [("job_id", PStr "abc")]) 10 "filename"
           (KeyError "filename")).
  - right. reflexivity.
  - reflexivity.
Defined.


(** X6 at job "abc", marked as failed with the message "boom". *)
Lemma update_job_status_with_message_witness :
  "boom" <> "" /\
  map error_message
    (jobs (snd (DatabaseManager.update_job_status processing_abc "abc"
                  "failed" (Some "boom") 12)))
  = [Some "boom"].
Proof.
  assert (Hm : "boom" <> "") by discriminate.
  split; [exact Hm|].
  pose proof (@update_job_status_with_message processing_abc "abc" "failed"
                "boom" 12 Hm) as H.
  cbv zeta in H. destruct H as (H & _).
  inversion H as [|r r' rows rows' (_ & Hhit & _) Hrest]. subst.
  inversion Hrest. subst.
  destruct (Hhit eq_refl) as (_ & _ & He).
  exact (f_equal (fun x => [x]) He).
Defined.

(** X10 at the upload of job "abc" to the service at start-up. *)
Lemma upload_then_get_job_witness :
  let s' :=
    snd (Jobs.upload_and_process initial "abc"
           "/tmp/whisperx-uploads/abc.wav" "a.wav" (Some "base") true true
           None 10) in
  DatabaseManager.get_job (db s') "abc"
  = Some (uploaded_row "abc" "a.wav" (Some "base") true true 10) /\
  List.length (scheduled s') = 1%nat.
Proof.
  cbv zeta.
  edestruct (@upload_then_get_job plain_pydantic initial "abc"
               "/tmp/whisperx-uploads/abc.wav" "a.wav" (Some "base") true
               true None 10) as (_ & _ & _ & Hrow & Hsched & _).
  - vm_compute. reflexivity.
  - split; [exact Hrow|]. rewrite Hsched. reflexivity.
Defined.


(** X13 at job "abc", cancelled while it is processed. *)
Lemma cancel_does_not_stop_the_task_witness :
  let s := mkService processing_abc [] [task_abc] in
  let s1 := snd (Jobs.cancel_job s "abc" 14) in
  running s1 = [task_abc] /\
  exists job',
    DatabaseManager.get_job
      (Jobs.process_audio_job_finish (db s1) "abc" PNone
         (Raised decode_error) (3 # 2) 15) "abc" = Some job' /\
    status job' = "failed".
Proof.
  cbv zeta.
  pose proof (@cancel_does_not_stop_the_task
                (mkService processing_abc [] [task_abc]) "abc" 14
                processing_abc_row eq_refl) as H.
  cbv zeta in H.
  destruct H as (_ & Hrun & _ & _ & Hfail & _);
    [discriminate | discriminate |].
  split; [exact Hrun|].
  apply (Hfail PNone decode_error (3 # 2) 15). reflexivity.
Defined.

(** X14 at the second page of two of a table of five jobs. *)
Lemma list_jobs_pagination_witness :
  exists l,
    Jobs.list_jobs (V:=plain_pydantic) (many_jobs 5) 2 2 None = Response l /\
    JobListResponse.page l = 2 /\
    JobListResponse.has_prev l = true /\
    Z.of_nat (List.length (JobListResponse.jobs l)) = 2 /\
    JobListResponse.total l = 5 /\
    JobListResponse.has_next l = true.
Proof.
  destruct (Jobs.list_jobs (V:=plain_pydantic) (many_jobs 5) 2 2 None)
    as [l|code detail] eqn:E; [|vm_compute in E; discriminate E].
  exists l. split; [reflexivity|].
  pose proof (@list_jobs_pagination plain_pydantic (many_jobs 5) 2 2 None l)
    as H.
  cbv zeta in H.
  destruct H as (Hp & _ & Hprev & Hlen & Hn); [lia | lia | exact E |].
  destruct Hn as (Htot & Hnext); [vm_compute; discriminate|].
  split; [exact Hp|]. split; [exact Hprev|].
  split; [rewrite Hlen; vm_compute; reflexivity|].
  split; [rewrite Htot; vm_compute; reflexivity|].
  apply Hnext. vm_compute. discriminate.
Defined.

(** X16 at job "abc" and the mock result. *)
Lemma well_formed_result_completes_job_witness :
  exists job',
    DatabaseManager.get_job
      (Jobs.process_audio_job_finish processing_abc "abc" PNone
         (Returned (WhisperXService._get_mock_result "a.wav" (PStr "en")))
         (3 # 2) 12) "abc" = Some job' /\
    status job' = "completed" /\
    processing_time job' = SReal (3 # 2).
Proof.
  pose proof (@well_formed_result_completes_job processing_abc "abc" PNone
                (WhisperXService._get_mock_result "a.wav" (PStr "en"))
                (3 # 2) 12 processing_abc_row eq_refl eq_refl) as H.
  cbv zeta in H.
  destruct H as (rd & job' & _ & Hjob & Hst & _ & Hpt & _).
  exists job'. split; [exact Hjob|]. split; assumption.
Defined.

(** X17 at job "abc", whose engine call raises "decode error". *)
Lemma engine_failure_keeps_partial_result_witness :
  exists job',
    DatabaseManager.get_job
      (Jobs.process_audio_job_finish processing_abc "abc" PNone
         (Raised decode_error) (3 # 2) 12) "abc" = Some job' /\
    status job' = "failed" /\
    error_message job' = Some "decode error" /\
    result_data job' = Some (Jobs.partial_result PNone (3 # 2) decode_error).
Proof.
  assert (Hd : exc_str decode_error <> "") by discriminate.
  pose proof (@engine_failure_keeps_partial_result plain_pydantic
                processing_abc "abc" PNone decode_error (3 # 2) 12
                processing_abc_row eq_refl eq_refl eq_refl Hd) as H.
  cbv zeta in H.
  destruct H as (_ & (job' & Hjob & Hst & Hmsg & Hres & _) & _).
  exists job'. split; [exact Hjob|]. split; [exact Hst|].
  split; assumption.
Defined.


(** X19 at the cancellation of job "xyz" in a service with job "abc". *)
Lemma other_jobs_are_untouched_witness :
  let s := mkService processing_abc [] [task_abc] in
  DatabaseManager.get_job
    (db (step (V:=plain_pydantic) s (Cancel "xyz" 14))) "abc"
  = Some processing_abc_row.
Proof.
  cbv zeta.
  assert (Hne : event_job (Cancel "xyz" 14) <> "abc") by discriminate.
  pose proof (@other_jobs_are_untouched plain_pydantic
                (mkService processing_abc [] [task_abc]) (Cancel "xyz" 14)
                "abc" Hne) as H.
  cbv zeta in H. destruct H as (H & _). rewrite H. reflexivity.
Defined.
